(** * Retry / circuit-breaker wrappers of autonomos-lab

    A shallow embedding of the two resilience wrappers of the repository,

      - [api/retry_handler.py]      (class [RetryHandler]) and
      - [core/failover_strategy.py] (class [FailoverStrategy]),

    together with the properties the specification states about them.

    Conventions of the embedding.

    - Python integers are [Z]; Python floats (delays, timestamps) are exact
      rationals [Q], so rounding is abstracted away.  The range of a float is
      not: where Python raises [OverflowError] because a number does not fit
      a float (an int converted to float, [float ** int]), the model raises
      it too.  Parameters annotated [float] in the source hold floats.
    - The wrapped operation, the fallback handlers, [time.time()] and
      [random.random()] are oracles: functions from "how often was this
      called so far" to what the call yields.  The counters live in the
      [world], next to the log of sleeps and log lines.  An operation that
      "always fails" is the constant oracle; a test double that fails twice
      and then succeeds is [fun n => if n <? 2 then Raises e else Returns v].
    - A Python call either returns or raises: [result]. *)

From Stdlib Require Import ZArith QArith Qabs Qpower Qminmax Lia Lqa String
  List DecimalString.
From stdpp Require Import gmap strings.
Import ListNotations.

Local Open Scope Z_scope.

(** ** Python values shared by both classes *)

(** What one invocation of a user callable (operation or fallback) does. *)
Inductive outcome (V E : Type) : Type :=
| Returns (v : V)
| Raises (e : E).
Arguments Returns {V E} v.
Arguments Raises {V E} e.

(** Exceptions that can leave the wrappers.  [Propagated e] is the very
    exception object [e] a user callable raised, passed on unmodified.
    [RetryHandlerError] is the [AgentError] subclass of retry_handler.py with
    its message, severity and context dictionary (the uuid, timestamp and
    traceback fields of [AgentError] are not modelled).  The others are
    built-in exceptions raised by the interpreter or the standard library
    while the wrapper's own code runs. *)
Inductive raised (E : Type) : Type :=
| Propagated (e : E)
| RetryHandlerError (message : string) (severity : Z)
                    (context : list (string * string))
| RuntimeError (message : string)
| TypeError
| KeyError (key : string)
| OverflowError
| ValueError.
Arguments Propagated {E} e.
Arguments RetryHandlerError {E} message severity context.
Arguments RuntimeError {E} message.
Arguments TypeError {E}.
Arguments KeyError {E} key.
Arguments OverflowError {E}.
Arguments ValueError {E}.

Inductive result (A E : Type) : Type :=
| Ok (a : A)
| Err (x : raised E).
Arguments Ok {A E} a.
Arguments Err {A E} x.

(** [core/error_handler.py], class [ErrorSeverity]. *)
Module ErrorSeverity.
Definition DEBUG : Z := 10.
Definition INFO : Z := 20.
Definition WARNING : Z := 30.
Definition ERROR : Z := 40.
Definition CRITICAL : Z := 50.
End ErrorSeverity.

(** Observable side effects other than the calls themselves. *)
Inductive event : Type :=
| Sleep (delay : Q)                                  (* asyncio.sleep(delay) *)
| LogRetry (attempt : Z) (err : string) (delay : Q)  (* logging.warning(...) *)
| LogWarning (msg : string)
| LogError (msg : string).

Record world : Type := mkWorld {
  calls : nat;        (* invocations of the wrapped operation so far *)
  fb_calls : nat;     (* invocations of fallback handlers so far *)
  clock_reads : nat;  (* calls of time.time() so far *)
  draws : nat;        (* calls of random.random() so far *)
  events : list event (* newest first *)
}.

Definition world0 : world := mkWorld 0 0 0 0 [].

(** The oracles a run is played against. *)
Record env (V E : Type) : Type := mkEnv {
  op : nat -> outcome V E;   (* n-th invocation of the wrapped operation *)
  time : nat -> Q;           (* n-th reading of time.time() *)
  random : nat -> Q          (* n-th value of random.random(), in [0,1) *)
}.
Arguments mkEnv {V E} op time random.
Arguments op {V E} e n.
Arguments time {V E} e n.
Arguments random {V E} e n.

Section Effects.
Context {V E : Type}.
Variable ev : env V E.

Definition invoke (w : world) : outcome V E * world :=
  (op ev (calls w),
   mkWorld (S (calls w)) (fb_calls w) (clock_reads w) (draws w) (events w)).

Definition time_time (w : world) : Q * world :=
  (time ev (clock_reads w),
   mkWorld (calls w) (fb_calls w) (S (clock_reads w)) (draws w) (events w)).

Definition random_random (w : world) : Q * world :=
  (random ev (draws w),
   mkWorld (calls w) (fb_calls w) (clock_reads w) (S (draws w)) (events w)).
End Effects.

Definition emit (e : event) (w : world) : world :=
  mkWorld (calls w) (fb_calls w) (clock_reads w) (draws w) (e :: events w).

(** A fallback handler is a callable of its own; its n-th invocation (counted
    over all fallbacks) yields [fb n]. *)
Definition call_fallback {V E : Type} (fb : nat -> outcome V E) (w : world)
  : outcome V E * world :=
  (fb (fb_calls w),
   mkWorld (calls w) (S (fb_calls w)) (clock_reads w) (draws w) (events w)).

(** [range(lo, hi)] *)
Definition range (lo hi : Z) : list Z :=
  map (fun i => lo + Z.of_nat i) (seq 0 (Z.to_nat (hi - lo))).

(** [str(n)] for an int, as used by f-strings. *)
Definition show_Z (n : Z) : string := NilZero.string_of_int (Z.to_int n).

(** [random.uniform(a, b)] is [a + (b - a) * random()]. *)
Definition uniform (a b r : Q) : Q := (a + (b - a) * r)%Q.

(** [x < y] on floats, as a boolean. *)
Definition Qltb (x y : Q) : bool := negb (Qle_bool y x).

(** *** The range of a float

    A number whose absolute value is [2^1024 - 2^970] or more rounds to
    something beyond the largest double.  Python raises [OverflowError]
    when such a number is to become a float. *)
Definition float_limit : Q := inject_Z (2 ^ 1024 - 2 ^ 970).

Definition float_overflows (x : Q) : bool := Qle_bool float_limit (Qabs x).

(** The conversion of the int operand of [float * int]:
    "int too large to convert to float". *)
Definition int_to_float (n : Z) : option Q :=
  if float_overflows (inject_Z n) then None else Some (inject_Z n).

(** [x ** n] for an int exponent [n], where the result is a float: either
    [x] is a float, or [x] is an int, then the int [x ** n] (for [0 <= n]) or
    the float [x ** n] (for [n < 0]) is converted when it meets a float.
    [OverflowError] when the exponent or the power is out of range; a power
    too small for a float is 0.0 in Python, which is rounding. *)
Definition float_pow (x : Q) (n : Z) : option Q :=
  if float_overflows (inject_Z n) || float_overflows (x ^ n) then None
  else Some (x ^ n)%Q.

(** [time.sleep(secs)] converts [secs] to a signed 64-bit count of
    nanoseconds before it looks at the sign: [OverflowError] ("timestamp too
    large to convert to C _PyTime_t") when that does not fit, [ValueError]
    ("sleep length must be non-negative") when [secs] is negative.  [None]
    means the call sleeps and returns. *)
Definition time_sleep_error {E : Type} (secs : Q) : option (raised E) :=
  if Qltb (secs * inject_Z (10 ^ 9)) (inject_Z (- 2 ^ 63))
     || Qle_bool (inject_Z (2 ^ 63)) (secs * inject_Z (10 ^ 9))
  then Some OverflowError
  else if Qltb secs 0 then Some ValueError
  else None.

(** The delays [time.sleep] accepts: not negative, and less than [2^63]
    nanoseconds (some 292 years).  [time_sleep_error_None] below shows that
    these are exactly the delays for which the call returns. *)
Definition sleepable (secs : Q) : Prop :=
  (0 <= secs)%Q /\ (secs * inject_Z (10 ^ 9) < inject_Z (2 ^ 63))%Q.

(** Run the same call [n] times in a row, threading the object and the world
    and collecting what each call gave. *)
Fixpoint repeat_call {S R : Type} (call : S -> world -> R * S * world)
    (n : nat) (s : S) (w : world) : list R * S * world :=
  match n with
  | O => ([], s, w)
  | S n' =>
      let '(r, s1, w1) := call s w in
      let '(rs, s2, w2) := repeat_call call n' s1 w1 in
      (r :: rs, s2, w2)
  end.

(** The delays slept so far, oldest first. *)
Definition slept (w : world) : list Q :=
  rev (flat_map (fun e => match e with Sleep d => [d] | _ => [] end)
         (events w)).

(** ** api/retry_handler.py *)

Module RetryHandler.

Inductive RetryStrategy : Type := CONSTANT | LINEAR | EXPONENTIAL | FIBONACCI.

Inductive CircuitState : Type := CLOSED | OPEN | HALF_OPEN.

Definition CircuitState_eqb (a b : CircuitState) : bool :=
  match a, b with
  | CLOSED, CLOSED | OPEN, OPEN | HALF_OPEN, HALF_OPEN => true
  | _, _ => false
  end.

Section WithTypes.
Context {V E : Type}.
(** [str(e)] and [isinstance(e, Exception)] for the exceptions of the
    operation. *)
Variable str : E -> string.
Variable is_Exception : E -> bool.

(** The attributes of a [RetryHandler] object.  [_retry_on e] is
    [isinstance(e, self._retry_on)]. *)
Record t : Type := mk {
  _max_retries : Z;
  _base_delay : Q;
  _max_delay : Q;
  _backoff_strategy : RetryStrategy;
  _jitter : Q;
  _circuit_failure_threshold : Z;
  _circuit_reset_timeout : Q;
  _retry_on : E -> bool;
  _failure_count : Z;
  _circuit_state : CircuitState;
  _last_failure_time : option Q
}.

(** The values the parameter [retry_on] of [__init__] takes: [None], an
    exception class, or a tuple of exception classes.  A class is given by
    its [isinstance] test. *)
Inductive retry_on_value : Type :=
| RetryOnNone
| RetryOnClass (cls : E -> bool)
| RetryOnTuple (classes : list (E -> bool)).

(** Line 65, [retry_on or Exception]: a falsy value, which is [None] or the
    empty tuple, gives way to [Exception]; a class or a non-empty tuple is
    kept, and [except self._retry_on] then tests the exception against it.
    The result is the argument of [__init__] below: [None] for [Exception],
    [Some p] for a kept value whose test is [p]. *)
Definition retry_on_or_Exception (v : retry_on_value) : option (E -> bool) :=
  match v with
  | RetryOnNone => None
  | RetryOnClass cls => Some cls
  | RetryOnTuple [] => None
  | RetryOnTuple classes => Some (fun e => existsb (fun cls => cls e) classes)
  end.

(** [RetryHandler.__init__]: stores its arguments, no validation.  Its last
    argument is the outcome of [retry_on or Exception] on line 65, see
    [retry_on_or_Exception]: [None] stands for a falsy [retry_on] ([None],
    the default, or the empty tuple), for which
    [isinstance(e, self._retry_on)] is [isinstance(e, Exception)]; [Some p]
    stands for an exception class or a non-empty tuple of them, with [p e]
    the value of [isinstance(e, retry_on)]. *)
Definition __init__ (max_retries : Z) (base_delay max_delay : Q)
    (backoff_strategy : RetryStrategy) (jitter : Q)
    (circuit_failure_threshold : Z) (circuit_reset_timeout : Q)
    (retry_on : option (E -> bool)) : t :=
  mk max_retries base_delay max_delay backoff_strategy jitter
     circuit_failure_threshold circuit_reset_timeout
     (match retry_on with Some p => p | None => is_Exception end)
     0 CLOSED None.

Definition set_circuit_state (s : CircuitState) (h : t) : t :=
  mk (_max_retries h) (_base_delay h) (_max_delay h) (_backoff_strategy h)
     (_jitter h) (_circuit_failure_threshold h) (_circuit_reset_timeout h)
     (_retry_on h) (_failure_count h) s (_last_failure_time h).

Definition set_failure_count (n : Z) (h : t) : t :=
  mk (_max_retries h) (_base_delay h) (_max_delay h) (_backoff_strategy h)
     (_jitter h) (_circuit_failure_threshold h) (_circuit_reset_timeout h)
     (_retry_on h) n (_circuit_state h) (_last_failure_time h).

Definition set_last_failure_time (x : option Q) (h : t) : t :=
  mk (_max_retries h) (_base_delay h) (_max_delay h) (_backoff_strategy h)
     (_jitter h) (_circuit_failure_threshold h) (_circuit_reset_timeout h)
     (_retry_on h) (_failure_count h) (_circuit_state h) x.

(** Lines 85-95 of [_calculate_delay]: the delay of the strategy, before
    clamping and jitter.  [self._base_delay] is a float, [attempt] an int:
    the other factor is converted to a float, or computed as one, before the
    product is taken, and [None] is the [OverflowError] of that step.  (A
    product of two floats never raises; beyond the range it is [inf], which
    line 98 clamps like any large number.) *)
Definition strategy_delay (h : t) (attempt : Z) : option Q :=
  match _backoff_strategy h with
  | CONSTANT => Some (_base_delay h)
  | LINEAR =>
      x ← int_to_float attempt; Some (_base_delay h * x)%Q
  | EXPONENTIAL =>
      x ← float_pow 2 (attempt - 1); Some (_base_delay h * x)%Q
  | FIBONACCI =>
      x ← float_pow (1618 # 1000) attempt; Some (_base_delay h * x)%Q
  end.

(** Lines 97-104 of [_calculate_delay]: the clamp to [max_delay], the jitter
    and the final [max(0, delay)]. *)
Definition clamp_and_jitter (h : t) (delay r : Q) : Q :=
  let delay := Qmin delay (_max_delay h) in
  let jitter_amount := (delay * _jitter h)%Q in
  let delay := (delay + uniform (- jitter_amount) jitter_amount r)%Q in
  Qmax 0 delay.

(** [_calculate_delay], lines 75-104; [r] is the value [random.random()]
    gives inside [random.uniform].  [None]: the call raises
    [OverflowError]. *)
Definition _calculate_delay (h : t) (attempt : Z) (r : Q) : option Q :=
  delay ← strategy_delay h attempt; Some (clamp_and_jitter h delay r).

(** The three errors [retry] raises itself. *)
Definition circuit_is_open : raised E :=
  RetryHandlerError "Circuit is open. Requests are currently blocked."
                    ErrorSeverity.WARNING [].

Definition circuit_opened (failure_count : Z) (e : E) : raised E :=
  RetryHandlerError
    ("Circuit breaker opened after " ++ show_Z failure_count
       ++ " consecutive failures")%string
    ErrorSeverity.CRITICAL [("last_error"%string, str e)].

Definition failed_after (max_retries : Z) (e : E) : raised E :=
  RetryHandlerError
    ("Failed after " ++ show_Z max_retries ++ " attempts")%string
    ErrorSeverity.ERROR [("last_error"%string, str e)].

Variable ev : env V E.

(** Lines 124-132: the circuit breaker check at the start of [retry].
    [inl x] leaves [retry] raising [x]; [inr h'] goes on to the loop. *)
Definition check_circuit (h : t) (w : world) : (raised E + t) * world :=
  match _circuit_state h with
  | OPEN =>
      let '(now, w1) := time_time ev w in
      match _last_failure_time h with
      | None => (inl TypeError, w1)
      | Some last =>
          if Qle_bool (_circuit_reset_timeout h) (now - last)
          then (inr (set_circuit_state HALF_OPEN h), w1)
          else (inl circuit_is_open, w1)
      end
  | _ => (inr h, w)
  end.

(** One pass through the body of the [for] loop, lines 135-182.
    [None] means the loop goes on to the next attempt; [Some r] means
    [retry] is left with [r]. *)
Definition retry_attempt (attempt : Z) (h : t) (w : world)
  : option (result (option V) E) * t * world :=
  let '(o, w1) := invoke ev w in
  match o with
  | Returns v =>
      let h1 := if CircuitState_eqb (_circuit_state h) HALF_OPEN
                then set_circuit_state CLOSED h else h in
      let h2 := set_failure_count 0 h1 in
      (Some (Ok (Some v)), h2, w1)
  | Raises e =>
      if _retry_on h e then
        let h1 := set_failure_count (_failure_count h + 1) h in
        if _circuit_failure_threshold h1 <=? _failure_count h1 then
          let h2 := set_circuit_state OPEN h1 in
          let '(now, w2) := time_time ev w1 in
          let h3 := set_last_failure_time (Some now) h2 in
          (Some (Err (circuit_opened (_failure_count h3) e)), h3, w2)
        else if attempt =? _max_retries h1 then
          (Some (Err (failed_after (_max_retries h1) e)), h1, w1)
        else
          let '(r, w2) := random_random ev w1 in
          match _calculate_delay h1 attempt r with
          | None =>
              (* line 173 raises before [random.uniform] is reached; the
                 error leaves the [except] block and the loop *)
              (Some (Err OverflowError), h1, w1)
          | Some delay =>
              let w3 := emit (LogRetry attempt (str e) delay) w2 in
              let w4 := emit (Sleep delay) w3 in
              (None, h1, w4)
          end
      else
        (Some (Err (Propagated e)), h, w1)
  end.

(** [for attempt in range(1, self._max_retries + 1)]; falling off the end
    of the loop is Python's implicit [return None], here [Ok None]. *)
Fixpoint retry_loop (attempts : list Z) (h : t) (w : world)
  : result (option V) E * t * world :=
  match attempts with
  | [] => (Ok None, h, w)
  | attempt :: rest =>
      match retry_attempt attempt h w with
      | (Some r, h1, w1) => (r, h1, w1)
      | (None, h1, w1) => retry_loop rest h1 w1
      end
  end.

(** [RetryHandler.retry], lines 106-182. *)
Definition retry (h : t) (w : world) : result (option V) E * t * world :=
  match check_circuit h w with
  | (inl x, w1) => (Err x, h, w1)
  | (inr h1, w1) => retry_loop (range 1 (_max_retries h1 + 1)) h1 w1
  end.

End WithTypes.

Arguments RetryOnNone {E}.
Arguments RetryOnClass {E} cls.
Arguments RetryOnTuple {E} classes.
Arguments mk {E}.
Arguments _max_retries {E}.
Arguments _base_delay {E}.
Arguments _max_delay {E}.
Arguments _backoff_strategy {E}.
Arguments _jitter {E}.
Arguments _circuit_failure_threshold {E}.
Arguments _circuit_reset_timeout {E}.
Arguments _retry_on {E}.
Arguments _failure_count {E}.
Arguments _circuit_state {E}.
Arguments _last_failure_time {E}.

(** The handlers a program can come to hold: a freshly constructed one, and
    whatever a call of [retry] leaves, for any operation, clock and world. *)
Inductive reachable {V E : Type} (str : E -> string) (is_Exception : E -> bool)
  : @t E -> Prop :=
| reachable_init max_retries base_delay max_delay backoff_strategy jitter
    circuit_failure_threshold circuit_reset_timeout retry_on :
    reachable str is_Exception
      (__init__ is_Exception max_retries base_delay max_delay backoff_strategy
         jitter circuit_failure_threshold circuit_reset_timeout retry_on)
| reachable_retry (ev : env V E) (h : t) (w : world) :
    reachable str is_Exception h ->
    reachable str is_Exception (retry str ev h w).1.2.

(** What the specification requires of an open circuit. *)
Definition open_ok {E : Type} (h : @t E) : Prop :=
  _circuit_state h = OPEN ->
  is_Some (_last_failure_time h)
  /\ _circuit_failure_threshold h <= _failure_count h.

(** The configuration of a handler: everything but the three circuit
    attributes. *)
Definition same_config {E : Type} (h h' : @t E) : Prop :=
  _max_retries h' = _max_retries h
  /\ _base_delay h' = _base_delay h
  /\ _max_delay h' = _max_delay h
  /\ _backoff_strategy h' = _backoff_strategy h
  /\ _jitter h' = _jitter h
  /\ _circuit_failure_threshold h' = _circuit_failure_threshold h
  /\ _circuit_reset_timeout h' = _circuit_reset_timeout h
  /\ _retry_on h' = _retry_on h.

(** The attempt numbers for which lines 85-95 stay within the range of a
    float, [self._base_delay] being one: CONSTANT computes nothing; LINEAR
    converts [attempt] itself;
    EXPONENTIAL converts [2 ** (attempt - 1)], which fits up to [2 ** 1023];
    FIBONACCI computes [1.618 ** attempt], which fits up to attempt 1475.
    [strategy_delay_in_range] and [strategy_delay_out_of_range] below show
    that, from attempt 1 on, these are exactly the attempts for which
    [_calculate_delay] returns. *)
Definition attempt_in_float_range (strategy : RetryStrategy) (attempt : Z)
  : Prop :=
  match strategy with
  | CONSTANT => True
  | LINEAR => attempt < 2 ^ 1024 - 2 ^ 970
  | EXPONENTIAL => attempt <= 1024
  | FIBONACCI => attempt <= 1475
  end.

(** Lines 203-206 of [decorator]: the handler each call of a decorated
    function builds.  [x or y] takes [y] when [x] is [None] or 0; the other
    parameters of [__init__] take their defaults. *)
Definition temp_handler {E : Type} (is_Exception : E -> bool) (self : @t E)
    (max_retries : option Z) (backoff_strategy : option RetryStrategy) : t :=
  __init__ is_Exception
    (match max_retries with
     | Some m => if m =? 0 then _max_retries self else m
     | None => _max_retries self
     end)
    1 60
    (match backoff_strategy with
     | Some b => b
     | None => _backoff_strategy self
     end)
    (1 # 10) 5 30 None.

(** [decorator], lines 184-214: one call of the decorated function.  The
    temporary handler is dropped when the call ends; [self] is only read. *)
Definition decorator {V E : Type} (str : E -> string) (is_Exception : E -> bool)
    (max_retries : option Z) (backoff_strategy : option RetryStrategy)
    (ev : env V E) (self : t) (w : world)
  : result (option V) E * t * world :=
  let '(r, _, w1) :=
    retry str ev (temp_handler is_Exception self max_retries backoff_strategy) w
  in (r, self, w1).

End RetryHandler.

(** ** core/failover_strategy.py *)

Module FailoverStrategy.

(** The string constants of the nested class [CircuitBreakerState]. *)
Module CircuitBreakerState.
Definition CLOSED : string := "closed".
Definition OPEN : string := "open".
Definition HALF_OPEN : string := "half-open".
End CircuitBreakerState.
Import CircuitBreakerState.

(** What [get_circuit_status] returns. *)
Record status : Type := mkStatus {
  state : string;
  status_failures : Z;
  status_last_failure_time : option Q
}.

Section WithTypes.
Context {V E : Type}.
Variable str : E -> string.
Variable is_Exception : E -> bool.

(** The attributes of a [FailoverStrategy] object: the configuration and
    the four dictionaries keyed by function name. *)
Record t : Type := mk {
  max_failures : Z;
  reset_timeout : Q;
  backoff_strategy : string;
  failures : gmap string Z;
  last_failure_time : gmap string Q;
  circuit_state : gmap string string;
  fallback_handlers : gmap string (nat -> outcome V E)
}.

Definition __init__ (max_failures : Z) (reset_timeout : Q)
    (backoff_strategy : string) : t :=
  mk max_failures reset_timeout backoff_strategy ∅ ∅ ∅ ∅.

Definition set_failures (m : gmap string Z) (s : t) : t :=
  mk (max_failures s) (reset_timeout s) (backoff_strategy s) m
     (last_failure_time s) (circuit_state s) (fallback_handlers s).

Definition set_last_failure_time (m : gmap string Q) (s : t) : t :=
  mk (max_failures s) (reset_timeout s) (backoff_strategy s) (failures s)
     m (circuit_state s) (fallback_handlers s).

Definition set_circuit_state (m : gmap string string) (s : t) : t :=
  mk (max_failures s) (reset_timeout s) (backoff_strategy s) (failures s)
     (last_failure_time s) m (fallback_handlers s).

Definition set_fallback_handlers (m : gmap string (nat -> outcome V E))
    (s : t) : t :=
  mk (max_failures s) (reset_timeout s) (backoff_strategy s) (failures s)
     (last_failure_time s) (circuit_state s) m.

(** [_calculate_backoff], lines 46-63 (never called by [decorator]). *)
Definition _calculate_backoff (s : t) (attempt : Z) (r : Q) : Q :=
  if String.eqb (backoff_strategy s) "exponential" then
    let base_delay := Qmin (reset_timeout s) (Qpower 2 attempt) in
    let jitter := uniform 0 ((1 # 10) * base_delay) r in
    (base_delay + jitter)%Q
  else if String.eqb (backoff_strategy s) "linear" then
    Qmin (reset_timeout s) (inject_Z (attempt * 5))
  else
    reset_timeout s.

(** [register_fallback], lines 65-72. *)
Definition register_fallback (func_name : string)
    (fallback_handler : nat -> outcome V E) (s : t) : t :=
  set_fallback_handlers (<[func_name := fallback_handler]> (fallback_handlers s)) s.

(** Lines 87-89: create the entry of a key on its first call. *)
Definition init_key (key : string) (s : t) : t :=
  match circuit_state s !! key with
  | Some _ => s
  | None =>
      set_failures (<[key := 0]> (failures s))
        (set_circuit_state (<[key := CLOSED]> (circuit_state s)) s)
  end.

(** [self.circuit_state[key] == st].  [wrapper] evaluates it only after
    [init_key], where the key is present. *)
Definition state_is (key st : string) (s : t) : bool :=
  match circuit_state s !! key with
  | Some x => String.eqb x st
  | None => false
  end.

Definition put_state (key st : string) (s : t) : t :=
  set_circuit_state (<[key := st]> (circuit_state s)) s.

Definition result_of (o : outcome V E) : result V E :=
  match o with
  | Returns v => Ok v
  | Raises e => Err (Propagated e)
  end.

Variable ev : env V E.

(** Lines 120-130, the bookkeeping of the [except Exception] handler for
    a key whose failure counter reads [n]: count the failure, stamp it
    with the time read at the start of the call, open the circuit when
    the threshold is reached. *)
Definition record_failure (key : string) (current_time : Q) (n : Z) (e : E)
    (s : t) (w : world) : t * world :=
  let s1 := set_failures (<[key := n + 1]> (failures s)) s in
  let s2 := set_last_failure_time
              (<[key := current_time]> (last_failure_time s1)) s1 in
  let w2 := emit (LogError ("Failure in " ++ key ++ ": " ++ str e)) w in
  if max_failures s2 <=? n + 1
  then (put_state key OPEN s2,
        emit (LogWarning ("Circuit breaker opened for " ++ key)) w2)
  else (s2, w2).

(** Lines 107-140: the [try] block around the call of [func] and its
    [except Exception] handler. *)
Definition attempt (key : string) (current_time : Q) (s : t) (w : world)
  : result V E * t * world :=
  let '(o, w1) := invoke ev w in
  match o with
  | Returns v =>
      let s1 := if state_is key HALF_OPEN s
                then put_state key CLOSED s else s in
      let s2 := set_failures (<[key := 0]> (failures s1)) s1 in
      (Ok v, s2, w1)
  | Raises e =>
      if is_Exception e then
        match failures s !! key with
        | None => (Err (KeyError key), s, w1)   (* self.failures[key] += 1 *)
        | Some n =>
            let '(s3, w3) := record_failure key current_time n e s w1 in
            match fallback_handlers s3 !! key with
            | Some fb =>
                let '(o2, w4) := call_fallback fb w3 in
                match o2 with
                | Returns v => (Ok v, s3, w4)
                | Raises e2 =>
                    if is_Exception e2 then
                      (* logged, then the bare [raise] re-raises [e] *)
                      (Err (Propagated e), s3,
                       emit (LogError ("Fallback failed for " ++ key ++ ": "
                                         ++ str e2)) w4)
                    else (Err (Propagated e2), s3, w4)
                end
            | None => (Err (Propagated e), s3, w3)
            end
        end
      else (Err (Propagated e), s, w1)
  end.

(** [wrapper], lines 82-140, for the function whose [__name__] is [key]. *)
Definition wrapper (key : string) (s : t) (w : world)
  : result V E * t * world :=
  let s0 := init_key key s in
  let '(current_time, w1) := time_time ev w in
  if state_is key OPEN s0 then
    if Qltb (current_time - default 0%Q (last_failure_time s0 !! key))
            (reset_timeout s0)
    then
      match fallback_handlers s0 !! key with
      | Some fb =>
          let w2 := emit (LogWarning ("Circuit open for " ++ key
                                        ++ ", using fallback")) w1 in
          let '(o, w3) := call_fallback fb w2 in
          (result_of o, s0, w3)
      | None =>
          (Err (RuntimeError ("Circuit breaker open for " ++ key)), s0, w1)
      end
    else attempt key current_time (put_state key HALF_OPEN s0) w1
  else attempt key current_time s0 w1.

(** [reset_circuit], lines 144-157; [if key:] is false for [None] and for
    the empty string. *)
Definition reset_circuit (key : option string) (s : t) : t :=
  match key with
  | Some k =>
      if String.eqb k "" then
        set_last_failure_time ∅ (set_failures ∅ (set_circuit_state ∅ s))
      else
        set_failures (<[k := 0]> (failures s)) (put_state k CLOSED s)
  | None =>
      set_last_failure_time ∅ (set_failures ∅ (set_circuit_state ∅ s))
  end.

(** [get_circuit_status], lines 159-170. *)
Definition get_circuit_status (key : string) (s : t) : status :=
  mkStatus (default CLOSED (circuit_state s !! key))
           (default 0 (failures s !! key))
           (last_failure_time s !! key).

End WithTypes.

(** The strategies a program can come to hold: a freshly constructed one,
    and whatever calls of wrapped functions, fallback registrations and
    resets leave. *)
Inductive reachable {V E : Type} (str : E -> string) (is_Exception : E -> bool)
  : @t V E -> Prop :=
| reachable_init max_failures reset_timeout backoff_strategy :
    reachable str is_Exception
      (__init__ max_failures reset_timeout backoff_strategy)
| reachable_call (ev : env V E) (key : string) (s : t) (w : world) :
    reachable str is_Exception s ->
    reachable str is_Exception (wrapper str is_Exception ev key s w).1.2
| reachable_register (func_name : string) (fb : nat -> outcome V E) (s : t) :
    reachable str is_Exception s ->
    reachable str is_Exception (register_fallback func_name fb s)
| reachable_reset (key : option string) (s : t) :
    reachable str is_Exception s ->
    reachable str is_Exception (reset_circuit key s).

(** What the specification requires of the circuit of [key] when it is
    open, on the dictionaries. *)
Definition open_ok {V E : Type} (s : @t V E) (key : string) : Prop :=
  circuit_state s !! key = Some CircuitBreakerState.OPEN ->
  is_Some (last_failure_time s !! key)
  /\ exists n, failures s !! key = Some n /\ max_failures s <= n.

(** The entries of [key] are consistent: a key with a circuit state has one
    of the three constants as state and a failure counter that is not
    negative; a key without a circuit state has no other entry either. *)
Definition key_ok {V E : Type} (s : @t V E) (key : string) : Prop :=
  match circuit_state s !! key with
  | Some st =>
      (st = CircuitBreakerState.CLOSED \/ st = CircuitBreakerState.OPEN
       \/ st = CircuitBreakerState.HALF_OPEN)
      /\ exists n, failures s !! key = Some n /\ 0 <= n
  | None => failures s !! key = None /\ last_failure_time s !! key = None
  end.

End FailoverStrategy.

(** ** core/error_handler.py, class [ErrorHandler] *)

Module ErrorHandler.

Section WithTypes.
Context {V E : Type}.
Variable is_Exception : E -> bool.
Variable ev : env V E.

(** The [while] loop of the wrapper [retry_with_backoff] builds, lines
    198-220, for a function named [func_name].  [retries] and [delay] are the
    loop's variables.  Each pass that goes round again has raised [retries],
    so [fuel] passes suffice when [fuel] is at least
    [max_retries - retries]; leaving the loop is Python's implicit
    [return None], here [Ok None].  [time.sleep(delay)] is called inside the
    [except] block: what it raises leaves the wrapper. *)
Fixpoint retry_loop (func_name : string) (max_retries : Z)
    (backoff_factor : Q) (fuel : nat) (retries : Z) (delay : Q) (w : world)
  : result (option V) E * world :=
  match fuel with
  | O => (Ok None, w)
  | S fuel' =>
      if retries <? max_retries then
        let '(o, w1) := invoke ev w in
        match o with
        | Returns v => (Ok (Some v), w1)
        | Raises e =>
            if is_Exception e then
              let retries := retries + 1 in
              let w2 := emit (LogWarning ("Retry attempt " ++ show_Z retries
                                            ++ " for " ++ func_name)) w1 in
              if max_retries <=? retries then (Err (Propagated e), w2)
              else
                match time_sleep_error delay with
                | Some x => (Err x, w2)
                | None =>
                    let w3 := emit (Sleep delay) w2 in
                    retry_loop func_name max_retries backoff_factor fuel'
                      retries (delay * backoff_factor)%Q w3
                end
            else (Err (Propagated e), w1)
        end
      else (Ok None, w)
  end.

(** [retry_with_backoff], lines 174-222: one call of the wrapped function. *)
Definition retry_with_backoff (func_name : string) (max_retries : Z)
    (base_delay backoff_factor : Q) (w : world)
  : result (option V) E * world :=
  retry_loop func_name max_retries backoff_factor (Z.to_nat max_retries)
    0 base_delay w.

End WithTypes.

End ErrorHandler.

(** ** Concrete instances used to exercise the statements *)

Module Examples.
(** Exceptions are identified by their class name; [KeyboardInterrupt] is
    the one below that does not derive from [Exception]. *)
Definition str (e : string) : string := e.
Definition is_Exception (e : string) : bool :=
  negb (String.eqb e "KeyboardInterrupt").

(** The clock advances one second per reading, starting at 1000. *)
Definition clock (n : nat) : Q := inject_Z (1000 + Z.of_nat n).

Definition always_fails : env Z string :=
  mkEnv (fun _ => Raises "ConnectionError"%string) clock (fun _ => 0%Q).
Definition always_succeeds : env Z string :=
  mkEnv (fun _ => Returns 42) clock (fun _ => 0%Q).
Definition raises_ValueError : env Z string :=
  mkEnv (fun _ => Raises "ValueError"%string) clock (fun _ => 0%Q).


(** The same operations an hour later, when every reset timeout below has
    elapsed. *)
Definition late_clock (n : nat) : Q := inject_Z (4600 + Z.of_nat n).
Definition probe_fails : env Z string :=
  mkEnv (fun _ => Raises "ConnectionError"%string) late_clock (fun _ => 0%Q).
Definition probe_succeeds : env Z string :=
  mkEnv (fun _ => Returns 42) late_clock (fun _ => 0%Q).

Definition fallback_ok : nat -> outcome Z string := fun _ => Returns 7.
Definition fallback_fails : nat -> outcome Z string :=
  fun _ => Raises "FallbackError"%string.

(** Fresh objects. *)
Definition fresh (max_retries circuit_failure_threshold : Z)
    (retry_on : option (string -> bool)) : RetryHandler.t :=
  RetryHandler.__init__ is_Exception max_retries 1 60
    RetryHandler.EXPONENTIAL 0 circuit_failure_threshold 30 retry_on.

Definition fresh_strategy : @FailoverStrategy.t Z string :=
  FailoverStrategy.__init__ 3 60 "exponential".

(** A handler whose circuit tripped at time 1000. *)
Definition tripped (max_retries : Z) : RetryHandler.t :=
  RetryHandler.mk max_retries 1 60 RetryHandler.EXPONENTIAL 0 3 30
    is_Exception 3 RetryHandler.OPEN (Some (inject_Z 1000)).

(** A strategy whose circuit for ["f"] tripped at time 1000. *)
Definition tripped_strategy
    (fbs : gmap string (nat -> outcome Z string)) : FailoverStrategy.t :=
  FailoverStrategy.mk 3 60 "exponential"
    {[ "f"%string := 3 ]} {[ "f"%string := inject_Z 1000 ]}
    {[ "f"%string := FailoverStrategy.CircuitBreakerState.OPEN ]} fbs.
(** An operation that fails twice and then succeeds, and the handler of
    the specification's scenario: three attempts, threshold five, exponential
    backoff from 1 to 10 without jitter. *)
Definition fails_twice : env Z string :=
  mkEnv (fun n => if (n <? 2)%nat then Raises "ConnectionError"%string
                  else Returns 42)
        clock (fun _ => 0%Q).

Definition scenario_handler : RetryHandler.t :=
  RetryHandler.__init__ is_Exception 3 1 10 RetryHandler.EXPONENTIAL 0 5 30
    None.

(** A handler with more attempts than exponential delays fit a float:
    [RetryHandler(max_retries=1100, circuit_failure_threshold=2000)], the
    other parameters at their defaults. *)
Definition long_retry_handler : RetryHandler.t :=
  RetryHandler.__init__ is_Exception 1100 1 60 RetryHandler.EXPONENTIAL
    (1 # 10) 2000 30 None.

(** The handler [adapters/github_integration.py] builds, line 393. *)
Definition github_retry_handler : RetryHandler.t :=
  RetryHandler.__init__ is_Exception 3 1 60 RetryHandler.EXPONENTIAL (1 # 10)
    5 30 None.
End Examples.

(** ** Sentences of the specification, as written there

    They are compared with the code below; none is assumed anywhere. *)

(** "Fallback failure: propagated to the caller unmodified": whenever a call
    invokes the fallback registered for the key and the fallback raises, the
    call raises that very exception. *)
Definition fallback_failure_propagates_unmodified {V E : Type}
    (str : E -> string) (is_Exception : E -> bool) : Prop :=
  forall (ev : env V E) (s : FailoverStrategy.t) (key : string) (w : world)
         (fb : nat -> outcome V E) (e2 : E),
    FailoverStrategy.fallback_handlers s !! key = Some fb ->
    fb (fb_calls w) = Raises e2 ->
    let run := FailoverStrategy.wrapper str is_Exception ev key s w in
    fb_calls run.2 = S (fb_calls w) ->
    run.1.1 = Err (Propagated e2).

(** The context dictionary of an error has an entry for [k]. *)
Definition context_has {E : Type} (k : string) (x : raised E) : Prop :=
  match x with
  | RetryHandlerError _ _ context => exists v, In (k, v) context
  | _ => False
  end.

(** "RetryExhaustedError carrying the last error and attempt count":
    with three attempts and a threshold of five, an operation that always
    raises a retryable error makes [retry] raise an error whose context holds
    both the last error and the number of attempts. *)
Definition exhausted_error_carries_attempt_count {V E : Type}
    (str : E -> string) : Prop :=
  forall (ev : env V E) (h : RetryHandler.t) (w : world) (e : E),
    (forall n, op ev n = Raises e) ->
    RetryHandler._retry_on h e = true ->
    RetryHandler._max_retries h = 3 ->
    RetryHandler._circuit_failure_threshold h = 5 ->
    RetryHandler._failure_count h = 0 ->
    RetryHandler._circuit_state h = RetryHandler.CLOSED ->
    exists x, (RetryHandler.retry str ev h w).1.1 = Err x
              /\ context_has "last_error" x /\ context_has "attempts" x.

(** Section 4.1, the Backoff Calculator, in the specification's words: the
    formula of the strategy, clamped to [max_delay], plus a jitter term
    between minus and plus [jitter_fraction] times the clamped delay, floored
    at 0.  [r] is the random draw in [0,1) that places the jitter term in its
    interval. *)
Definition spec_strategy_delay (strategy : RetryHandler.RetryStrategy)
    (base_delay : Q) (attempt : Z) : Q :=
  match strategy with
  | RetryHandler.CONSTANT => base_delay
  | RetryHandler.LINEAR => base_delay * inject_Z attempt
  | RetryHandler.EXPONENTIAL => base_delay * 2 ^ (attempt - 1)
  | RetryHandler.FIBONACCI => base_delay * (1618 # 1000) ^ attempt
  end%Q.

Definition spec_clamped_delay (strategy : RetryHandler.RetryStrategy)
    (base_delay max_delay : Q) (attempt : Z) : Q :=
  Qmin (spec_strategy_delay strategy base_delay attempt) max_delay.

Definition spec_jitter_term (jitter_fraction delay r : Q) : Q :=
  uniform (- (jitter_fraction * delay)) (jitter_fraction * delay) r.

Definition spec_backoff_delay (strategy : RetryHandler.RetryStrategy)
    (base_delay max_delay jitter_fraction : Q) (attempt : Z) (r : Q) : Q :=
  let delay := spec_clamped_delay strategy base_delay max_delay attempt in
  Qmax 0 (delay + spec_jitter_term jitter_fraction delay r).

(** "For every attempt >= 1, the backoff delay is computed as ...", read on
    the first function the sentence is about: [RetryHandler._calculate_delay]
    returns the delay of the formula at every attempt from 1 on. *)
Definition calculate_delay_follows_backoff_formula {E : Type} : Prop :=
  forall (h : @RetryHandler.t E) (attempt : Z) (r : Q),
    1 <= attempt ->
    exists delay,
      RetryHandler._calculate_delay h attempt r = Some delay
      /\ (delay
          == spec_backoff_delay (RetryHandler._backoff_strategy h)
               (RetryHandler._base_delay h) (RetryHandler._max_delay h)
               (RetryHandler._jitter h) attempt r)%Q.

(** The same sentence read on the second function it is about,
    [FailoverStrategy._calculate_backoff] under its strategy "exponential".
    A [FailoverStrategy] has neither a base delay nor a jitter fraction, so
    any will do; its clamp is [reset_timeout]. *)
Definition calculate_backoff_follows_backoff_formula {V E : Type} : Prop :=
  forall s : @FailoverStrategy.t V E,
    FailoverStrategy.backoff_strategy s = "exponential"%string ->
    exists base_delay jitter_fraction : Q,
      forall (attempt : Z) (r : Q),
        1 <= attempt -> (0 <= r)%Q -> (r < 1)%Q ->
        (FailoverStrategy._calculate_backoff s attempt r
         == spec_backoff_delay RetryHandler.EXPONENTIAL base_delay
              (FailoverStrategy.reset_timeout s) jitter_fraction attempt r)%Q.

(** ** Auxiliary facts *)

Lemma Qle_bool_false (x y : Q) : (y < x)%Q -> Qle_bool x y = false.
Proof.
  intros Hlt. destruct (Qle_bool x y) eqn:Hb; [|reflexivity].
  apply Qle_bool_iff in Hb. exfalso. exact (Qlt_not_le _ _ Hlt Hb).
Qed.

Lemma Qltb_true (x y : Q) : (x < y)%Q -> Qltb x y = true.
Proof. intros Hlt. unfold Qltb. now rewrite Qle_bool_false. Qed.

Lemma Qltb_false (x y : Q) : (y <= x)%Q -> Qltb x y = false.
Proof.
  intros Hle. unfold Qltb. apply Qle_bool_iff in Hle. now rewrite Hle.
Qed.

Lemma range_nil (lo hi : Z) : hi <= lo -> range lo hi = [].
Proof.
  intros Hle. unfold range.
  replace (Z.to_nat (hi - lo)) with 0%nat by lia. reflexivity.
Qed.

Lemma range_cons (lo hi : Z) : lo < hi -> range lo hi = lo :: range (lo + 1) hi.
Proof.
  intros Hlt. unfold range.
  replace (Z.to_nat (hi - lo)) with (S (Z.to_nat (hi - (lo + 1)))) by lia.
  cbn [seq map]. f_equal; [lia|].
  rewrite <- seq_shift, map_map. apply map_ext. intros i. lia.
Qed.

Lemma time_sleep_error_None {E : Type} (secs : Q) :
  @time_sleep_error E secs = None <-> sleepable secs.
Proof.
  unfold time_sleep_error, sleepable, Qltb. split.
  - destruct (Qle_bool (inject_Z (- 2 ^ 63)) (secs * inject_Z (10 ^ 9)));
      [|discriminate].
    destruct (Qle_bool (inject_Z (2 ^ 63)) (secs * inject_Z (10 ^ 9))) eqn:Hhi;
      [discriminate|].
    destruct (Qle_bool 0 secs) eqn:Hlo; [|discriminate].
    intros _. split; [now apply Qle_bool_iff|].
    apply Qnot_le_lt. intros Hle. apply Qle_bool_iff in Hle. congruence.
  - intros [Hlo Hhi].
    assert (H9 : (0 <= secs * inject_Z (10 ^ 9))%Q)
      by (apply Qmult_le_0_compat; [exact Hlo|discriminate]).
    replace (Qle_bool (inject_Z (- 2 ^ 63)) (secs * inject_Z (10 ^ 9)))
      with true
      by (symmetry; apply Qle_bool_iff;
          apply (Qle_trans _ 0); [discriminate|exact H9]).
    rewrite (Qle_bool_false _ _ Hhi).
    apply Qle_bool_iff in Hlo. now rewrite Hlo.
Qed.

(** *** The range of a float *)

Lemma float_overflows_false (x : Q) :
  (0 <= x)%Q -> (x < float_limit)%Q -> float_overflows x = false.
Proof.
  intros H0 Hlt. unfold float_overflows. apply Qle_bool_false.
  now rewrite Qabs_pos.
Qed.

Lemma float_overflows_true (x : Q) :
  (float_limit <= x)%Q -> float_overflows x = true.
Proof.
  intros Hle. unfold float_overflows. apply Qle_bool_iff.
  eapply Qle_trans; [exact Hle|]. apply Qle_Qabs.
Qed.

Lemma int_to_float_in_range (n : Z) :
  0 <= n < 2 ^ 1024 - 2 ^ 970 -> int_to_float n = Some (inject_Z n).
Proof.
  intros [H0 Hlt]. unfold int_to_float. rewrite float_overflows_false; auto.
  - change 0%Q with (inject_Z 0). now rewrite <- Zle_Qle.
  - unfold float_limit. now rewrite <- Zlt_Qlt.
Qed.

Lemma int_to_float_overflow (n : Z) :
  2 ^ 1024 - 2 ^ 970 <= n -> int_to_float n = None.
Proof.
  intros Hle. unfold int_to_float. rewrite float_overflows_true; auto.
  unfold float_limit. now rewrite <- Zle_Qle.
Qed.

(** Powers of a base from 1 on grow with the exponent, and powers to the
    same exponent grow with the base. *)
Lemma Qpower_mono (x : Q) (m n : Z) :
  (1 <= x)%Q -> 0 <= m <= n -> (x ^ m <= x ^ n)%Q.
Proof. intros Hx [Hm Hmn]. now apply Qpower_le_compat_l. Qed.

Lemma Qpower_base_mono (x y : Q) (n : Z) :
  (0 <= x)%Q -> (x <= y)%Q -> 0 <= n -> (x ^ n <= y ^ n)%Q.
Proof.
  intros Hx Hxy Hn. rewrite <- (Z2Nat.id n Hn).
  induction (Z.to_nat n) as [|k IH]; [apply Qle_refl|].
  rewrite Nat2Z.inj_succ. unfold Z.succ.
  rewrite !Qpower_plus' by lia.
  change (x ^ 1)%Q with x. change (y ^ 1)%Q with y.
  assert (Hy : (0 <= y)%Q) by (eapply Qle_trans; eauto).
  pose proof (Qpower_0_le x (Z.of_nat k) Hx).
  pose proof (Qpower_0_le y (Z.of_nat k) Hy).
  nra.
Qed.

Lemma float_pow_in_range (x : Q) (n top : Z) :
  (1 <= x)%Q -> 0 <= n <= top -> top < 2 ^ 1024 - 2 ^ 970 ->
  (x ^ top < float_limit)%Q ->
  float_pow x n = Some (x ^ n)%Q.
Proof.
  intros Hx Hn Htop Hlt. unfold float_pow.
  assert (Hpos : (0 < x)%Q) by (eapply Qlt_le_trans; [|exact Hx]; reflexivity).
  rewrite (float_overflows_false (inject_Z n)).
  - rewrite (float_overflows_false (x ^ n)); [reflexivity| |].
    + apply Qpower_0_le, Qlt_le_weak, Hpos.
    + eapply Qle_lt_trans; [|exact Hlt]. apply Qpower_mono; [exact Hx | lia].
  - change 0%Q with (inject_Z 0). rewrite <- Zle_Qle. lia.
  - unfold float_limit. rewrite <- Zlt_Qlt. lia.
Qed.

Lemma float_pow_overflow (x : Q) (n bot : Z) :
  (1 <= x)%Q -> 0 <= bot <= n -> (float_limit <= x ^ bot)%Q ->
  float_pow x n = None.
Proof.
  intros Hx Hn Hle. unfold float_pow.
  rewrite (float_overflows_true (x ^ n)).
  - now rewrite orb_true_r.
  - eapply Qle_trans; [exact Hle|]. apply Qpower_mono; [exact Hx | lia].
Qed.

(** [2 ** 1023] is the last power of two that fits, [1.618 ** 1475] the
    last power of 1.618.  The latter two are bounded through
    [1.618 ** 121 <= 2 ** 84] and [2 ** 34 <= 1.618 ** 49]. *)
Lemma pow2_1023_in_range : (2 ^ 1023 < float_limit)%Q.
Proof. vm_compute. reflexivity. Qed.

Lemma pow2_1024_overflows : (float_limit <= 2 ^ 1024)%Q.
Proof. vm_compute. discriminate. Qed.

Lemma phi_1475_in_range : ((1618 # 1000) ^ 1475 < float_limit)%Q.
Proof.
  assert (Hk : ((1618 # 1000) ^ 121 <= 2 ^ 84)%Q) by (vm_compute; discriminate).
  change 1475 with (121 * 12 + 23).
  rewrite Qpower_plus by discriminate.
  rewrite Qpower_mult.
  apply (Qle_lt_trans _ ((2 ^ 84) ^ 12 * (1618 # 1000) ^ 23)%Q).
  - apply Qmult_le_compat_r; [|vm_compute; discriminate].
    apply Qpower_base_mono; [vm_compute; discriminate | exact Hk | lia].
  - vm_compute. reflexivity.
Qed.

Lemma phi_1476_overflows : (float_limit <= (1618 # 1000) ^ 1476)%Q.
Proof.
  assert (Hk : (2 ^ 34 <= (1618 # 1000) ^ 49)%Q) by (vm_compute; discriminate).
  change 1476 with (49 * 30 + 6).
  rewrite Qpower_plus by discriminate.
  rewrite Qpower_mult.
  apply (Qle_trans _ ((2 ^ 34) ^ 30 * (1618 # 1000) ^ 6)%Q).
  - vm_compute. discriminate.
  - apply Qmult_le_compat_r; [|vm_compute; discriminate].
    apply Qpower_base_mono; [vm_compute; discriminate | exact Hk | lia].
Qed.

Section RetryHandlerFacts.
Import RetryHandler.
Context {V E : Type}.
Variable str : E -> string.
Variable ev : env V E.
Implicit Types (h : @RetryHandler.t E) (w : world).

Lemma check_circuit_not_open h w :
  _circuit_state h <> OPEN -> check_circuit ev h w = (inr h, w).
Proof. unfold check_circuit. destruct (_circuit_state h); congruence. Qed.

Lemma check_circuit_blocked h w last :
  _circuit_state h = OPEN -> _last_failure_time h = Some last ->
  (time ev (clock_reads w) - last < _circuit_reset_timeout h)%Q ->
  check_circuit ev h w = (inl circuit_is_open, snd (time_time ev w)).
Proof.
  intros Hs Hl Hlt. unfold check_circuit. rewrite Hs, Hl. cbn.
  now rewrite Qle_bool_false.
Qed.

Lemma check_circuit_elapsed h w last :
  _circuit_state h = OPEN -> _last_failure_time h = Some last ->
  (_circuit_reset_timeout h <= time ev (clock_reads w) - last)%Q ->
  check_circuit ev h w
  = (inr (set_circuit_state HALF_OPEN h), snd (time_time ev w)).
Proof.
  intros Hs Hl Hle. unfold check_circuit. rewrite Hs, Hl. cbn.
  apply Qle_bool_iff in Hle. now rewrite Hle.
Qed.

(** The six ways one pass through the loop body can go. *)
Lemma retry_attempt_success attempt h w v :
  op ev (calls w) = Returns v ->
  retry_attempt str ev attempt h w
  = (Some (Ok (Some v)),
     set_failure_count 0
       (if CircuitState_eqb (_circuit_state h) HALF_OPEN
        then set_circuit_state CLOSED h else h),
     snd (invoke ev w)).
Proof. intros Ho. unfold retry_attempt. cbn. now rewrite Ho. Qed.

Lemma retry_attempt_not_retryable attempt h w e :
  op ev (calls w) = Raises e -> _retry_on h e = false ->
  retry_attempt str ev attempt h w
  = (Some (Err (Propagated e)), h, snd (invoke ev w)).
Proof. intros Ho Hr. unfold retry_attempt. cbn. now rewrite Ho, Hr. Qed.

Lemma retry_attempt_trip attempt h w e :
  op ev (calls w) = Raises e -> _retry_on h e = true ->
  _circuit_failure_threshold h <= _failure_count h + 1 ->
  retry_attempt str ev attempt h w
  = (Some (Err (circuit_opened str (_failure_count h + 1) e)),
     set_last_failure_time (Some (time ev (clock_reads w)))
       (set_circuit_state OPEN (set_failure_count (_failure_count h + 1) h)),
     snd (time_time ev (snd (invoke ev w)))).
Proof.
  intros Ho Hr Hth. unfold retry_attempt. cbn. rewrite Ho, Hr.
  apply Z.leb_le in Hth. now rewrite Hth.
Qed.

Lemma retry_attempt_exhausted attempt h w e :
  op ev (calls w) = Raises e -> _retry_on h e = true ->
  _failure_count h + 1 < _circuit_failure_threshold h ->
  attempt = _max_retries h ->
  retry_attempt str ev attempt h w
  = (Some (Err (failed_after str (_max_retries h) e)),
     set_failure_count (_failure_count h + 1) h,
     snd (invoke ev w)).
Proof.
  intros Ho Hr Hth Ha. unfold retry_attempt. cbn. rewrite Ho, Hr.
  apply Z.leb_gt in Hth. rewrite Hth.
  apply Z.eqb_eq in Ha. now rewrite Ha.
Qed.

(** From attempt 1 on, lines 85-95 return exactly for the attempts within
    the range of a float, and then give the formula of the strategy. *)
Lemma strategy_delay_in_range h attempt :
  1 <= attempt -> attempt_in_float_range (_backoff_strategy h) attempt ->
  strategy_delay h attempt
  = Some (spec_strategy_delay (_backoff_strategy h) (_base_delay h) attempt).
Proof.
  intros H1 Hin. unfold strategy_delay, spec_strategy_delay.
  destruct (_backoff_strategy h); cbn in Hin.
  - reflexivity.
  - rewrite int_to_float_in_range by lia. reflexivity.
  - rewrite (float_pow_in_range 2 (attempt - 1) 1023);
      [reflexivity | discriminate | lia | lia | exact pow2_1023_in_range].
  - rewrite (float_pow_in_range (1618 # 1000) attempt 1475);
      [reflexivity | discriminate | lia | lia | exact phi_1475_in_range].
Qed.

Lemma strategy_delay_out_of_range h attempt :
  1 <= attempt -> ~ attempt_in_float_range (_backoff_strategy h) attempt ->
  strategy_delay h attempt = None.
Proof.
  intros H1 Hout. unfold strategy_delay.
  destruct (_backoff_strategy h); cbn in Hout.
  - tauto.
  - rewrite int_to_float_overflow by lia. reflexivity.
  - rewrite (float_pow_overflow 2 (attempt - 1) 1024);
      [reflexivity | discriminate | lia | exact pow2_1024_overflows].
  - rewrite (float_pow_overflow (1618 # 1000) attempt 1476);
      [reflexivity | discriminate | lia | exact phi_1476_overflows].
Qed.

Lemma calculate_delay_in_range h attempt r :
  1 <= attempt -> attempt_in_float_range (_backoff_strategy h) attempt ->
  _calculate_delay h attempt r
  = Some (clamp_and_jitter h
            (spec_strategy_delay (_backoff_strategy h) (_base_delay h) attempt)
            r).
Proof.
  intros H1 Hin. unfold _calculate_delay.
  now rewrite strategy_delay_in_range.
Qed.

Lemma calculate_delay_out_of_range h attempt r :
  1 <= attempt -> ~ attempt_in_float_range (_backoff_strategy h) attempt ->
  _calculate_delay h attempt r = None.
Proof.
  intros H1 Hout. unfold _calculate_delay.
  now rewrite strategy_delay_out_of_range.
Qed.

(** The range only widens towards earlier attempts, and every strategy is
    within it up to attempt 1024. *)
Lemma attempt_in_float_range_earlier strategy (a b : Z) :
  a <= b -> attempt_in_float_range strategy b ->
  attempt_in_float_range strategy a.
Proof. intros Hab. destruct strategy; cbn; lia. Qed.

Lemma attempt_in_float_range_1024 strategy (a : Z) :
  a <= 1024 -> attempt_in_float_range strategy a.
Proof. intros Ha. destruct strategy; cbn; lia. Qed.

Lemma calculate_delay_returns h attempt r :
  1 <= attempt -> attempt_in_float_range (_backoff_strategy h) attempt ->
  exists delay, _calculate_delay h attempt r = Some delay.
Proof. intros H1 Hin. eexists. now apply calculate_delay_in_range. Qed.

(** The configuration is all [_calculate_delay] reads. *)
Lemma calculate_delay_set_failure_count n h attempt r :
  _calculate_delay (set_failure_count n h) attempt r
  = _calculate_delay h attempt r.
Proof. reflexivity. Qed.

Lemma RetryHandler_backoff_step attempt h w e delay :
  op ev (calls w) = Raises e -> _retry_on h e = true ->
  _failure_count h + 1 < _circuit_failure_threshold h ->
  attempt <> _max_retries h ->
  _calculate_delay h attempt (random ev (draws w)) = Some delay ->
  retry_attempt str ev attempt h w
  = (None, set_failure_count (_failure_count h + 1) h,
     emit (Sleep delay)
       (emit (LogRetry attempt (str e) delay)
          (snd (random_random ev (snd (invoke ev w)))))).
Proof.
  intros Ho Hr Hth Ha Hd. unfold retry_attempt. cbn. rewrite Ho, Hr.
  apply Z.leb_gt in Hth. rewrite Hth.
  apply Z.eqb_neq in Ha. rewrite Ha.
  rewrite calculate_delay_set_failure_count, Hd. reflexivity.
Qed.

(** When the delay of the attempt does not fit a float, [retry] is left
    with [OverflowError]: the failure is counted, nothing is drawn, logged
    or slept. *)
Lemma retry_attempt_overflow attempt h w e :
  op ev (calls w) = Raises e -> _retry_on h e = true ->
  _failure_count h + 1 < _circuit_failure_threshold h ->
  attempt <> _max_retries h ->
  _calculate_delay h attempt (random ev (draws w)) = None ->
  retry_attempt str ev attempt h w
  = (Some (Err OverflowError), set_failure_count (_failure_count h + 1) h,
     snd (invoke ev w)).
Proof.
  intros Ho Hr Hth Ha Hd. unfold retry_attempt. cbn. rewrite Ho, Hr.
  apply Z.leb_gt in Hth. rewrite Hth.
  apply Z.eqb_neq in Ha. rewrite Ha.
  rewrite calculate_delay_set_failure_count, Hd. reflexivity.
Qed.

Lemma retry_blocked h w last :
  _circuit_state h = OPEN -> _last_failure_time h = Some last ->
  (time ev (clock_reads w) - last < _circuit_reset_timeout h)%Q ->
  retry str ev h w = (Err circuit_is_open, h, snd (time_time ev w)).
Proof.
  intros Hs Hl Hlt. unfold retry.
  now rewrite (check_circuit_blocked h w last).
Qed.

End RetryHandlerFacts.

Section FailoverStrategyFacts.
Import FailoverStrategy FailoverStrategy.CircuitBreakerState.
Context {V E : Type}.
Variable str : E -> string.
Variable is_Exception : E -> bool.
Variable ev : env V E.
Implicit Types (s : @FailoverStrategy.t V E) (w : world) (key : string).

Lemma init_key_present s key st :
  circuit_state s !! key = Some st -> init_key key s = s.
Proof. intros Hs. unfold init_key. now rewrite Hs. Qed.

Lemma init_key_absent s key :
  circuit_state s !! key = None ->
  init_key key s
  = set_failures (<[key := 0]> (failures s))
      (set_circuit_state (<[key := CLOSED]> (circuit_state s)) s).
Proof. intros Hs. unfold init_key. now rewrite Hs. Qed.

Lemma state_is_Some s key st st' :
  circuit_state s !! key = Some st -> state_is key st' s = String.eqb st st'.
Proof. intros Hs. unfold state_is. now rewrite Hs. Qed.

(** A call while the circuit is open and the timeout has not elapsed. *)
Lemma wrapper_blocked s key w :
  circuit_state s !! key = Some OPEN ->
  (time ev (clock_reads w) - default 0%Q (last_failure_time s !! key)
     < reset_timeout s)%Q ->
  wrapper str is_Exception ev key s w
  = match fallback_handlers s !! key with
    | Some fb =>
        (result_of (fb (fb_calls w)), s,
         snd (call_fallback fb
                (emit (LogWarning ("Circuit open for " ++ key
                                     ++ ", using fallback"))
                   (snd (time_time ev w)))))
    | None =>
        (Err (RuntimeError ("Circuit breaker open for " ++ key)), s,
         snd (time_time ev w))
    end.
Proof.
  intros Hs Hlt. unfold wrapper.
  rewrite (init_key_present s key OPEN Hs). cbn [time_time].
  rewrite (state_is_Some s key OPEN OPEN Hs). cbn [String.eqb].
  rewrite String.eqb_refl, Qltb_true by exact Hlt.
  destruct (fallback_handlers s !! key); reflexivity.
Qed.

(** A call once the timeout has elapsed goes on to the probe. *)
Lemma wrapper_elapsed s key w :
  circuit_state s !! key = Some OPEN ->
  (reset_timeout s
     <= time ev (clock_reads w) - default 0%Q (last_failure_time s !! key))%Q ->
  wrapper str is_Exception ev key s w
  = attempt str is_Exception ev key (time ev (clock_reads w))
      (put_state key HALF_OPEN s) (snd (time_time ev w)).
Proof.
  intros Hs Hle. unfold wrapper.
  rewrite (init_key_present s key OPEN Hs). cbn [time_time].
  rewrite (state_is_Some s key OPEN OPEN Hs).
  rewrite String.eqb_refl, Qltb_false by exact Hle.
  reflexivity.
Qed.

(** A call while the circuit of an initialised key is not open. *)
Lemma wrapper_not_open s key w st :
  circuit_state s !! key = Some st -> st <> OPEN ->
  wrapper str is_Exception ev key s w
  = attempt str is_Exception ev key (time ev (clock_reads w)) s
      (snd (time_time ev w)).
Proof.
  intros Hs Hne. unfold wrapper.
  rewrite (init_key_present s key st Hs). cbn [time_time].
  rewrite (state_is_Some s key st OPEN Hs).
  apply String.eqb_neq in Hne. now rewrite Hne.
Qed.

(** The circuit-breaker data of a key, as the dictionaries hold it. *)
Lemma record_failure_key key ct n e s w :
  let s' := fst (record_failure str key ct n e s w) in
  failures s' !! key = Some (n + 1)
  /\ last_failure_time s' !! key = Some ct
  /\ circuit_state s' !! key
     = (if max_failures s <=? n + 1 then Some OPEN else circuit_state s !! key)
  /\ max_failures s' = max_failures s
  /\ reset_timeout s' = reset_timeout s
  /\ fallback_handlers s' = fallback_handlers s.
Proof.
  unfold record_failure. cbn.
  destruct (max_failures s <=? n + 1); cbn;
    rewrite ?lookup_insert_eq; repeat split; reflexivity.
Qed.

Lemma record_failure_other key k ct n e s w :
  k <> key ->
  let s' := fst (record_failure str key ct n e s w) in
  failures s' !! k = failures s !! k
  /\ last_failure_time s' !! k = last_failure_time s !! k
  /\ circuit_state s' !! k = circuit_state s !! k.
Proof.
  intros Hne. unfold record_failure. cbn.
  destruct (max_failures s <=? n + 1); cbn;
    rewrite ?lookup_insert_ne by congruence; repeat split; reflexivity.
Qed.

Lemma record_failure_world key ct n e s w :
  let w' := snd (record_failure str key ct n e s w) in
  calls w' = calls w /\ fb_calls w' = fb_calls w
  /\ clock_reads w' = clock_reads w.
Proof.
  unfold record_failure. cbn.
  destruct (max_failures s <=? n + 1); cbn; repeat split; reflexivity.
Qed.

(** A failing call of [func]: the state is the one [record_failure] leaves,
    whatever the fallback does, and [func] was called once. *)
Lemma attempt_failure key ct s w e n :
  op ev (calls w) = Raises e -> is_Exception e = true ->
  failures s !! key = Some n ->
  let run := attempt str is_Exception ev key ct s w in
  run.1.2 = fst (record_failure str key ct n e s (snd (invoke ev w)))
  /\ calls run.2 = S (calls w)
  /\ clock_reads run.2 = clock_reads w.
Proof.
  intros Ho He Hn. unfold attempt. cbn [invoke]. rewrite Ho, He, Hn.
  pose proof (record_failure_world key ct n e s (snd (invoke ev w))) as Hw.
  destruct (record_failure str key ct n e s _) as [s3 w3].
  cbn in Hw |- *. destruct Hw as (Hc & Hf & Hk).
  destruct (fallback_handlers s3 !! key) as [fb|]; cbn.
  - destruct (fb (fb_calls w3)) as [v|e2]; cbn; [easy|].
    destruct (is_Exception e2); cbn; easy.
  - easy.
Qed.

(** What the caller gets from a failing call. *)
Lemma attempt_failure_result key ct s w e n :
  op ev (calls w) = Raises e -> is_Exception e = true ->
  failures s !! key = Some n ->
  (attempt str is_Exception ev key ct s w).1.1
  = match fallback_handlers s !! key with
    | None => Err (Propagated e)
    | Some fb =>
        match fb (fb_calls w) with
        | Returns v => Ok v
        | Raises e2 =>
            if is_Exception e2 then Err (Propagated e)
            else Err (Propagated e2)
        end
    end.
Proof.
  intros Ho He Hn. unfold attempt. cbn [invoke]. rewrite Ho, He, Hn.
  pose proof (record_failure_world key ct n e s (snd (invoke ev w))) as Hw.
  pose proof (record_failure_key key ct n e s (snd (invoke ev w))) as Hk.
  destruct (record_failure str key ct n e s _) as [s3 w3].
  cbn in Hw, Hk |- *. destruct Hw as (Hc & Hf & _).
  destruct Hk as (_ & _ & _ & _ & _ & ->). rewrite Hf.
  destruct (fallback_handlers s !! key) as [fb|]; cbn; [|reflexivity].
  destruct (fb (fb_calls w)) as [v|e2]; cbn; [reflexivity|].
  destruct (is_Exception e2); reflexivity.
Qed.

Lemma attempt_success key ct s w v :
  op ev (calls w) = Returns v ->
  attempt str is_Exception ev key ct s w
  = (Ok v,
     set_failures
       (<[key := 0]> (failures (if state_is key HALF_OPEN s
                                then put_state key CLOSED s else s)))
       (if state_is key HALF_OPEN s then put_state key CLOSED s else s),
     snd (invoke ev w)).
Proof. intros Ho. unfold attempt. cbn [invoke]. now rewrite Ho. Qed.

Lemma attempt_not_Exception key ct s w e :
  op ev (calls w) = Raises e -> is_Exception e = false ->
  attempt str is_Exception ev key ct s w
  = (Err (Propagated e), s, snd (invoke ev w)).
Proof. intros Ho He. unfold attempt. cbn [invoke]. now rewrite Ho, He. Qed.


(** A failing call on a circuit that is not open (or not yet created),
    summarised on the entries of the key. *)
Lemma wrapper_failing_call s key w e st n :
  circuit_state (init_key key s) !! key = Some st -> st <> OPEN ->
  failures (init_key key s) !! key = Some n ->
  op ev (calls w) = Raises e -> is_Exception e = true ->
  let run := wrapper str is_Exception ev key s w in
  failures run.1.2 !! key = Some (n + 1)
  /\ last_failure_time run.1.2 !! key = Some (time ev (clock_reads w))
  /\ circuit_state run.1.2 !! key
     = Some (if max_failures s <=? n + 1 then OPEN else st)
  /\ max_failures run.1.2 = max_failures s
  /\ calls run.2 = S (calls w)
  /\ clock_reads run.2 = S (clock_reads w).
Proof.
  intros Hst Hne Hn Ho He.
  assert (Hmf : max_failures (init_key key s) = max_failures s)
    by (unfold init_key; destruct (circuit_state s !! key); reflexivity).
  assert (Hw : wrapper str is_Exception ev key s w
               = attempt str is_Exception ev key (time ev (clock_reads w))
                   (init_key key s) (snd (time_time ev w))).
  { unfold wrapper. cbn [time_time]. unfold state_is. rewrite Hst.
    apply String.eqb_neq in Hne. now rewrite Hne. }
  cbv zeta. rewrite Hw.
  destruct (attempt_failure key (time ev (clock_reads w)) (init_key key s)
              (snd (time_time ev w)) e n Ho He Hn) as (Hs' & Hc & Hk).
  rewrite Hs', Hc, Hk.
  destruct (record_failure_key key (time ev (clock_reads w)) n e
              (init_key key s) (snd (invoke ev (snd (time_time ev w)))))
    as (Hf & Hl & Hcs & Hm & _).
  rewrite Hf, Hl, Hcs, Hm, Hmf, Hst.
  destruct (max_failures s <=? n + 1); repeat split; reflexivity.
Qed.

End FailoverStrategyFacts.

(** Side conditions of the loop-pass lemmas at a concrete handler: that the
    delay of an early attempt is within the range of a float, what the
    operation raises (from the hypothesis [Hop] on the oracle), that it is
    retryable, and the comparisons of counter and attempt number. *)
Ltac loop_pass Hop :=
  first [ apply calculate_delay_in_range;
          [lia | apply attempt_in_float_range_1024; lia]
        | cbn; first [apply Hop | assumption | lia] ].

(** ** The properties of the specification *)

Section Properties.
Context {V E : Type}.
Variable str : E -> string.
Variable is_Exception : E -> bool.

(** C1.  While the circuit is open and the reset timeout has not elapsed,
    every call fails fast and the wrapped operation is not invoked: any
    number [n] of consecutive calls leaves the operation's call counter and
    the circuit untouched.  [RetryHandler.retry] raises its "circuit is
    open" error each time; [FailoverStrategy]'s wrapper gives what the
    fallback registered for the key gives, or raises its "circuit breaker
    open" error when there is none. *)
Theorem open_circuit_never_invokes_operation :
  (forall (ev : env V E) (h : RetryHandler.t) (w : world) (last : Q) (n : nat),
      RetryHandler._circuit_state h = RetryHandler.OPEN ->
      RetryHandler._last_failure_time h = Some last ->
      (forall i, (i < n)%nat ->
         (time ev (clock_reads w + i) - last
            < RetryHandler._circuit_reset_timeout h)%Q) ->
      let run := repeat_call (RetryHandler.retry str ev) n h w in
      run.1.1 = repeat (Err RetryHandler.circuit_is_open) n
      /\ run.1.2 = h
      /\ calls run.2 = calls w)
  /\
  (forall (ev : env V E) (s : FailoverStrategy.t) (key : string) (w : world)
          (n : nat),
      FailoverStrategy.circuit_state s !! key
        = Some FailoverStrategy.CircuitBreakerState.OPEN ->
      (forall i, (i < n)%nat ->
         (time ev (clock_reads w + i)
            - default 0%Q (FailoverStrategy.last_failure_time s !! key)
            < FailoverStrategy.reset_timeout s)%Q) ->
      let run :=
        repeat_call (FailoverStrategy.wrapper str is_Exception ev key) n s w in
      run.1.1
      = map (fun i : nat =>
               match FailoverStrategy.fallback_handlers s !! key with
               | Some fb => FailoverStrategy.result_of (fb (fb_calls w + i)%nat)
               | None => Err (RuntimeError ("Circuit breaker open for " ++ key))
               end) (seq 0 n)
      /\ run.1.2 = s
      /\ calls run.2 = calls w).
Proof.
  split.
  - intros ev h w last n Hs Hl. revert w.
    induction n as [|n IH]; intros w Hblk; [now cbn|].
    cbn [repeat_call].
    rewrite (retry_blocked str ev h w last Hs Hl)
      by (specialize (Hblk 0%nat); rewrite Nat.add_0_r in Hblk;
          apply Hblk; lia).
    specialize (IH (snd (time_time ev w))).
    destruct (repeat_call _ n h _) as [[rs h'] w'] eqn:Hrun.
    cbn in IH |- *.
    destruct IH as (Hrs & Hh & Hc).
    + intros i Hi. specialize (Hblk (S i)).
      rewrite Nat.add_succ_r in Hblk. apply Hblk. lia.
    + now subst.
  - intros ev s key w n Hs. revert w.
    induction n as [|n IH]; intros w Hblk; [now cbn|].
    cbn [repeat_call].
    rewrite (wrapper_blocked str is_Exception ev s key w Hs)
      by (specialize (Hblk 0%nat); rewrite Nat.add_0_r in Hblk;
          apply Hblk; lia).
    destruct (FailoverStrategy.fallback_handlers s !! key) as [fb|] eqn:Hfb.
    + set (w1 := snd (call_fallback fb _)).
      specialize (IH w1).
      destruct (repeat_call _ n s w1) as [[rs s'] w'] eqn:Hrun.
      cbn in IH |- *.
      destruct IH as (Hrs & Hh & Hc).
      * intros i Hi. specialize (Hblk (S i)).
        rewrite Nat.add_succ_r in Hblk. apply Hblk. lia.
      * rewrite Nat.add_0_r. rewrite Hrs, <- seq_shift, map_map.
        repeat split; [|assumption..].
        f_equal. apply map_ext. intros i. now rewrite Nat.add_succ_r.
    + set (w1 := snd (time_time ev w)).
      specialize (IH w1).
      destruct (repeat_call _ n s w1) as [[rs s'] w'] eqn:Hrun.
      cbn in IH |- *.
      destruct IH as (Hrs & Hh & Hc).
      * intros i Hi. specialize (Hblk (S i)).
        rewrite Nat.add_succ_r in Hblk. apply Hblk. lia.
      * rewrite Hrs, <- seq_shift, map_map. repeat split; assumption.
Qed.

(** C2.  With a failure threshold of 3 and an operation that always raises
    a retryable error, a circuit that starts closed with no failures opens
    at the third failure and not before.  For [RetryHandler] this holds
    within one call that has at least three attempts (the first two passes
    of the loop leave the circuit closed with two failures counted) and
    over three calls of one attempt each; for [FailoverStrategy], whose
    calls make one attempt each, over three calls.  When it opens,
    [last_failure_time] is the time read for that failure. *)
Theorem circuit_trips_at_third_failure (e : E) (ev : env V E) (w : world) :
  (forall n, op ev n = Raises e) ->
  (forall h : RetryHandler.t,
      RetryHandler._circuit_failure_threshold h = 3 ->
      RetryHandler._failure_count h = 0 ->
      RetryHandler._circuit_state h = RetryHandler.CLOSED ->
      RetryHandler._retry_on h e = true ->
      (3 <= RetryHandler._max_retries h ->
       let before := RetryHandler.retry_loop str ev [1; 2] h w in
       let run := RetryHandler.retry str ev h w in
       RetryHandler._circuit_state before.1.2 = RetryHandler.CLOSED
       /\ RetryHandler._failure_count before.1.2 = 2
       /\ calls before.2 = (calls w + 2)%nat
       /\ run.1.1 = Err (RetryHandler.circuit_opened str 3 e)
       /\ RetryHandler._circuit_state run.1.2 = RetryHandler.OPEN
       /\ RetryHandler._failure_count run.1.2 = 3
       /\ RetryHandler._last_failure_time run.1.2
          = Some (time ev (clock_reads w))
       /\ calls run.2 = (calls w + 3)%nat)
      /\
      (RetryHandler._max_retries h = 1 ->
       let before := repeat_call (RetryHandler.retry str ev) 2 h w in
       let run := repeat_call (RetryHandler.retry str ev) 3 h w in
       before.1.1 = [Err (RetryHandler.failed_after str 1 e);
                     Err (RetryHandler.failed_after str 1 e)]
       /\ RetryHandler._circuit_state before.1.2 = RetryHandler.CLOSED
       /\ RetryHandler._failure_count before.1.2 = 2
       /\ calls before.2 = (calls w + 2)%nat
       /\ run.1.1 = [Err (RetryHandler.failed_after str 1 e);
                     Err (RetryHandler.failed_after str 1 e);
                     Err (RetryHandler.circuit_opened str 3 e)]
       /\ RetryHandler._circuit_state run.1.2 = RetryHandler.OPEN
       /\ RetryHandler._failure_count run.1.2 = 3
       /\ RetryHandler._last_failure_time run.1.2
          = Some (time ev (clock_reads w))
       /\ calls run.2 = (calls w + 3)%nat))
  /\
  (forall (s : FailoverStrategy.t) (key : string),
      is_Exception e = true ->
      FailoverStrategy.max_failures s = 3 ->
      FailoverStrategy.circuit_state s !! key = None ->
      let before :=
        repeat_call (FailoverStrategy.wrapper str is_Exception ev key) 2 s w in
      let run :=
        repeat_call (FailoverStrategy.wrapper str is_Exception ev key) 3 s w in
      FailoverStrategy.get_circuit_status key before.1.2
      = FailoverStrategy.mkStatus FailoverStrategy.CircuitBreakerState.CLOSED 2
          (Some (time ev (clock_reads w + 1)))
      /\ calls before.2 = (calls w + 2)%nat
      /\ FailoverStrategy.get_circuit_status key run.1.2
         = FailoverStrategy.mkStatus FailoverStrategy.CircuitBreakerState.OPEN 3
             (Some (time ev (clock_reads w + 2)))
      /\ calls run.2 = (calls w + 3)%nat).
Proof.
  intros Hop. split.
  - intros h Hth Hfc Hcs Hro.
    destruct h as [mr bd md bs j th rt ro fc cs lft].
    cbn in Hth, Hfc, Hcs, Hro. subst th fc cs.
    split.
    + intros Hmr. cbn in Hmr. cbv zeta.
      unfold RetryHandler.retry.
      cbn [RetryHandler.check_circuit RetryHandler._circuit_state
           RetryHandler._max_retries].
      rewrite (range_cons 1) by (cbn; lia). rewrite (range_cons (1 + 1)) by (cbn; lia). rewrite (range_cons (1 + 1 + 1))
        by (cbn; lia).
      change (1 + 1) with 2. change (2 + 1) with 3.
      cbn [RetryHandler.retry_loop].
      erewrite (RetryHandler_backoff_step str ev 1 _ w e)
        by loop_pass Hop.
      erewrite (RetryHandler_backoff_step str ev 2 _ _ e)
        by loop_pass Hop.
      rewrite (retry_attempt_trip str ev 3 _ _ e)
        by loop_pass Hop.
      cbn. repeat split; try reflexivity; lia.
    + intros Hmr. cbn in Hmr. subst mr. cbv zeta.
      cbn [repeat_call]. unfold RetryHandler.retry.
      cbn [RetryHandler.check_circuit RetryHandler._circuit_state
           RetryHandler._max_retries].
      change (range 1 (1 + 1)) with [1]. cbn [RetryHandler.retry_loop].
      rewrite (retry_attempt_exhausted str ev 1 _ w e)
        by loop_pass Hop.
      cbn [RetryHandler.check_circuit RetryHandler._circuit_state
           RetryHandler._max_retries RetryHandler.set_failure_count].
      change (range 1 (1 + 1)) with [1]. cbn [RetryHandler.retry_loop].
      rewrite (retry_attempt_exhausted str ev 1 _ _ e)
        by loop_pass Hop.
      cbn [RetryHandler.check_circuit RetryHandler._circuit_state
           RetryHandler._max_retries RetryHandler.set_failure_count].
      change (range 1 (1 + 1)) with [1]. cbn [RetryHandler.retry_loop].
      rewrite (retry_attempt_trip str ev 1 _ _ e)
        by loop_pass Hop.
      cbn. repeat split; try reflexivity; lia.
  - intros s key He Hmf Hs. cbv zeta. cbn [repeat_call].
    assert (Hi : FailoverStrategy.circuit_state (FailoverStrategy.init_key key s) !! key
                 = Some FailoverStrategy.CircuitBreakerState.CLOSED
                 /\ FailoverStrategy.failures (FailoverStrategy.init_key key s) !! key
                    = Some 0).
    { rewrite (init_key_absent s key Hs). cbn.
      now rewrite !lookup_insert_eq. }
    destruct Hi as [Hi1 Hi2].
    destruct (wrapper_failing_call str is_Exception ev s key w e _ _
                Hi1 ltac:(discriminate) Hi2 (Hop _) He)
      as (Hf1 & Hl1 & Hc1 & Hm1 & Hk1 & Hr1).
    destruct (FailoverStrategy.wrapper str is_Exception ev key s w)
      as [[r1 s1] w1].
    cbn [fst snd] in *. rewrite Hmf in Hc1. cbn in Hc1.
    destruct (wrapper_failing_call str is_Exception ev s1 key w1 e _ _
                ltac:(rewrite (init_key_present s1 key _ Hc1); exact Hc1)
                ltac:(discriminate)
                ltac:(rewrite (init_key_present s1 key _ Hc1); exact Hf1)
                (Hop _) He)
      as (Hf2 & Hl2 & Hc2 & Hm2 & Hk2 & Hr2).
    destruct (FailoverStrategy.wrapper str is_Exception ev key s1 w1)
      as [[r2 s2] w2].
    cbn [fst snd] in *. rewrite Hm1, Hmf in Hc2. cbn in Hc2.
    destruct (wrapper_failing_call str is_Exception ev s2 key w2 e _ _
                ltac:(rewrite (init_key_present s2 key _ Hc2); exact Hc2)
                ltac:(discriminate)
                ltac:(rewrite (init_key_present s2 key _ Hc2); exact Hf2)
                (Hop _) He)
      as (Hf3 & Hl3 & Hc3 & Hm3 & Hk3 & Hr3).
    destruct (FailoverStrategy.wrapper str is_Exception ev key s2 w2)
      as [[r3 s3] w3].
    cbn [fst snd] in *. rewrite Hm2, Hm1, Hmf in Hc3. cbn in Hc3.
    unfold FailoverStrategy.get_circuit_status.
    rewrite Hc2, Hf2, Hl2, Hc3, Hf3, Hl3, Hr2, Hr1, Hk3, Hk2, Hk1.
    replace (clock_reads w + 1)%nat with (S (clock_reads w)) by lia.
    replace (clock_reads w + 2)%nat with (S (S (clock_reads w))) by lia.
    cbn. repeat split; try reflexivity; lia.
Qed.

Lemma slept_emit_Sleep (d : Q) (w : world) :
  slept (emit (Sleep d) w) = slept w ++ [d].
Proof. unfold slept. cbn. reflexivity. Qed.

Lemma slept_emit_LogRetry (a : Z) (m : string) (d : Q) (w : world) :
  slept (emit (LogRetry a m d) w) = slept w.
Proof. reflexivity. Qed.

Lemma same_config_refl (h : @RetryHandler.t E) : RetryHandler.same_config h h.
Proof. unfold RetryHandler.same_config. repeat split. Qed.

(** [k] retryable failures in a row, each with attempts left, the counter
    below the threshold and a delay within the range of a float: the loop
    has moved on by [k] attempts, counted [k] failures and slept the [k]
    delays [_calculate_delay] returned. *)
Lemma retry_loop_backoff_run (ev : env V E) (k : nat) :
  forall (a : Z) (h : RetryHandler.t) (w : world),
    (forall i, (i < k)%nat ->
       exists e, op ev (calls w + i) = Raises e
                 /\ RetryHandler._retry_on h e = true) ->
    RetryHandler._failure_count h + Z.of_nat k
      < RetryHandler._circuit_failure_threshold h ->
    a + Z.of_nat k <= RetryHandler._max_retries h ->
    1 <= a ->
    (forall i, (i < k)%nat ->
       RetryHandler.attempt_in_float_range (RetryHandler._backoff_strategy h)
         (a + Z.of_nat i)) ->
    exists h' w' delays,
      RetryHandler.retry_loop str ev
        (range a (RetryHandler._max_retries h + 1)) h w
      = RetryHandler.retry_loop str ev
          (range (a + Z.of_nat k) (RetryHandler._max_retries h + 1)) h' w'
      /\ RetryHandler.same_config h h'
      /\ RetryHandler._failure_count h'
         = RetryHandler._failure_count h + Z.of_nat k
      /\ RetryHandler._circuit_state h' = RetryHandler._circuit_state h
      /\ RetryHandler._last_failure_time h'
         = RetryHandler._last_failure_time h
      /\ calls w' = (calls w + k)%nat
      /\ clock_reads w' = clock_reads w
      /\ slept w' = slept w ++ delays
      /\ map Some delays
         = map (fun i : nat =>
                  RetryHandler._calculate_delay h (a + Z.of_nat i)
                    (random ev (draws w + i)))
             (seq 0 k).
Proof.
  induction k as [|k IH]; intros a h w Hop Hth Ha H1 Hin.
  - exists h, w, []. replace (a + Z.of_nat 0) with a by lia.
    repeat split; try (cbn; lia); try apply same_config_refl.
    now rewrite app_nil_r.
  - destruct (Hop 0%nat ltac:(lia)) as (e & Ho & Hr).
    rewrite Nat.add_0_r in Ho.
    destruct (calculate_delay_returns h a (random ev (draws w)) H1)
      as [d Hd].
    { specialize (Hin 0%nat ltac:(lia)). now rewrite Z.add_0_r in Hin. }
    rewrite (range_cons a) by lia. cbn [RetryHandler.retry_loop].
    rewrite (RetryHandler_backoff_step str ev a h w e d Ho Hr
               ltac:(lia) ltac:(lia) Hd).
    set (h1 := RetryHandler.set_failure_count _ h).
    set (w1 := emit _ _).
    destruct (IH (a + 1) h1 w1)
      as (h' & w' & delays & Hrun & Hcfg & Hc & Hs & Hl & Hk & Hclk & Hsl
          & Hdl).
    + intros i Hi. destruct (Hop (S i) ltac:(lia)) as (e' & Ho' & Hr').
      exists e'. split; [|exact Hr'].
      change (calls w1) with (S (calls w)).
      now rewrite Nat.add_succ_comm.
    + cbn. lia.
    + cbn. lia.
    + lia.
    + intros i Hi. specialize (Hin (S i) ltac:(lia)).
      change (RetryHandler._backoff_strategy h1)
        with (RetryHandler._backoff_strategy h).
      replace (a + 1 + Z.of_nat i) with (a + Z.of_nat (S i)) by lia.
      exact Hin.
    + exists h', w', (d :: delays).
      change (RetryHandler._max_retries h1)
        with (RetryHandler._max_retries h) in Hrun.
      replace (a + Z.of_nat (S k)) with (a + 1 + Z.of_nat k) by lia.
      split; [exact Hrun|].
      split; [exact Hcfg|].
      split; [cbn in Hc; lia|]. split; [exact Hs|]. split; [exact Hl|].
      split; [change (calls w1) with (S (calls w)) in Hk; lia|].
      split; [exact Hclk|].
      split.
      * rewrite Hsl. unfold w1.
        rewrite slept_emit_Sleep, slept_emit_LogRetry.
        change (slept (snd (random_random ev (snd (invoke ev w)))))
          with (slept w).
        now rewrite <- app_assoc.
      * cbn [seq map]. rewrite Nat.add_0_r, Z.add_0_r, Hd, Hdl. f_equal.
        rewrite <- seq_shift, map_map. apply map_ext. intros i.
        change (draws w1) with (S (draws w)).
        unfold h1. rewrite calculate_delay_set_failure_count.
        f_equal; [lia|]. now rewrite Nat.add_succ_comm.
Qed.

(** C3.  A retryable failure reaches the caller only when the circuit trips
    or the attempts are used up: so the specification says, and so the loop
    of [RetryHandler.retry] does as long as the delay of the attempt can be
    computed.  At attempt number [attempt] of [_max_retries], a retryable
    failure either trips the circuit (the counter reaches the threshold:
    "circuit breaker opened" is raised), or was the last attempt ("failed
    after" is raised), or is followed by the remaining attempts: when
    [_calculate_delay] returns, nothing is raised, the only traces are one
    log line and one sleep of the computed delay, and the loop goes on with
    the next attempt.  But [_calculate_delay] raises [OverflowError] exactly
    at the attempts outside the range of a float, and there the failure
    reaches the caller as [OverflowError] although attempts are left and the
    circuit is below its threshold: an operation that keeps failing makes
    [retry] raise it at the first such attempt [n + 1], after [n + 1]
    invocations and [n] sleeps.  [FailoverStrategy] makes one attempt per
    call, so each failure is the last attempt: it is surfaced at once, as the
    fallback's result or as the error itself, and the operation is not called
    again. *)
Theorem retryable_failure_surfaces_on_trip_exhaustion_or_overflow
    (ev : env V E) (e : E) :
  (forall (h : RetryHandler.t) (w : world) (attempt : Z),
      op ev (calls w) = Raises e ->
      RetryHandler._retry_on h e = true ->
      1 <= attempt <= RetryHandler._max_retries h ->
      let h1 := RetryHandler.set_failure_count
                  (RetryHandler._failure_count h + 1) h in
      let run := RetryHandler.retry_loop str ev
                   (range attempt (RetryHandler._max_retries h + 1)) h w in
      if RetryHandler._circuit_failure_threshold h
           <=? RetryHandler._failure_count h + 1
      then run.1.1 = Err (RetryHandler.circuit_opened str
                            (RetryHandler._failure_count h + 1) e)
           /\ RetryHandler._circuit_state run.1.2 = RetryHandler.OPEN
           /\ calls run.2 = S (calls w)
      else if attempt =? RetryHandler._max_retries h
      then run = (Err (RetryHandler.failed_after str
                         (RetryHandler._max_retries h) e),
                  h1, snd (invoke ev w))
      else match RetryHandler._calculate_delay h1 attempt
                   (random ev (draws w)) with
           | Some delay =>
               exists w1,
                 run = RetryHandler.retry_loop str ev
                         (range (attempt + 1) (RetryHandler._max_retries h + 1))
                         h1 w1
                 /\ calls w1 = S (calls w)
                 /\ events w1
                    = Sleep delay :: LogRetry attempt (str e) delay :: events w
           | None => run = (Err OverflowError, h1, snd (invoke ev w))
           end)
  /\
  (forall (h : @RetryHandler.t E) (attempt : Z) (r : Q),
      1 <= attempt ->
      (RetryHandler._calculate_delay h attempt r = None
       <-> ~ RetryHandler.attempt_in_float_range
               (RetryHandler._backoff_strategy h) attempt))
  /\
  (forall (h : RetryHandler.t) (w : world) (n : nat),
      RetryHandler._circuit_state h <> RetryHandler.OPEN ->
      (forall i, (i <= n)%nat ->
         exists e', op ev (calls w + i) = Raises e'
                    /\ RetryHandler._retry_on h e' = true) ->
      Z.of_nat n + 1 < RetryHandler._max_retries h ->
      RetryHandler._failure_count h + Z.of_nat n + 1
        < RetryHandler._circuit_failure_threshold h ->
      RetryHandler.attempt_in_float_range (RetryHandler._backoff_strategy h)
        (Z.of_nat n) ->
      ~ RetryHandler.attempt_in_float_range (RetryHandler._backoff_strategy h)
          (Z.of_nat n + 1) ->
      let run := RetryHandler.retry str ev h w in
      run.1.1 = Err OverflowError
      /\ calls run.2 = (calls w + n + 1)%nat
      /\ RetryHandler._failure_count run.1.2
         = RetryHandler._failure_count h + Z.of_nat n + 1
      /\ RetryHandler._circuit_state run.1.2 = RetryHandler._circuit_state h
      /\ length (slept run.2) = (length (slept w) + n)%nat)
  /\
  (forall (s : FailoverStrategy.t) (key : string) (current_time : Q)
          (w : world) (n : Z),
      op ev (calls w) = Raises e ->
      is_Exception e = true ->
      FailoverStrategy.failures s !! key = Some n ->
      let run :=
        FailoverStrategy.attempt str is_Exception ev key current_time s w in
      calls run.2 = S (calls w)
      /\ run.1.1
         = match FailoverStrategy.fallback_handlers s !! key with
           | None => Err (Propagated e)
           | Some fb =>
               match fb (fb_calls w) with
               | Returns v => Ok v
               | Raises e2 =>
                   if is_Exception e2 then Err (Propagated e)
                   else Err (Propagated e2)
               end
           end).
Proof.
  split; [|split; [|split]].
  - intros h w attempt Ho Hr Ha. cbv zeta.
    rewrite (range_cons attempt) by lia. cbn [RetryHandler.retry_loop].
    destruct (RetryHandler._circuit_failure_threshold h
                <=? RetryHandler._failure_count h + 1) eqn:Hth.
    + apply Z.leb_le in Hth.
      rewrite (retry_attempt_trip str ev attempt h w e Ho Hr Hth).
      cbn. repeat split.
    + apply Z.leb_gt in Hth.
      destruct (attempt =? RetryHandler._max_retries h) eqn:Hlast.
      * apply Z.eqb_eq in Hlast.
        now rewrite (retry_attempt_exhausted str ev attempt h w e Ho Hr Hth Hlast).
      * apply Z.eqb_neq in Hlast.
        rewrite calculate_delay_set_failure_count.
        destruct (RetryHandler._calculate_delay h attempt (random ev (draws w)))
          as [delay|] eqn:Hd.
        -- rewrite (RetryHandler_backoff_step str ev attempt h w e delay
                      Ho Hr Hth Hlast Hd).
           eexists. split; [reflexivity|]. cbn. split; reflexivity.
        -- now rewrite (retry_attempt_overflow str ev attempt h w e
                          Ho Hr Hth Hlast Hd).
  - intros h attempt r H1. split.
    + intros Hnone Hin.
      rewrite (calculate_delay_in_range h attempt r H1 Hin) in Hnone.
      discriminate.
    + intros Hout. now apply calculate_delay_out_of_range.
  - intros h w n Hs Hop Hmax Hth Hin Hout. cbv zeta. unfold RetryHandler.retry.
    rewrite (check_circuit_not_open ev h w Hs).
    destruct (retry_loop_backoff_run ev n 1 h w)
      as (h' & w' & delays & -> & Hcfg & Hc & Hst & Hl & Hcalls & Hclk & Hsl
          & Hdl).
    { intros i Hi. apply Hop. lia. }
    { lia. }
    { lia. }
    { lia. }
    { intros i Hi.
      apply (attempt_in_float_range_earlier _ _ (Z.of_nat n)); [lia|exact Hin]. }
    destruct Hcfg as (Hmr & _ & _ & Hbs & _ & Hct & _ & Hro).
    destruct (Hop n ltac:(lia)) as (e' & Ho & Hr).
    rewrite <- Hcalls in Ho. rewrite <- Hro in Hr.
    rewrite (range_cons (1 + Z.of_nat n)) by lia.
    cbn [RetryHandler.retry_loop].
    rewrite (retry_attempt_overflow str ev (1 + Z.of_nat n) h' w' e' Ho Hr)
      by first [ lia
               | apply calculate_delay_out_of_range; [lia|];
                 rewrite Hbs;
                 now replace (1 + Z.of_nat n) with (Z.of_nat n + 1) by lia ].
    cbn [fst snd].
    split; [reflexivity|]. split; [cbn; lia|]. split; [cbn; lia|].
    split; [exact Hst|].
    change (slept (snd (invoke ev w'))) with (slept w').
    rewrite Hsl, length_app. f_equal.
    apply (f_equal (@length _)) in Hdl.
    now rewrite !length_map, length_seq in Hdl.
  - intros s key ct w n Ho He Hn. cbv zeta. split.
    + apply (attempt_failure str is_Exception ev key ct s w e n Ho He Hn).
    + apply (attempt_failure_result str is_Exception ev key ct s w e n Ho He Hn).
Qed.


(** C10.  [RetryHandler.__init__] accepts any [max_retries]; with a value
    below 1 the loop of [retry] has no pass at all, so on a circuit that is
    not open the call returns [None] (here [Ok None]) without invoking the
    operation, without raising, and without touching handler or world. *)
Theorem retry_without_attempts_returns_None :
  (forall (ev : env V E) (h : RetryHandler.t) (w : world),
      RetryHandler._max_retries h < 1 ->
      RetryHandler._circuit_state h <> RetryHandler.OPEN ->
      RetryHandler.retry str ev h w = (Ok None, h, w))
  /\
  (forall (ev : env V E) (w : world) (max_retries : Z) (base_delay max_delay : Q)
          (backoff_strategy : RetryHandler.RetryStrategy) (jitter : Q)
          (circuit_failure_threshold : Z) (circuit_reset_timeout : Q)
          (retry_on : option (E -> bool)),
      max_retries < 1 ->
      let h := RetryHandler.__init__ is_Exception max_retries base_delay
                 max_delay backoff_strategy jitter circuit_failure_threshold
                 circuit_reset_timeout retry_on in
      RetryHandler._max_retries h = max_retries
      /\ RetryHandler.retry str ev h w = (Ok None, h, w)).
Proof.
  assert (Hgen : forall (ev : env V E) (h : RetryHandler.t) (w : world),
             RetryHandler._max_retries h < 1 ->
             RetryHandler._circuit_state h <> RetryHandler.OPEN ->
             RetryHandler.retry str ev h w = (Ok None, h, w)).
  { intros ev h w Hm Hs. unfold RetryHandler.retry.
    rewrite (check_circuit_not_open ev h w Hs).
    now rewrite range_nil by lia. }
  split; [exact Hgen|].
  intros ev w mr bd md bs j th rt ro Hm h. split; [reflexivity|].
  apply Hgen; [exact Hm|discriminate].
Qed.

(** C4.  Once the circuit is open and the reset timeout has elapsed, the
    next call moves it to half-open at call time and invokes the operation
    exactly once as a probe.  If the probe returns, its value is returned,
    the circuit is closed and the failure counter is 0.  If the probe raises
    a failure the wrapper counts, the circuit is open again, stamped with the
    new failure time, and the operation was not invoked a second time.  (The
    failure counter of an open circuit is at or above the threshold, which is
    what makes a single failed probe re-open it.) *)
Theorem half_open_probe (ev : env V E) :
  (forall (h : RetryHandler.t) (w : world) (last : Q),
      RetryHandler._circuit_state h = RetryHandler.OPEN ->
      RetryHandler._last_failure_time h = Some last ->
      (RetryHandler._circuit_reset_timeout h
         <= time ev (clock_reads w) - last)%Q ->
      RetryHandler._circuit_failure_threshold h
        <= RetryHandler._failure_count h ->
      1 <= RetryHandler._max_retries h ->
      let w1 := snd (time_time ev w) in
      let run := RetryHandler.retry str ev h w in
      RetryHandler.check_circuit ev h w
      = (inr (RetryHandler.set_circuit_state RetryHandler.HALF_OPEN h), w1)
      /\ calls run.2 = S (calls w)
      /\ (forall v, op ev (calls w) = Returns v ->
            run.1.1 = Ok (Some v)
            /\ RetryHandler._circuit_state run.1.2 = RetryHandler.CLOSED
            /\ RetryHandler._failure_count run.1.2 = 0)
      /\ (forall e, op ev (calls w) = Raises e ->
            RetryHandler._retry_on h e = true ->
            run.1.1 = Err (RetryHandler.circuit_opened str
                             (RetryHandler._failure_count h + 1) e)
            /\ RetryHandler._circuit_state run.1.2 = RetryHandler.OPEN
            /\ RetryHandler._last_failure_time run.1.2
               = Some (time ev (S (clock_reads w)))))
  /\
  (forall (s : FailoverStrategy.t) (key : string) (w : world) (n : Z),
      FailoverStrategy.circuit_state s !! key
        = Some FailoverStrategy.CircuitBreakerState.OPEN ->
      (FailoverStrategy.reset_timeout s
         <= time ev (clock_reads w)
            - default 0%Q (FailoverStrategy.last_failure_time s !! key))%Q ->
      FailoverStrategy.failures s !! key = Some n ->
      FailoverStrategy.max_failures s <= n ->
      let now := time ev (clock_reads w) in
      let half_open :=
        FailoverStrategy.put_state key
          FailoverStrategy.CircuitBreakerState.HALF_OPEN s in
      let run := FailoverStrategy.wrapper str is_Exception ev key s w in
      run = FailoverStrategy.attempt str is_Exception ev key now half_open
              (snd (time_time ev w))
      /\ calls run.2 = S (calls w)
      /\ (forall v, op ev (calls w) = Returns v ->
            run.1.1 = Ok v
            /\ FailoverStrategy.get_circuit_status key run.1.2
               = FailoverStrategy.mkStatus
                   FailoverStrategy.CircuitBreakerState.CLOSED 0
                   (FailoverStrategy.last_failure_time s !! key))
      /\ (forall e, op ev (calls w) = Raises e ->
            is_Exception e = true ->
            FailoverStrategy.get_circuit_status key run.1.2
            = FailoverStrategy.mkStatus
                FailoverStrategy.CircuitBreakerState.OPEN (n + 1) (Some now))).
Proof.
  split.
  - intros h w last Hs Hl Hel Hth Hm. cbv zeta.
    pose proof (check_circuit_elapsed ev h w last Hs Hl Hel) as Hcc.
    split; [exact Hcc|].
    unfold RetryHandler.retry. rewrite Hcc.
    rewrite (range_cons 1) by (cbn; lia). cbn [RetryHandler.retry_loop].
    destruct (op ev (calls w)) as [v|e] eqn:Ho.
    + rewrite (retry_attempt_success str ev 1 _ _ v) by exact Ho.
      cbn. split; [reflexivity|]. split.
      * intros v' [= <-]. repeat split.
      * intros e [=].
    + destruct (RetryHandler._retry_on h e) eqn:Hr.
      * rewrite (retry_attempt_trip str ev 1 _ _ e) by (cbn; first [assumption|lia]).
        cbn. split; [reflexivity|]. split; [intros v [=]|].
        intros e' [= <-] _. repeat split.
      * rewrite (retry_attempt_not_retryable str ev 1 _ _ e) by (cbn; assumption).
        cbn. split; [reflexivity|]. split; [intros v [=]|].
        intros e' [= <-]. congruence.
  - intros s key w n Hs Hel Hn Hth. cbv zeta.
    pose proof (wrapper_elapsed str is_Exception ev s key w Hs Hel) as Hw.
    split; [exact Hw|]. rewrite Hw.
    set (s1 := FailoverStrategy.put_state key _ s).
    assert (Hs1 : FailoverStrategy.circuit_state s1 !! key
                  = Some FailoverStrategy.CircuitBreakerState.HALF_OPEN)
      by (cbn; apply lookup_insert_eq).
    assert (Hn1 : FailoverStrategy.failures s1 !! key = Some n) by exact Hn.
    destruct (op ev (calls w)) as [v|e] eqn:Ho.
    + rewrite (attempt_success str is_Exception ev key _ s1
               (snd (time_time ev w)) v Ho).
      rewrite (state_is_Some s1 key _ _ Hs1). rewrite String.eqb_refl.
      split; [reflexivity|]. split; [|intros e [=]].
      intros v' [= <-]. split; [reflexivity|].
      unfold FailoverStrategy.get_circuit_status. cbn.
      now rewrite !lookup_insert_eq.
    + destruct (is_Exception e) eqn:He.
      * destruct (attempt_failure str is_Exception ev key
                    (time ev (clock_reads w)) s1 (snd (time_time ev w)) e n
                    Ho He Hn1) as (Hst & Hc & _).
        split; [exact Hc|]. split; [intros v [=]|].
        intros e' [= <-] _. rewrite Hst.
        destruct (record_failure_key str key (time ev (clock_reads w)) n e s1
                    (snd (invoke ev (snd (time_time ev w)))))
          as (Hf & Hlt & Hcs & _).
        unfold FailoverStrategy.get_circuit_status.
        rewrite Hf, Hlt, Hcs.
        replace (FailoverStrategy.max_failures s1 <=? n + 1) with true
          by (symmetry; apply Z.leb_le; cbn; lia).
        reflexivity.
      * rewrite (attempt_not_Exception str is_Exception ev key _ s1
                   (snd (time_time ev w)) e Ho He).
        split; [reflexivity|]. split; [intros v [=]|].
        intros e' [= <-]. congruence.
Qed.

(** C5 (as the code has it).  A fallback is invoked once per call, never
    retried and never wrapped.  When it is invoked because the circuit is
    open, an exception it raises is the exception of the call.  When it is
    invoked after a failure of the operation and raises an [Exception], that
    exception is only logged and the call raises the operation's original
    exception instead; a fallback exception that is not an [Exception] is
    not caught and is the exception of the call. *)
Theorem fallback_failure_handling (ev : env V E) :
  (forall (s : FailoverStrategy.t) (key : string) (w : world)
          (fb : nat -> outcome V E) (e2 : E),
      FailoverStrategy.circuit_state s !! key
        = Some FailoverStrategy.CircuitBreakerState.OPEN ->
      (time ev (clock_reads w)
         - default 0%Q (FailoverStrategy.last_failure_time s !! key)
         < FailoverStrategy.reset_timeout s)%Q ->
      FailoverStrategy.fallback_handlers s !! key = Some fb ->
      fb (fb_calls w) = Raises e2 ->
      let run := FailoverStrategy.wrapper str is_Exception ev key s w in
      run.1.1 = Err (Propagated e2)
      /\ fb_calls run.2 = S (fb_calls w)
      /\ calls run.2 = calls w)
  /\
  (forall (s : FailoverStrategy.t) (key : string) (current_time : Q)
          (w : world) (n : Z) (e : E) (fb : nat -> outcome V E) (e2 : E),
      op ev (calls w) = Raises e ->
      is_Exception e = true ->
      FailoverStrategy.failures s !! key = Some n ->
      FailoverStrategy.fallback_handlers s !! key = Some fb ->
      fb (fb_calls w) = Raises e2 ->
      let run :=
        FailoverStrategy.attempt str is_Exception ev key current_time s w in
      run.1.1 = Err (Propagated (if is_Exception e2 then e else e2))
      /\ fb_calls run.2 = S (fb_calls w)
      /\ calls run.2 = S (calls w)
      /\ (is_Exception e2 = true ->
          exists w1, run.2 = emit (LogError ("Fallback failed for " ++ key
                                               ++ ": " ++ str e2)) w1)).
Proof.
  split.
  - intros s key w fb e2 Hs Hlt Hfb He2. cbv zeta.
    rewrite (wrapper_blocked str is_Exception ev s key w Hs Hlt), Hfb.
    cbn. rewrite He2. repeat split.
  - intros s key ct w n e fb e2 Ho He Hn Hfb He2. cbv zeta.
    unfold FailoverStrategy.attempt. cbn [invoke]. rewrite Ho, He, Hn.
    pose proof (record_failure_world str key ct n e s (snd (invoke ev w))) as Hw.
    pose proof (record_failure_key str key ct n e s (snd (invoke ev w))) as Hk.
    destruct (FailoverStrategy.record_failure str key ct n e s _) as [s3 w3].
    cbn in Hw, Hk |- *. destruct Hw as (Hc & Hf & _).
    destruct Hk as (_ & _ & _ & _ & _ & ->). rewrite Hfb, Hf, He2.
    destruct (is_Exception e2); cbn; rewrite ?Hf, ?Hc;
      repeat split; try discriminate.
    intros _. eexists. reflexivity.
Qed.

(** C8 (as the code has it).  With three attempts and a threshold of five, on
    a closed circuit with no failures counted, an operation that always
    raises a retryable error is invoked exactly three times; [retry] then
    raises its "failed after" error, whose message names the three attempts
    and whose context holds the last error's string under ["last_error"] and
    nothing else; the circuit stays closed with three failures counted. *)
Theorem retries_exhausted_below_threshold
    (ev : env V E) (h : RetryHandler.t) (w : world) (e : E) :
  (forall n, op ev n = Raises e) ->
  RetryHandler._retry_on h e = true ->
  RetryHandler._max_retries h = 3 ->
  RetryHandler._circuit_failure_threshold h = 5 ->
  RetryHandler._failure_count h = 0 ->
  RetryHandler._circuit_state h = RetryHandler.CLOSED ->
  let run := RetryHandler.retry str ev h w in
  run.1.1 = Err (RetryHandlerError "Failed after 3 attempts"
                   ErrorSeverity.ERROR [("last_error"%string, str e)])
  /\ calls run.2 = (calls w + 3)%nat
  /\ RetryHandler._circuit_state run.1.2 = RetryHandler.CLOSED
  /\ RetryHandler._failure_count run.1.2 = 3
  /\ RetryHandler._last_failure_time run.1.2
     = RetryHandler._last_failure_time h.
Proof.
  intros Hop Hro Hmr Hth Hfc Hcs.
  destruct h as [mr bd md bs j th rt ro fc cs lft].
  cbn in Hro, Hmr, Hth, Hfc, Hcs. subst mr th fc cs. cbv zeta.
  unfold RetryHandler.retry.
  cbn [RetryHandler.check_circuit RetryHandler._circuit_state
       RetryHandler._max_retries].
  change (range 1 (3 + 1)) with [1; 2; 3]. cbn [RetryHandler.retry_loop].
  erewrite (RetryHandler_backoff_step str ev 1 _ w e)
    by loop_pass Hop.
  erewrite (RetryHandler_backoff_step str ev 2 _ _ e)
    by loop_pass Hop.
  rewrite (retry_attempt_exhausted str ev 3 _ _ e)
    by loop_pass Hop.
  cbn. repeat split; try reflexivity; lia.
Qed.

(** The loop of [retry], entered with a circuit that is not open, keeps the
    threshold and leaves the circuit open only with a failure time and a
    failure count at or above the threshold. *)
Lemma retry_loop_open_ok (ev : env V E) (l : list Z)
    (h : RetryHandler.t) (w : world) :
  RetryHandler._circuit_state h <> RetryHandler.OPEN ->
  RetryHandler.open_ok (RetryHandler.retry_loop str ev l h w).1.2.
Proof.
  revert h w. induction l as [|a l IH]; intros h w Hs; cbn [RetryHandler.retry_loop].
  - intros Ho. contradiction.
  - unfold RetryHandler.retry_attempt. cbn [invoke].
    destruct (op ev (calls w)) as [v|e].
    + unfold RetryHandler.open_ok.
      destruct (RetryHandler._circuit_state h) eqn:Hcs; cbn; rewrite ?Hcs;
        intros Ho; congruence.
    + destruct (RetryHandler._retry_on h e); [|cbn; intros Ho; contradiction].
      destruct (_ <=? _) eqn:Hth.
      * cbn. intros _. apply Z.leb_le in Hth. cbn in Hth. split; [eauto|exact Hth].
      * destruct (a =? _).
        -- cbn. intros Ho. contradiction.
        -- cbn [random_random].
           destruct (RetryHandler._calculate_delay _ _ _).
           ++ apply IH. exact Hs.
           ++ cbn. intros Ho. contradiction.
Qed.

Lemma retry_open_ok (ev : env V E) (h : RetryHandler.t) (w : world) :
  RetryHandler.open_ok h ->
  RetryHandler.open_ok (RetryHandler.retry str ev h w).1.2.
Proof.
  intros Hok. unfold RetryHandler.retry, RetryHandler.check_circuit.
  destruct (RetryHandler._circuit_state h) eqn:Hs.
  - apply retry_loop_open_ok. congruence.
  - cbn [time_time].
    destruct (RetryHandler._last_failure_time h) as [last|]; [|exact Hok].
    destruct (Qle_bool _ _); [|exact Hok].
    apply retry_loop_open_ok. discriminate.
  - apply retry_loop_open_ok. congruence.
Qed.

Lemma init_key_open_ok (s : @FailoverStrategy.t V E) (key : string) :
  (forall k, FailoverStrategy.open_ok s k) ->
  forall k, FailoverStrategy.open_ok (FailoverStrategy.init_key key s) k.
Proof.
  intros Hok k. unfold FailoverStrategy.init_key.
  destruct (FailoverStrategy.circuit_state s !! key) eqn:Hs; [apply Hok|].
  unfold FailoverStrategy.open_ok. cbn.
  destruct (decide (k = key)) as [->|Hne].
  - rewrite lookup_insert_eq. discriminate.
  - rewrite !lookup_insert_ne by congruence. apply Hok.
Qed.

Lemma put_state_open_ok (s : @FailoverStrategy.t V E) (key st : string) :
  (forall k, FailoverStrategy.open_ok s k) ->
  forall k, k <> key ->
            FailoverStrategy.open_ok (FailoverStrategy.put_state key st s) k.
Proof.
  intros Hok k Hne. unfold FailoverStrategy.open_ok. cbn.
  rewrite lookup_insert_ne by congruence. apply Hok.
Qed.

(** The [try] block, entered with the circuit of [key] not open. *)
Lemma attempt_open_ok (ev : env V E) (key : string) (current_time : Q)
    (s : FailoverStrategy.t) (w : world) :
  FailoverStrategy.circuit_state s !! key
    <> Some FailoverStrategy.CircuitBreakerState.OPEN ->
  (forall k, k <> key -> FailoverStrategy.open_ok s k) ->
  forall k,
    FailoverStrategy.open_ok
      (FailoverStrategy.attempt str is_Exception ev key current_time s w).1.2 k.
Proof.
  intros Hkey Hok k.
  assert (Hsame : FailoverStrategy.open_ok s k).
  { destruct (decide (k = key)) as [->|Hne]; [|now apply Hok].
    intros Ho. contradiction. }
  destruct (op ev (calls w)) as [v|e] eqn:Ho.
  - rewrite (attempt_success str is_Exception ev key current_time s w v Ho).
    cbn [fst snd]. unfold FailoverStrategy.open_ok.
    destruct (decide (k = key)) as [->|Hne].
    + unfold FailoverStrategy.state_is.
      destruct (FailoverStrategy.circuit_state s !! key) as [st|] eqn:Hst.
      * destruct (String.eqb st _); cbn; rewrite ?lookup_insert_eq, ?Hst;
          intros [= Hopen]; subst st; exfalso; now apply Hkey.
      * cbn. rewrite Hst. discriminate.
    + destruct (FailoverStrategy.state_is key _ s); cbn;
        rewrite ?lookup_insert_ne by congruence; now apply Hok.
  - destruct (is_Exception e) eqn:He.
    + destruct (FailoverStrategy.failures s !! key) as [n|] eqn:Hn.
      * destruct (attempt_failure str is_Exception ev key current_time s w e n
                    Ho He Hn) as (-> & _ & _).
        destruct (record_failure_key str key current_time n e s
                    (snd (invoke ev w))) as (Hf & Hl & Hcs & Hm & _).
        unfold FailoverStrategy.open_ok.
        destruct (decide (k = key)) as [->|Hne].
        -- rewrite Hf, Hl, Hcs, Hm.
           destruct (FailoverStrategy.max_failures s <=? n + 1) eqn:Hth.
           ++ intros _. apply Z.leb_le in Hth. split; [eauto|]. eauto.
           ++ intros Hopen. contradiction.
        -- destruct (record_failure_other str key k current_time n e s
                       (snd (invoke ev w)) Hne) as (Hf' & Hl' & Hcs').
           rewrite Hf', Hl', Hcs', Hm. now apply Hok.
      * unfold FailoverStrategy.attempt. cbn [invoke].
        rewrite Ho, He, Hn. exact Hsame.
    + rewrite (attempt_not_Exception str is_Exception ev key current_time s w e
                 Ho He). exact Hsame.
Qed.

Lemma wrapper_open_ok (ev : env V E) (key : string)
    (s : FailoverStrategy.t) (w : world) :
  (forall k, FailoverStrategy.open_ok s k) ->
  forall k,
    FailoverStrategy.open_ok
      (FailoverStrategy.wrapper str is_Exception ev key s w).1.2 k.
Proof.
  intros Hok. pose proof (init_key_open_ok s key Hok) as Hok0.
  unfold FailoverStrategy.wrapper. cbn [time_time].
  set (s0 := FailoverStrategy.init_key key s) in *.
  destruct (FailoverStrategy.state_is key _ s0) eqn:Hopen.
  - destruct (Qltb _ _).
    + destruct (FailoverStrategy.fallback_handlers s0 !! key); exact Hok0.
    + apply attempt_open_ok.
      * cbn. rewrite lookup_insert_eq. discriminate.
      * now apply put_state_open_ok.
  - apply attempt_open_ok; [|intros k _; apply Hok0].
    unfold FailoverStrategy.state_is in Hopen. intros Hs.
    rewrite Hs in Hopen. discriminate.
Qed.

Lemma reset_circuit_open_ok (key : option string)
    (s : @FailoverStrategy.t V E) :
  (forall k, FailoverStrategy.open_ok s k) ->
  forall k, FailoverStrategy.open_ok (FailoverStrategy.reset_circuit key s) k.
Proof.
  intros Hok k. unfold FailoverStrategy.reset_circuit, FailoverStrategy.open_ok.
  destruct key as [key|]; [destruct (String.eqb key "")|]; cbn;
    rewrite ?lookup_empty; try discriminate.
  destruct (decide (k = key)) as [->|Hne].
  - rewrite lookup_insert_eq. discriminate.
  - rewrite !lookup_insert_ne by congruence. apply Hok.
Qed.

(** C9.  In every reachable state an open circuit has its last failure time
    set and its failure counter at or above the threshold: for a
    [RetryHandler] after any sequence of [retry] calls, and for every key of
    a [FailoverStrategy] after any sequence of wrapped calls, fallback
    registrations and resets, as [get_circuit_status] reports it. *)
Theorem open_circuit_invariant :
  (forall h : RetryHandler.t,
      RetryHandler.reachable (V:=V) str is_Exception h ->
      RetryHandler._circuit_state h = RetryHandler.OPEN ->
      is_Some (RetryHandler._last_failure_time h)
      /\ RetryHandler._circuit_failure_threshold h
         <= RetryHandler._failure_count h)
  /\
  (forall (s : @FailoverStrategy.t V E) (key : string),
      FailoverStrategy.reachable str is_Exception s ->
      let status := FailoverStrategy.get_circuit_status key s in
      FailoverStrategy.state status = FailoverStrategy.CircuitBreakerState.OPEN ->
      is_Some (FailoverStrategy.status_last_failure_time status)
      /\ FailoverStrategy.max_failures s
         <= FailoverStrategy.status_failures status).
Proof.
  split.
  - intros h Hr. change (RetryHandler.open_ok h).
    induction Hr as [| ev h w _ IH].
    + intros Ho. discriminate.
    + now apply retry_open_ok.
  - intros s key Hr.
    assert (Hok : forall k, FailoverStrategy.open_ok s k).
    { induction Hr as [| ev key' s w _ IH | name fb s _ IH | key' s _ IH].
      - intros k Ho. cbn in Ho. rewrite lookup_empty in Ho. discriminate.
      - now apply wrapper_open_ok.
      - exact IH.
      - now apply reset_circuit_open_ok. }
    cbn. intros Hopen.
    destruct (FailoverStrategy.circuit_state s !! key) as [st|] eqn:Hst;
      cbn in Hopen; [subst st|discriminate].
    destruct (Hok key Hst) as (Hl & n & Hn & Hle).
    rewrite Hn. cbn. split; assumption.
Qed.

Lemma spec_clamped_delay_nonneg (strategy : RetryHandler.RetryStrategy)
    (base_delay max_delay : Q) (attempt : Z) :
  1 <= attempt -> (0 <= base_delay)%Q -> (0 <= max_delay)%Q ->
  (0 <= spec_clamped_delay strategy base_delay max_delay attempt)%Q.
Proof.
  intros Ha Hb Hm. unfold spec_clamped_delay.
  apply Q.min_glb; [|exact Hm].
  destruct strategy; cbn [spec_strategy_delay].
  - exact Hb.
  - apply Qmult_le_0_compat; [exact Hb|].
    change 0%Q with (inject_Z 0). rewrite <- Zle_Qle. lia.
  - apply Qmult_le_0_compat; [exact Hb|]. now apply Qpower_0_le.
  - apply Qmult_le_0_compat; [exact Hb|]. now apply Qpower_0_le.
Qed.

(** C6.  Within the range of a float, [RetryHandler._calculate_delay]
    computes the backoff formula of the specification: for every attempt
    from 1 on whose strategy factor fits a float (every attempt for CONSTANT,
    up to 1024 for EXPONENTIAL, up to 1475 for FIBONACCI, below
    [2^1024 - 2^970] for LINEAR) it returns the strategy's formula
    (constant, linear, power of two, power of 1.618), clamped to the maximum
    delay, plus a jitter term that is the image of the random draw in the
    interval of plus or minus jitter times the clamped delay, floored at 0.
    The result is never negative; with a jitter of 0 it is the floored
    clamped formula, and the clamped formula itself when base and maximum
    delay are not negative.  The delay is a function of the handler's
    configuration, the attempt number and the random draw alone.
    [FailoverStrategy._calculate_backoff] has a formula of its own:
    under "exponential" two to the attempt (not to the attempt minus one, and
    without a base delay) clamped to the reset timeout, plus a jitter term
    between 0 and a tenth of the clamped value, so never below it; under
    "linear" five times the attempt clamped to the reset timeout, without
    jitter; under any other strategy the reset timeout. *)
Theorem backoff_delay_formula :
  (forall (h : @RetryHandler.t E) (attempt : Z) (r : Q),
      1 <= attempt ->
      RetryHandler.attempt_in_float_range (RetryHandler._backoff_strategy h)
        attempt ->
      let clamped :=
        spec_clamped_delay (RetryHandler._backoff_strategy h)
          (RetryHandler._base_delay h) (RetryHandler._max_delay h) attempt in
      let jitter_term := spec_jitter_term (RetryHandler._jitter h) clamped r in
      exists delay,
        RetryHandler._calculate_delay h attempt r = Some delay
        /\ RetryHandler.strategy_delay h attempt
           = Some (spec_strategy_delay (RetryHandler._backoff_strategy h)
                     (RetryHandler._base_delay h) attempt)
        /\ (delay
            == spec_backoff_delay (RetryHandler._backoff_strategy h)
                 (RetryHandler._base_delay h) (RetryHandler._max_delay h)
                 (RetryHandler._jitter h) attempt r)%Q
        /\ (delay == Qmax 0 (clamped + jitter_term))%Q
        /\ ((0 <= r)%Q -> (r <= 1)%Q -> (0 <= RetryHandler._jitter h)%Q ->
            (0 <= clamped)%Q ->
            (- (RetryHandler._jitter h * clamped) <= jitter_term)%Q
            /\ (jitter_term <= RetryHandler._jitter h * clamped)%Q)
        /\ (0 <= delay)%Q
        /\ ((RetryHandler._jitter h == 0)%Q -> (delay == Qmax 0 clamped)%Q)
        /\ ((RetryHandler._jitter h == 0)%Q ->
            (0 <= RetryHandler._base_delay h)%Q ->
            (0 <= RetryHandler._max_delay h)%Q ->
            (delay == clamped)%Q))
  /\
  (forall (s : @FailoverStrategy.t V E) (attempt : Z) (r : Q),
      let clamped :=
        Qmin (FailoverStrategy.reset_timeout s) (2 ^ attempt) in
      (FailoverStrategy.backoff_strategy s = "exponential"%string ->
       (FailoverStrategy._calculate_backoff s attempt r
        == clamped + (1 # 10) * clamped * r)%Q
       /\ ((0 <= clamped)%Q -> (0 <= r)%Q -> (r <= 1)%Q ->
           (clamped <= FailoverStrategy._calculate_backoff s attempt r)%Q
           /\ (FailoverStrategy._calculate_backoff s attempt r
               <= clamped + (1 # 10) * clamped)%Q))
      /\ (FailoverStrategy.backoff_strategy s = "linear"%string ->
          FailoverStrategy._calculate_backoff s attempt r
          = Qmin (FailoverStrategy.reset_timeout s) (inject_Z (attempt * 5)))
      /\ (FailoverStrategy.backoff_strategy s <> "exponential"%string ->
          FailoverStrategy.backoff_strategy s <> "linear"%string ->
          FailoverStrategy._calculate_backoff s attempt r
          = FailoverStrategy.reset_timeout s)).
Proof.
  split.
  - intros h attempt r Ha Hin clamped jitter_term.
    pose proof (strategy_delay_in_range h attempt Ha Hin) as Hstrat.
    exists (RetryHandler.clamp_and_jitter h
              (spec_strategy_delay (RetryHandler._backoff_strategy h)
                 (RetryHandler._base_delay h) attempt) r).
    set (delay := RetryHandler.clamp_and_jitter h _ r).
    assert (Hcalc : (delay == Qmax 0 (clamped + jitter_term))%Q).
    { unfold delay, RetryHandler.clamp_and_jitter.
      fold (spec_clamped_delay (RetryHandler._backoff_strategy h)
              (RetryHandler._base_delay h) (RetryHandler._max_delay h) attempt).
      fold clamped. apply Q.max_compat; [reflexivity|].
      unfold jitter_term, spec_jitter_term, uniform. ring. }
    assert (Hzero : (RetryHandler._jitter h == 0)%Q ->
                    (delay == Qmax 0 clamped)%Q).
    { intros Hj. rewrite Hcalc. apply Q.max_compat; [reflexivity|].
      unfold jitter_term, spec_jitter_term, uniform. rewrite Hj. ring. }
    split; [now apply calculate_delay_in_range|].
    split; [exact Hstrat|]. split; [exact Hcalc|]. split; [exact Hcalc|].
    split; [|split; [|split; [exact Hzero|]]].
    + intros Hr0 Hr1 Hj Hc.
      assert (Hjc : (0 <= RetryHandler._jitter h * clamped)%Q)
        by now apply Qmult_le_0_compat.
      unfold jitter_term, spec_jitter_term, uniform.
      set (a := (RetryHandler._jitter h * clamped)%Q) in *.
      assert (Har : (0 <= a * r)%Q) by now apply Qmult_le_0_compat.
      assert (Har1 : (a * r <= a)%Q).
      { nra. }
      split; lra.
    + rewrite Hcalc. apply Q.le_max_l.
    + intros Hj Hb Hm. rewrite (Hzero Hj). apply Q.max_r.
      now apply spec_clamped_delay_nonneg.
  - intros s attempt r clamped. split; [|split].
    + intros Hb.
      assert (Heq : (FailoverStrategy._calculate_backoff s attempt r
                     == clamped + (1 # 10) * clamped * r)%Q).
      { unfold FailoverStrategy._calculate_backoff, uniform. rewrite Hb.
        change (String.eqb "exponential" "exponential") with true.
        cbv iota zeta. fold clamped. ring. }
      split; [exact Heq|]. intros Hc Hr0 Hr1. rewrite Heq.
      assert (Hcr : (0 <= clamped * r)%Q) by now apply Qmult_le_0_compat.
      assert (Hcr1 : (clamped * r <= clamped)%Q) by nra.
      split; lra.
    + intros Hb. unfold FailoverStrategy._calculate_backoff. rewrite Hb.
      reflexivity.
    + intros Hexp Hlin. unfold FailoverStrategy._calculate_backoff.
      apply String.eqb_neq in Hexp, Hlin. now rewrite Hexp, Hlin.
Qed.

End Properties.

(** ** The statements at concrete runs *)

(** C1 at a tripped handler and a tripped strategy (with and without a
    fallback), five calls in a row, all within the reset timeout. *)
Lemma open_circuit_never_invokes_operation_witness :
  (let run := repeat_call
                (RetryHandler.retry Examples.str Examples.always_fails) 5
                (Examples.tripped 3) world0 in
   run.1.1 = repeat (Err RetryHandler.circuit_is_open) 5
   /\ run.1.2 = Examples.tripped 3
   /\ calls run.2 = 0%nat)
  /\
  (let s := Examples.tripped_strategy {[ "f"%string := Examples.fallback_ok ]} in
   let run := repeat_call
                (FailoverStrategy.wrapper Examples.str Examples.is_Exception
                   Examples.always_fails "f") 5 s world0 in
   run.1.1 = repeat (Ok 7) 5 /\ run.1.2 = s /\ calls run.2 = 0%nat).
Proof.
  destruct (@open_circuit_never_invokes_operation Z string Examples.str
              Examples.is_Exception) as [HR HF].
  split.
  - apply (HR Examples.always_fails (Examples.tripped 3) world0
              (inject_Z 1000) 5%nat); [reflexivity|reflexivity|].
    intros i Hi.
    do 5 (destruct i as [|i]; [vm_compute; reflexivity|]). lia.
  - refine (HF Examples.always_fails
               (Examples.tripped_strategy
                  {[ "f"%string := Examples.fallback_ok ]})
               "f"%string world0 5%nat eq_refl _).
    intros i Hi.
    do 5 (destruct i as [|i]; [vm_compute; reflexivity|]). lia.
Defined.

(** C2 at fresh objects with a threshold of 3. *)
Lemma circuit_trips_at_third_failure_witness :
  (let run := RetryHandler.retry Examples.str Examples.always_fails
                (Examples.fresh 5 3 None) world0 in
   RetryHandler._circuit_state run.1.2 = RetryHandler.OPEN
   /\ RetryHandler._failure_count run.1.2 = 3
   /\ RetryHandler._last_failure_time run.1.2 = Some (inject_Z 1000)
   /\ calls run.2 = 3%nat)
  /\
  (let run := repeat_call (RetryHandler.retry Examples.str Examples.always_fails)
                2 (Examples.fresh 1 3 None) world0 in
   RetryHandler._circuit_state run.1.2 = RetryHandler.CLOSED
   /\ RetryHandler._failure_count run.1.2 = 2)
  /\
  (let run := repeat_call
                (FailoverStrategy.wrapper Examples.str Examples.is_Exception
                   Examples.always_fails "f") 3 Examples.fresh_strategy world0 in
   FailoverStrategy.get_circuit_status "f" run.1.2
   = FailoverStrategy.mkStatus FailoverStrategy.CircuitBreakerState.OPEN 3
       (Some (inject_Z 1002))
   /\ calls run.2 = 3%nat).
Proof.
  destruct (@circuit_trips_at_third_failure Z string Examples.str
              Examples.is_Exception "ConnectionError"%string
              Examples.always_fails world0 (fun _ => eq_refl)) as [HR HF].
  split; [|split].
  - destruct (HR (Examples.fresh 5 3 None) eq_refl eq_refl eq_refl eq_refl)
      as [Hmulti _].
    destruct (Hmulti ltac:(vm_compute; discriminate))
      as (_ & _ & _ & _ & Hs & Hc & Hl & Hk).
    repeat split; assumption.
  - destruct (HR (Examples.fresh 1 3 None) eq_refl eq_refl eq_refl eq_refl)
      as [_ Hsingle].
    destruct (Hsingle eq_refl) as (_ & Hs & Hc & _).
    split; assumption.
  - destruct (HF Examples.fresh_strategy "f"%string eq_refl eq_refl eq_refl)
      as (_ & _ & Hst & Hk).
    split; assumption.
Defined.

(** C3 at [RetryHandler(max_retries=1100, circuit_failure_threshold=2000)]
    and an operation that always raises a retryable error: the call ends at
    the 1025th failure with [OverflowError], with 75 attempts left and the
    counter 975 below the threshold.  At the first attempt the same failure
    is followed by the second attempt. *)
Lemma retryable_failure_surfaces_on_trip_exhaustion_or_overflow_witness :
  (let run := RetryHandler.retry Examples.str Examples.always_fails
                Examples.long_retry_handler world0 in
   run.1.1 = Err OverflowError
   /\ calls run.2 = 1025%nat
   /\ RetryHandler._failure_count run.1.2 = 1025
   /\ RetryHandler._circuit_state run.1.2 = RetryHandler.CLOSED
   /\ length (slept run.2) = 1024%nat)
  /\
  (~ RetryHandler.attempt_in_float_range RetryHandler.EXPONENTIAL 1025
   /\ RetryHandler._calculate_delay Examples.long_retry_handler 1025 0 = None)
  /\
  (exists w1,
      RetryHandler.retry_loop Examples.str Examples.always_fails (range 1 4)
        (Examples.fresh 3 5 None) world0
      = RetryHandler.retry_loop Examples.str Examples.always_fails (range 2 4)
          (RetryHandler.set_failure_count 1 (Examples.fresh 3 5 None)) w1
      /\ calls w1 = 1%nat
      /\ events w1 = [Sleep 1; LogRetry 1 "ConnectionError" 1])
  /\
  (let run := FailoverStrategy.attempt Examples.str Examples.is_Exception
                Examples.always_fails "f" 1000
                (FailoverStrategy.init_key "f" Examples.fresh_strategy) world0 in
   calls run.2 = 1%nat /\ run.1.1 = Err (Propagated "ConnectionError"%string)).
Proof.
  destruct (@retryable_failure_surfaces_on_trip_exhaustion_or_overflow Z string
              Examples.str Examples.is_Exception Examples.always_fails
              "ConnectionError"%string) as (HR & Hrange & Hrun & HF).
  split; [|split; [|split]].
  - refine (Hrun Examples.long_retry_handler world0 1024%nat
              ltac:(discriminate) _ eq_refl eq_refl
              ltac:(vm_compute; discriminate)
              ltac:(intros Hle; exact (Hle eq_refl))).
    intros i _. exists "ConnectionError"%string. split; reflexivity.
  - assert (Hout : ~ RetryHandler.attempt_in_float_range
                       RetryHandler.EXPONENTIAL 1025)
      by (intros Hle; exact (Hle eq_refl)).
    split; [exact Hout|].
    exact (proj2 (Hrange Examples.long_retry_handler 1025 0%Q
                    ltac:(vm_compute; discriminate)) Hout).
  - exact (HR (Examples.fresh 3 5 None) world0 1 eq_refl eq_refl
              ltac:(vm_compute; split; discriminate)).
  - exact (HF (FailoverStrategy.init_key "f" Examples.fresh_strategy)
              "f"%string 1000%Q world0 0 eq_refl eq_refl eq_refl).
Defined.

(** C4 at a tripped handler and a tripped strategy, an hour after the
    failure. *)
Lemma half_open_probe_witness :
  (let run := RetryHandler.retry Examples.str Examples.probe_succeeds
                (Examples.tripped 3) world0 in
   run.1.1 = Ok (Some 42)
   /\ RetryHandler._circuit_state run.1.2 = RetryHandler.CLOSED
   /\ RetryHandler._failure_count run.1.2 = 0
   /\ calls run.2 = 1%nat)
  /\
  (let run := RetryHandler.retry Examples.str Examples.probe_fails
                (Examples.tripped 3) world0 in
   RetryHandler._circuit_state run.1.2 = RetryHandler.OPEN
   /\ calls run.2 = 1%nat)
  /\
  (let run := FailoverStrategy.wrapper Examples.str Examples.is_Exception
                Examples.probe_fails "f" (Examples.tripped_strategy ∅) world0 in
   FailoverStrategy.get_circuit_status "f" run.1.2
   = FailoverStrategy.mkStatus FailoverStrategy.CircuitBreakerState.OPEN 4
       (Some (inject_Z 4600))
   /\ calls run.2 = 1%nat).
Proof.
  split; [|split].
  - destruct (proj1 (@half_open_probe Z string Examples.str
                       Examples.is_Exception Examples.probe_succeeds)
                (Examples.tripped 3) world0 (inject_Z 1000) eq_refl eq_refl
                ltac:(vm_compute; discriminate) ltac:(vm_compute; discriminate)
                ltac:(vm_compute; discriminate))
      as (_ & Hc & Hok & _).
    destruct (Hok 42 eq_refl) as (Hr & Hs & Hn).
    repeat split; assumption.
  - destruct (proj1 (@half_open_probe Z string Examples.str
                       Examples.is_Exception Examples.probe_fails)
                (Examples.tripped 3) world0 (inject_Z 1000) eq_refl eq_refl
                ltac:(vm_compute; discriminate) ltac:(vm_compute; discriminate)
                ltac:(vm_compute; discriminate))
      as (_ & Hc & _ & Hfail).
    destruct (Hfail "ConnectionError"%string eq_refl eq_refl) as (_ & Hs & _).
    split; assumption.
  - destruct (proj2 (@half_open_probe Z string Examples.str
                       Examples.is_Exception Examples.probe_fails)
                (Examples.tripped_strategy ∅) "f"%string world0 3 eq_refl
                ltac:(vm_compute; discriminate) eq_refl
                ltac:(vm_compute; discriminate))
      as (_ & Hc & _ & Hfail).
    split; [|exact Hc].
    exact (Hfail "ConnectionError"%string eq_refl eq_refl).
Defined.

(** C5 as the specification words it fails: the operation raises
    [ConnectionError], the registered fallback is invoked and raises
    [FallbackError], and the call raises [ConnectionError]. *)
Lemma fallback_failure_replaced_by_original :
  ~ @fallback_failure_propagates_unmodified Z string
      Examples.str Examples.is_Exception.
Proof.
  intros Hclaim.
  specialize (Hclaim Examples.always_fails
                (FailoverStrategy.register_fallback "f" Examples.fallback_fails
                   Examples.fresh_strategy)
                "f"%string world0 Examples.fallback_fails
                "FallbackError"%string eq_refl eq_refl eq_refl).
  vm_compute in Hclaim. discriminate Hclaim.
Qed.

(** C5 as the code has it, at the same run and at an open circuit. *)
Lemma fallback_failure_handling_witness :
  (let run := FailoverStrategy.wrapper Examples.str Examples.is_Exception
                Examples.always_fails "f"
                (Examples.tripped_strategy
                   {[ "f"%string := Examples.fallback_fails ]}) world0 in
   run.1.1 = Err (Propagated "FallbackError"%string)
   /\ fb_calls run.2 = 1%nat /\ calls run.2 = 0%nat)
  /\
  (let run := FailoverStrategy.attempt Examples.str Examples.is_Exception
                Examples.always_fails "f" 1000
                (FailoverStrategy.register_fallback "f" Examples.fallback_fails
                   (FailoverStrategy.init_key "f" Examples.fresh_strategy))
                world0 in
   run.1.1 = Err (Propagated "ConnectionError"%string)
   /\ fb_calls run.2 = 1%nat /\ calls run.2 = 1%nat).
Proof.
  destruct (@fallback_failure_handling Z string Examples.str
              Examples.is_Exception Examples.always_fails) as [Hopen Hfail].
  split.
  - exact (Hopen (Examples.tripped_strategy
                    {[ "f"%string := Examples.fallback_fails ]})
             "f"%string world0 Examples.fallback_fails "FallbackError"%string
             eq_refl ltac:(vm_compute; reflexivity) eq_refl eq_refl).
  - destruct (Hfail (FailoverStrategy.register_fallback "f"
                       Examples.fallback_fails
                       (FailoverStrategy.init_key "f" Examples.fresh_strategy))
                "f"%string 1000%Q world0 0 "ConnectionError"%string
                Examples.fallback_fails "FallbackError"%string
                eq_refl eq_refl eq_refl eq_refl eq_refl)
      as (Hr & Hf & Hc & _).
    repeat split; assumption.
Defined.

(** The sentence of C6 fails on both functions it is about.  On the handler
    of [adapters/github_integration.py], [_calculate_delay] returns no delay
    at attempt 1025.  On a fresh [FailoverStrategy] (reset timeout 60,
    "exponential"), [_calculate_backoff] gives 63 at attempt 6 for the draw
    in the middle, where the jitter term of the formula is 0 and its clamped
    delay at most 60, whatever the base delay and the jitter fraction. *)
Lemma backoff_formula_fails_on_both_functions :
  ~ @calculate_delay_follows_backoff_formula string
  /\ ~ @calculate_backoff_follows_backoff_formula Z string.
Proof.
  split.
  - intros Hclaim.
    destruct (Hclaim Examples.github_retry_handler 1025 0%Q
                ltac:(vm_compute; discriminate)) as (delay & Hd & _).
    rewrite calculate_delay_out_of_range in Hd;
      [discriminate | vm_compute; discriminate
      | intros Hle; exact (Hle eq_refl)].
  - intros Hclaim.
    destruct (Hclaim Examples.fresh_strategy eq_refl) as (b & j & H).
    specialize (H 6 (1 # 2) ltac:(vm_compute; discriminate)
                  ltac:(discriminate) eq_refl).
    assert (Hcode : (FailoverStrategy._calculate_backoff
                       Examples.fresh_strategy 6 (1 # 2) == 63)%Q)
      by (vm_compute; reflexivity).
    rewrite Hcode in H.
    unfold spec_backoff_delay, spec_jitter_term, uniform in H.
    set (c := spec_clamped_delay _ _ _ _) in H.
    assert (Hc : (c <= 60)%Q) by apply Q.le_min_r.
    set (x := (j * c)%Q) in H.
    assert (Hm : (Qmax 0 (c + (- x + (x - - x) * (1 # 2))) <= 60)%Q)
      by (apply Q.max_lub; [discriminate | lra]).
    rewrite <- H in Hm. exact (Hm eq_refl).
Qed.

(** C6 at the third attempt of an exponential backoff with base 1, maximum
    60 and 10% jitter, for the draw in the middle of the interval, and at
    the third attempt of a fresh "exponential" [FailoverStrategy]. *)
Lemma backoff_delay_formula_witness :
  let h := RetryHandler.mk 5 1 60 RetryHandler.EXPONENTIAL (1 # 10) 5 30
             Examples.is_Exception 0 RetryHandler.CLOSED None in
  1 <= 3
  /\ RetryHandler.attempt_in_float_range RetryHandler.EXPONENTIAL 3
  /\ (exists delay,
        RetryHandler._calculate_delay h 3 (1 # 2) = Some delay
        /\ (delay
            == spec_backoff_delay RetryHandler.EXPONENTIAL 1 60 (1 # 10) 3
                 (1 # 2))%Q
        /\ (0 <= delay)%Q
        /\ (delay == 4)%Q)
  /\ (FailoverStrategy._calculate_backoff Examples.fresh_strategy 3 (1 # 2)
      == 8 + (1 # 10) * 8 * (1 # 2))%Q.
Proof.
  intros h.
  assert (H13 : 1 <= 3) by (vm_compute; discriminate).
  assert (Hin : RetryHandler.attempt_in_float_range RetryHandler.EXPONENTIAL 3)
    by (vm_compute; discriminate).
  destruct (@backoff_delay_formula Z string) as [HR HF].
  split; [exact H13|]. split; [exact Hin|]. split.
  - destruct (HR h 3 (1 # 2) H13 Hin)
      as (delay & Hd & _ & Hspec & _ & _ & Hpos & _).
    exists delay. split; [exact Hd|]. split; [exact Hspec|].
    split; [exact Hpos|].
    rewrite Hspec. vm_compute. reflexivity.
  - destruct (HF Examples.fresh_strategy 3 (1 # 2)) as [Hexp _].
    destruct (Hexp eq_refl) as [Heq _].
    rewrite Heq. vm_compute. reflexivity.
Defined.


(** C8 as the specification words it fails: the context of the error holds
    the last error only. *)
Lemma exhausted_error_context_lacks_attempts :
  ~ @exhausted_error_carries_attempt_count Z string Examples.str.
Proof.
  intros Hclaim.
  destruct (Hclaim Examples.always_fails (Examples.fresh 3 5 None) world0
              "ConnectionError"%string (fun _ => eq_refl)
              eq_refl eq_refl eq_refl eq_refl eq_refl)
    as (x & Hx & _ & Hattempts).
  vm_compute in Hx. injection Hx as <-.
  destruct Hattempts as (v & [Hin | []]). discriminate Hin.
Qed.

(** C8 as the code has it, at a fresh handler. *)
Lemma retries_exhausted_below_threshold_witness :
  let run := RetryHandler.retry Examples.str Examples.always_fails
               (Examples.fresh 3 5 None) world0 in
  run.1.1 = Err (RetryHandlerError "Failed after 3 attempts" 40
                   [("last_error"%string, "ConnectionError"%string)])
  /\ calls run.2 = 3%nat
  /\ RetryHandler._circuit_state run.1.2 = RetryHandler.CLOSED
  /\ RetryHandler._failure_count run.1.2 = 3.
Proof.
  destruct (@retries_exhausted_below_threshold Z string Examples.str
              Examples.always_fails (Examples.fresh 3 5 None) world0
              "ConnectionError"%string (fun _ => eq_refl)
              eq_refl eq_refl eq_refl eq_refl eq_refl)
    as (Hr & Hc & Hs & Hn & _).
  repeat split; assumption.
Defined.

(** C9 at the handler and the strategy that three failures have tripped. *)
Lemma open_circuit_invariant_witness :
  (let h := (RetryHandler.retry Examples.str Examples.always_fails
               (Examples.fresh 5 3 None) world0).1.2 in
   RetryHandler._circuit_state h = RetryHandler.OPEN
   /\ is_Some (RetryHandler._last_failure_time h)
   /\ RetryHandler._circuit_failure_threshold h
      <= RetryHandler._failure_count h)
  /\
  (let call s := (FailoverStrategy.wrapper Examples.str Examples.is_Exception
                    Examples.always_fails "f" s world0).1.2 in
   let status := FailoverStrategy.get_circuit_status "f"
                   (call (call (call Examples.fresh_strategy))) in
   FailoverStrategy.state status = FailoverStrategy.CircuitBreakerState.OPEN
   /\ is_Some (FailoverStrategy.status_last_failure_time status)
   /\ FailoverStrategy.max_failures (call (call (call Examples.fresh_strategy)))
      <= FailoverStrategy.status_failures status).
Proof.
  destruct (@open_circuit_invariant Z string Examples.str
              Examples.is_Exception) as [HR HF].
  split.
  - split; [reflexivity|].
    apply HR; [|reflexivity].
    apply RetryHandler.reachable_retry, RetryHandler.reachable_init.
  - split; [reflexivity|].
    apply HF; [|reflexivity].
    do 3 apply FailoverStrategy.reachable_call.
    apply FailoverStrategy.reachable_init.
Defined.

(** C10 at [max_retries = 0]. *)
Lemma retry_without_attempts_returns_None_witness :
  let h := Examples.fresh 0 5 None in
  RetryHandler._max_retries h = 0
  /\ RetryHandler.retry Examples.str Examples.always_succeeds h world0
     = (Ok None, h, world0).
Proof.
  exact (proj2 (@retry_without_attempts_returns_None Z string Examples.str
                  Examples.is_Exception)
           Examples.always_succeeds world0 0 1%Q 60%Q RetryHandler.EXPONENTIAL
           0%Q 5 30%Q None ltac:(vm_compute; reflexivity)).
Defined.

(** ** Further properties of the code *)

Section Further.
Context {V E : Type}.
Variable str : E -> string.
Variable is_Exception : E -> bool.

Lemma slept_emit_LogWarning (m : string) (w : world) :
  slept (emit (LogWarning m) w) = slept w.
Proof. reflexivity. Qed.

Lemma length_range (lo hi : Z) : length (range lo hi) = Z.to_nat (hi - lo).
Proof. unfold range. now rewrite length_map, length_seq. Qed.

(** The six ways one pass of [RetryHandler]'s loop can go, as a case
    distinction. *)
Lemma retry_attempt_cases (ev : env V E) (attempt : Z) (h : RetryHandler.t)
    (w : world) :
  (exists v, op ev (calls w) = Returns v
     /\ RetryHandler.retry_attempt str ev attempt h w
        = (Some (Ok (Some v)),
           RetryHandler.set_failure_count 0
             (if RetryHandler.CircuitState_eqb (RetryHandler._circuit_state h)
                   RetryHandler.HALF_OPEN
              then RetryHandler.set_circuit_state RetryHandler.CLOSED h else h),
           snd (invoke ev w)))
  \/ (exists e, op ev (calls w) = Raises e
        /\ RetryHandler._retry_on h e = false
        /\ RetryHandler.retry_attempt str ev attempt h w
           = (Some (Err (Propagated e)), h, snd (invoke ev w)))
  \/ (exists e, op ev (calls w) = Raises e
        /\ RetryHandler._retry_on h e = true
        /\ RetryHandler._circuit_failure_threshold h
           <= RetryHandler._failure_count h + 1
        /\ RetryHandler.retry_attempt str ev attempt h w
           = (Some (Err (RetryHandler.circuit_opened str
                           (RetryHandler._failure_count h + 1) e)),
              RetryHandler.set_last_failure_time
                (Some (time ev (clock_reads w)))
                (RetryHandler.set_circuit_state RetryHandler.OPEN
                   (RetryHandler.set_failure_count
                      (RetryHandler._failure_count h + 1) h)),
              snd (time_time ev (snd (invoke ev w)))))
  \/ (exists e, op ev (calls w) = Raises e
        /\ RetryHandler._retry_on h e = true
        /\ RetryHandler._failure_count h + 1
           < RetryHandler._circuit_failure_threshold h
        /\ attempt = RetryHandler._max_retries h
        /\ RetryHandler.retry_attempt str ev attempt h w
           = (Some (Err (RetryHandler.failed_after str
                           (RetryHandler._max_retries h) e)),
              RetryHandler.set_failure_count
                (RetryHandler._failure_count h + 1) h,
              snd (invoke ev w)))
  \/ (exists e delay, op ev (calls w) = Raises e
        /\ RetryHandler._retry_on h e = true
        /\ RetryHandler._failure_count h + 1
           < RetryHandler._circuit_failure_threshold h
        /\ attempt <> RetryHandler._max_retries h
        /\ RetryHandler._calculate_delay h attempt (random ev (draws w))
           = Some delay
        /\ RetryHandler.retry_attempt str ev attempt h w
           = (None,
              RetryHandler.set_failure_count
                (RetryHandler._failure_count h + 1) h,
              emit (Sleep delay)
                (emit (LogRetry attempt (str e) delay)
                   (snd (random_random ev (snd (invoke ev w)))))))
  \/ (exists e, op ev (calls w) = Raises e
        /\ RetryHandler._retry_on h e = true
        /\ RetryHandler._failure_count h + 1
           < RetryHandler._circuit_failure_threshold h
        /\ attempt <> RetryHandler._max_retries h
        /\ RetryHandler._calculate_delay h attempt (random ev (draws w))
           = None
        /\ RetryHandler.retry_attempt str ev attempt h w
           = (Some (Err OverflowError),
              RetryHandler.set_failure_count
                (RetryHandler._failure_count h + 1) h,
              snd (invoke ev w))).
Proof.
  destruct (op ev (calls w)) as [v|e] eqn:Ho.
  - left. exists v. split; [reflexivity|].
    now apply retry_attempt_success.
  - right. destruct (RetryHandler._retry_on h e) eqn:Hr.
    + right.
      destruct (Z_le_gt_dec (RetryHandler._circuit_failure_threshold h)
                  (RetryHandler._failure_count h + 1)) as [Hth|Hth].
      * left. exists e. repeat split; try assumption.
        now apply retry_attempt_trip.
      * right.
        destruct (Z.eq_dec attempt (RetryHandler._max_retries h)) as [Ha|Ha].
        -- left. exists e. repeat split; try assumption; [lia|].
           apply retry_attempt_exhausted; try assumption. lia.
        -- right.
           destruct (RetryHandler._calculate_delay h attempt
                       (random ev (draws w))) as [delay|] eqn:Hd.
           ++ left. exists e, delay. repeat split; try assumption; [lia|].
              apply (RetryHandler_backoff_step str ev attempt h w e delay);
                try assumption. lia.
           ++ right. exists e. repeat split; try assumption; [lia|].
              apply (retry_attempt_overflow str ev attempt h w e);
                try assumption. lia.
    + left. exists e. repeat split; try assumption.
      now apply retry_attempt_not_retryable.
Qed.

(** Every pass invokes the operation exactly once and keeps the
    configuration. *)
Lemma retry_attempt_frame (ev : env V E) (attempt : Z) (h : RetryHandler.t)
    (w : world) :
  let run := RetryHandler.retry_attempt str ev attempt h w in
  calls run.2 = S (calls w)
  /\ fb_calls run.2 = fb_calls w
  /\ RetryHandler.same_config h run.1.2.
Proof.
  cbv zeta.
  destruct (retry_attempt_cases ev attempt h w)
    as [(v & _ & ->) | [(e & _ & _ & ->) | [(e & _ & _ & _ & ->)
       | [(e & _ & _ & _ & _ & ->) | [(e & d & _ & _ & _ & _ & _ & ->)
         | (e & _ & _ & _ & _ & _ & ->)]]]]];
    cbn; try (destruct (RetryHandler.CircuitState_eqb _ _); cbn);
    unfold RetryHandler.same_config; cbn; repeat split.
Qed.

Lemma same_config_trans (h1 h2 h3 : @RetryHandler.t E) :
  RetryHandler.same_config h1 h2 -> RetryHandler.same_config h2 h3 ->
  RetryHandler.same_config h1 h3.
Proof.
  unfold RetryHandler.same_config.
  intros (A1 & A2 & A3 & A4 & A5 & A6 & A7 & A8)
         (B1 & B2 & B3 & B4 & B5 & B6 & B7 & B8).
  repeat split; congruence.
Qed.

Lemma retry_loop_frame (ev : env V E) (l : list Z) (h : RetryHandler.t)
    (w : world) :
  let run := RetryHandler.retry_loop str ev l h w in
  (calls w <= calls run.2 <= calls w + length l)%nat
  /\ fb_calls run.2 = fb_calls w
  /\ RetryHandler.same_config h run.1.2.
Proof.
  revert h w. induction l as [|a l IH]; intros h w; cbn [RetryHandler.retry_loop].
  - cbn. split; [lia|]. split; [reflexivity|apply same_config_refl].
  - pose proof (retry_attempt_frame ev a h w) as Hstep.
    destruct (RetryHandler.retry_attempt str ev a h w) as [[[r|] h1] w1];
      cbn in Hstep |- *; destruct Hstep as (Hc & Hf & Hcfg).
    + split; [lia|]. split; assumption.
    + specialize (IH h1 w1). cbv zeta in IH. destruct IH as (Hc' & Hf' & Hcfg').
      split; [lia|]. split; [congruence|].
      now apply (same_config_trans h h1).
Qed.

(** A call of [RetryHandler.retry] invokes the operation at most
    [_max_retries] times, never invokes a fallback, and leaves the handler's
    configuration as it was: only the failure counter, the circuit state and
    the last failure time can change. *)
Theorem retry_invocation_bound (ev : env V E) (h : RetryHandler.t) (w : world) :
  let run := RetryHandler.retry str ev h w in
  (calls w <= calls run.2
   <= calls w + Z.to_nat (RetryHandler._max_retries h))%nat
  /\ fb_calls run.2 = fb_calls w
  /\ RetryHandler.same_config h run.1.2.
Proof.
  cbv zeta. unfold RetryHandler.retry, RetryHandler.check_circuit.
  destruct (RetryHandler._circuit_state h) eqn:Hs.
  - pose proof (retry_loop_frame ev
                  (range 1 (RetryHandler._max_retries h + 1)) h w) as H.
    rewrite length_range in H. cbv zeta in H.
    replace (RetryHandler._max_retries h + 1 - 1)
      with (RetryHandler._max_retries h) in H by lia. exact H.
  - cbn [time_time].
    destruct (RetryHandler._last_failure_time h) as [last|].
    + destruct (Qle_bool _ _).
      * pose proof (retry_loop_frame ev
                      (range 1 (RetryHandler._max_retries
                                  (RetryHandler.set_circuit_state
                                     RetryHandler.HALF_OPEN h) + 1))
                      (RetryHandler.set_circuit_state RetryHandler.HALF_OPEN h)
                      (snd (time_time ev w))) as H.
        rewrite length_range in H. cbv zeta in H. cbn in H |- *.
        replace (RetryHandler._max_retries h + 1 - 1)
          with (RetryHandler._max_retries h) in H by lia.
        destruct H as (Hc & Hf & Hcfg). split; [exact Hc|].
        split; [exact Hf|]. exact Hcfg.
      * cbn. split; [lia|]. split; [reflexivity|apply same_config_refl].
    + cbn. split; [lia|]. split; [reflexivity|apply same_config_refl].
  - pose proof (retry_loop_frame ev
                  (range 1 (RetryHandler._max_retries h + 1)) h w) as H.
    rewrite length_range in H. cbv zeta in H.
    replace (RetryHandler._max_retries h + 1 - 1)
      with (RetryHandler._max_retries h) in H by lia. exact H.
Qed.

Lemma retry_loop_success (ev : env V E) (l : list Z) (h : RetryHandler.t)
    (w : world) (v : V) :
  RetryHandler._circuit_state h <> RetryHandler.OPEN ->
  let run := RetryHandler.retry_loop str ev l h w in
  run.1.1 = Ok (Some v) ->
  RetryHandler._failure_count run.1.2 = 0
  /\ RetryHandler._circuit_state run.1.2 = RetryHandler.CLOSED
  /\ RetryHandler._last_failure_time run.1.2
     = RetryHandler._last_failure_time h
  /\ (calls w < calls run.2)%nat
  /\ op ev (Nat.pred (calls run.2)) = Returns v.
Proof.
  revert h w. induction l as [|a l IH]; intros h w Hs; cbn [RetryHandler.retry_loop].
  - cbn. discriminate.
  - destruct (retry_attempt_cases ev a h w)
      as [(v' & Ho & ->) | [(e & _ & _ & ->) | [(e & _ & _ & _ & ->)
         | [(e & _ & _ & _ & _ & ->) | [(e & d & _ & _ & _ & _ & _ & ->)
         | (e & _ & _ & _ & _ & _ & ->)]]]]];
      cbn [fst snd]; try discriminate.
    + intros [= <-]. cbn.
      destruct (RetryHandler._circuit_state h) eqn:Hcs; cbn; rewrite ?Hcs;
        try congruence; repeat split; try lia; assumption.
    + set (w' := emit _ _).
      assert (Hw' : calls w' = S (calls w)) by reflexivity.
      intros Hr.
      destruct (IH (RetryHandler.set_failure_count _ h) w' Hs Hr)
        as (Hc & Hst & Hl & Hlt & Hlast).
      repeat split; try assumption. lia.
Qed.

(** When [RetryHandler.retry] returns a value, it is the value the
    operation returned on its last invocation, the failure counter is 0 and
    the circuit is closed, whatever failures came before; the last failure
    time is not cleared. *)
Theorem retry_success_resets_circuit (ev : env V E) (h : RetryHandler.t)
    (w : world) (v : V) :
  let run := RetryHandler.retry str ev h w in
  run.1.1 = Ok (Some v) ->
  RetryHandler._failure_count run.1.2 = 0
  /\ RetryHandler._circuit_state run.1.2 = RetryHandler.CLOSED
  /\ RetryHandler._last_failure_time run.1.2
     = RetryHandler._last_failure_time h
  /\ (calls w < calls run.2)%nat
  /\ op ev (Nat.pred (calls run.2)) = Returns v.
Proof.
  cbv zeta. unfold RetryHandler.retry, RetryHandler.check_circuit.
  destruct (RetryHandler._circuit_state h) eqn:Hs.
  - apply retry_loop_success. congruence.
  - cbn [time_time].
    destruct (RetryHandler._last_failure_time h) as [last|] eqn:Hl;
      [|intros Hr; discriminate Hr].
    destruct (Qle_bool _ _); [|intros Hr; discriminate Hr].
    intros Hr.
    destruct (retry_loop_success ev _
                (RetryHandler.set_circuit_state RetryHandler.HALF_OPEN h) _ v
                ltac:(cbn; discriminate) Hr)
      as (Hc & Hst & Hl' & Hlt & Hlast).
    split; [exact Hc|]. split; [exact Hst|]. split; [etransitivity; [exact Hl'|exact Hl]|].
    split; [exact Hlt|exact Hlast].
  - apply retry_loop_success. congruence.
Qed.

Lemma retry_loop_not_None (ev : env V E) (n : nat) :
  forall (a : Z) (h : RetryHandler.t) (w : world),
    Z.to_nat (RetryHandler._max_retries h - a) = n ->
    a <= RetryHandler._max_retries h ->
    (RetryHandler.retry_loop str ev
       (range a (RetryHandler._max_retries h + 1)) h w).1.1 <> Ok None.
Proof.
  induction n as [|n IH]; intros a h w Hn Ha;
    rewrite (range_cons a) by lia; cbn [RetryHandler.retry_loop];
    destruct (retry_attempt_cases ev a h w)
      as [(v' & Ho & ->) | [(e & _ & _ & ->) | [(e & _ & _ & _ & ->)
         | [(e & _ & _ & _ & _ & ->) | [(e & d & _ & _ & _ & Hne & _ & ->)
         | (e & _ & _ & _ & _ & _ & ->)]]]]];
    cbn [fst snd]; try discriminate.
  - lia.
  - apply (IH (a + 1) (RetryHandler.set_failure_count _ h)); cbn; lia.
Qed.

(** [RetryHandler.retry] falls off its loop and returns [None] only when
    [_max_retries] is below 1, and then the operation was not invoked: with
    at least one attempt configured, a call ends with the operation's value
    or with an exception. *)
Theorem retry_returns_None_only_without_attempts (ev : env V E)
    (h : RetryHandler.t) (w : world) :
  let run := RetryHandler.retry str ev h w in
  run.1.1 = Ok None ->
  RetryHandler._max_retries h < 1 /\ calls run.2 = calls w.
Proof.
  cbv zeta. intros Hr.
  assert (Hm : RetryHandler._max_retries h < 1).
  { destruct (Z_lt_ge_dec (RetryHandler._max_retries h) 1) as [|Hge];
      [assumption|exfalso].
    revert Hr. unfold RetryHandler.retry, RetryHandler.check_circuit.
    destruct (RetryHandler._circuit_state h) eqn:Hs.
    - apply (retry_loop_not_None ev _ 1 h w eq_refl). lia.
    - cbn [time_time].
      destruct (RetryHandler._last_failure_time h) as [last|];
        [|intros Hr; discriminate Hr].
      destruct (Qle_bool _ _); [|intros Hr; discriminate Hr].
      apply (retry_loop_not_None ev _ 1
               (RetryHandler.set_circuit_state RetryHandler.HALF_OPEN h)
               _ eq_refl). cbn. lia.
    - apply (retry_loop_not_None ev _ 1 h w eq_refl). lia. }
  split; [exact Hm|].
  unfold RetryHandler.retry, RetryHandler.check_circuit.
  destruct (RetryHandler._circuit_state h).
  - now rewrite range_nil by lia.
  - cbn [time_time].
    destruct (RetryHandler._last_failure_time h) as [last|]; [|reflexivity].
    destruct (Qle_bool _ _); [|reflexivity].
    now rewrite range_nil by (cbn; lia).
  - now rewrite range_nil by lia.
Qed.

(** An operation that fails [k] times with retryable errors and then
    returns [v], with [k] below the attempts, the counter staying below the
    threshold and the delays of attempts 1 to [k] within the range of a
    float: [RetryHandler.retry] returns [v] after [k + 1] invocations, having
    slept exactly the delays [_calculate_delay] returned for attempts 1 to
    [k], in order; the failure counter is 0 and the circuit is closed. *)
Theorem retry_recovers_after_failures (ev : env V E) (h : RetryHandler.t)
    (w : world) (k : nat) (v : V) :
  RetryHandler._circuit_state h <> RetryHandler.OPEN ->
  (forall i, (i < k)%nat ->
     exists e, op ev (calls w + i) = Raises e
               /\ RetryHandler._retry_on h e = true) ->
  op ev (calls w + k) = Returns v ->
  RetryHandler._failure_count h + Z.of_nat k
    < RetryHandler._circuit_failure_threshold h ->
  Z.of_nat k < RetryHandler._max_retries h ->
  RetryHandler.attempt_in_float_range (RetryHandler._backoff_strategy h)
    (Z.of_nat k) ->
  let run := RetryHandler.retry str ev h w in
  run.1.1 = Ok (Some v)
  /\ calls run.2 = (calls w + k + 1)%nat
  /\ RetryHandler._failure_count run.1.2 = 0
  /\ RetryHandler._circuit_state run.1.2 = RetryHandler.CLOSED
  /\ exists delays,
       slept run.2 = slept w ++ delays
       /\ map Some delays
          = map (fun i : nat =>
                   RetryHandler._calculate_delay h (1 + Z.of_nat i)
                     (random ev (draws w + i)))
              (seq 0 k).
Proof.
  intros Hs Hop Hv Hth Hk Hin. cbv zeta. unfold RetryHandler.retry.
  rewrite (check_circuit_not_open ev h w Hs).
  destruct (retry_loop_backoff_run str ev k 1 h w Hop Hth ltac:(lia) ltac:(lia))
    as (h' & w' & delays & -> & Hcfg & Hc & Hst & Hl & Hcalls & Hclk & Hsl
        & Hdl).
  { intros i Hi.
    apply (attempt_in_float_range_earlier _ _ (Z.of_nat k)); [lia|exact Hin]. }
  rewrite (range_cons (1 + Z.of_nat k)) by lia.
  cbn [RetryHandler.retry_loop].
  rewrite (retry_attempt_success str ev _ h' w' v) by (now rewrite Hcalls).
  cbn [fst snd]. split; [reflexivity|]. split; [cbn; lia|].
  split; [reflexivity|]. split; [|exists delays; split; [exact Hsl|exact Hdl]].
  rewrite Hst. destruct (RetryHandler._circuit_state h); cbn; congruence.
Qed.

(** An operation that keeps failing with retryable errors, on a handler with
    [m + 1] attempts whose counter stays below the threshold and whose delays
    of attempts 1 to [m] are within the range of a float: [retry] invokes it
    exactly [m + 1] times, sleeps the [m] delays in between, and raises
    "Failed after m + 1 attempts" with the last error; the failures stay
    counted for the next call and the circuit state is untouched. *)
Theorem retry_exhausts_all_attempts (ev : env V E) (h : RetryHandler.t)
    (w : world) (m : nat) :
  RetryHandler._circuit_state h <> RetryHandler.OPEN ->
  RetryHandler._max_retries h = Z.of_nat (S m) ->
  (forall i, (i <= m)%nat ->
     exists e, op ev (calls w + i) = Raises e
               /\ RetryHandler._retry_on h e = true) ->
  RetryHandler._failure_count h + Z.of_nat (S m)
    < RetryHandler._circuit_failure_threshold h ->
  RetryHandler.attempt_in_float_range (RetryHandler._backoff_strategy h)
    (Z.of_nat m) ->
  let run := RetryHandler.retry str ev h w in
  (exists e, op ev (calls w + m) = Raises e
             /\ run.1.1 = Err (RetryHandler.failed_after str
                                 (Z.of_nat (S m)) e))
  /\ calls run.2 = (calls w + S m)%nat
  /\ RetryHandler._failure_count run.1.2
     = RetryHandler._failure_count h + Z.of_nat (S m)
  /\ RetryHandler._circuit_state run.1.2 = RetryHandler._circuit_state h
  /\ exists delays,
       slept run.2 = slept w ++ delays
       /\ map Some delays
          = map (fun i : nat =>
                   RetryHandler._calculate_delay h (1 + Z.of_nat i)
                     (random ev (draws w + i)))
              (seq 0 m).
Proof.
  intros Hs Hm Hop Hth Hin. cbv zeta. unfold RetryHandler.retry.
  rewrite (check_circuit_not_open ev h w Hs).
  destruct (retry_loop_backoff_run str ev m 1 h w
              ltac:(intros i Hi; apply Hop; lia) ltac:(lia) ltac:(lia)
              ltac:(lia))
    as (h' & w' & delays & -> & Hcfg & Hc & Hst & Hl & Hcalls & Hclk & Hsl
        & Hdl).
  { intros i Hi.
    apply (attempt_in_float_range_earlier _ _ (Z.of_nat m)); [lia|exact Hin]. }
  destruct (Hop m ltac:(lia)) as (e & Ho & Hr).
  destruct Hcfg as (Hmr & _ & _ & _ & _ & Hthr & _ & Hro).
  rewrite (range_cons (1 + Z.of_nat m)) by lia.
  cbn [RetryHandler.retry_loop].
  rewrite (retry_attempt_exhausted str ev _ h' w' e)
    by (rewrite ?Hcalls, ?Hro, ?Hthr, ?Hmr, ?Hc; first [assumption|lia]).
  cbn [fst snd]. rewrite Hmr, Hm.
  split; [exists e; split; [exact Ho|reflexivity]|].
  split; [cbn; lia|]. split; [cbn; lia|]. split; [exact Hst|].
  change (slept (snd (invoke ev w'))) with (slept w').
  exists delays. split; [exact Hsl|exact Hdl].
Qed.

(** An operation that keeps failing with retryable errors, on a handler
    whose counter is [j + 1] failures short of the threshold, which has more
    than [j] attempts and whose delays of attempts 1 to [j] are within the
    range of a float: the circuit opens at the failure that reaches the
    threshold, after exactly [j + 1] invocations, stamped with the time read
    then; later attempts are not made. *)
Theorem retry_trips_at_threshold (ev : env V E) (h : RetryHandler.t)
    (w : world) (j : nat) :
  RetryHandler._circuit_state h <> RetryHandler.OPEN ->
  RetryHandler._circuit_failure_threshold h
    = RetryHandler._failure_count h + Z.of_nat (S j) ->
  Z.of_nat j < RetryHandler._max_retries h ->
  (forall i, (i <= j)%nat ->
     exists e, op ev (calls w + i) = Raises e
               /\ RetryHandler._retry_on h e = true) ->
  RetryHandler.attempt_in_float_range (RetryHandler._backoff_strategy h)
    (Z.of_nat j) ->
  let run := RetryHandler.retry str ev h w in
  (exists e, op ev (calls w + j) = Raises e
             /\ run.1.1
                = Err (RetryHandler.circuit_opened str
                         (RetryHandler._circuit_failure_threshold h) e))
  /\ calls run.2 = (calls w + S j)%nat
  /\ RetryHandler._failure_count run.1.2
     = RetryHandler._circuit_failure_threshold h
  /\ RetryHandler._circuit_state run.1.2 = RetryHandler.OPEN
  /\ RetryHandler._last_failure_time run.1.2
     = Some (time ev (clock_reads w)).
Proof.
  intros Hs Hth Hj Hop Hin. cbv zeta. unfold RetryHandler.retry.
  rewrite (check_circuit_not_open ev h w Hs).
  destruct (retry_loop_backoff_run str ev j 1 h w
              ltac:(intros i Hi; apply Hop; lia) ltac:(lia) ltac:(lia)
              ltac:(lia))
    as (h' & w' & delays & -> & Hcfg & Hc & Hst & Hl & Hcalls & Hclk & Hsl
        & Hdl).
  { intros i Hi.
    apply (attempt_in_float_range_earlier _ _ (Z.of_nat j)); [lia|exact Hin]. }
  destruct (Hop j ltac:(lia)) as (e & Ho & Hr).
  destruct Hcfg as (Hmr & _ & _ & _ & _ & Hthr & _ & Hro).
  rewrite (range_cons (1 + Z.of_nat j)) by lia.
  cbn [RetryHandler.retry_loop].
  rewrite (retry_attempt_trip str ev _ h' w' e)
    by (rewrite ?Hcalls, ?Hro, ?Hthr, ?Hc; first [assumption|lia]).
  cbn [fst snd].
  replace (RetryHandler._failure_count h' + 1)
    with (RetryHandler._circuit_failure_threshold h) by lia.
  split; [exists e; split; [exact Ho|reflexivity]|].
  split; [cbn; lia|]. split; [reflexivity|]. split; [reflexivity|].
  cbn. now rewrite Hclk.
Qed.

(** For every strategy, every attempt within the range of a float and every
    random draw, [_calculate_delay] returns a delay between 0 and the maximum
    delay enlarged by the jitter fraction, provided base delay, maximum delay
    and jitter are not negative. *)
Theorem calculate_delay_within_bounds (h : @RetryHandler.t E) (attempt : Z)
    (r : Q) :
  1 <= attempt ->
  RetryHandler.attempt_in_float_range (RetryHandler._backoff_strategy h)
    attempt ->
  (0 <= RetryHandler._base_delay h)%Q ->
  (0 <= RetryHandler._max_delay h)%Q ->
  (0 <= RetryHandler._jitter h)%Q ->
  (0 <= r)%Q -> (r <= 1)%Q ->
  exists delay,
    RetryHandler._calculate_delay h attempt r = Some delay
    /\ (0 <= delay
          <= RetryHandler._max_delay h * (1 + RetryHandler._jitter h))%Q.
Proof.
  intros Ha Hin Hb Hm Hj Hr0 Hr1.
  pose proof (spec_clamped_delay_nonneg (RetryHandler._backoff_strategy h)
                (RetryHandler._base_delay h) (RetryHandler._max_delay h)
                attempt Ha Hb Hm) as Hc0.
  assert (Hc1 : (spec_clamped_delay (RetryHandler._backoff_strategy h)
                   (RetryHandler._base_delay h) (RetryHandler._max_delay h)
                   attempt <= RetryHandler._max_delay h)%Q)
    by apply Q.le_min_r.
  eexists. split; [now apply calculate_delay_in_range|].
  unfold RetryHandler.clamp_and_jitter, uniform.
  fold (spec_clamped_delay (RetryHandler._backoff_strategy h)
          (RetryHandler._base_delay h) (RetryHandler._max_delay h) attempt).
  set (c := spec_clamped_delay _ _ _ _) in *.
  set (j := RetryHandler._jitter h) in *.
  set (mx := RetryHandler._max_delay h) in *.
  split; [apply Q.le_max_l|].
  apply Q.max_lub; [nra|].
  assert (Hcj : (0 <= c * j)%Q) by now apply Qmult_le_0_compat.
  assert (Hcjr : (c * j * r <= c * j)%Q) by nra.
  assert (Hmj : (c * j <= mx * j)%Q) by nra.
  lra.
Qed.

(** The formula of the strategy never shrinks from one attempt to the next
    when the base delay is not negative. *)
Lemma spec_strategy_delay_monotone (strategy : RetryHandler.RetryStrategy)
    (base_delay : Q) (attempt : Z) :
  (0 <= base_delay)%Q ->
  (spec_strategy_delay strategy base_delay attempt
   <= spec_strategy_delay strategy base_delay (attempt + 1))%Q.
Proof.
  intros Hb. unfold spec_strategy_delay. destruct strategy.
  - apply Qle_refl.
  - rewrite inject_Z_plus.
    assert (H1 : (0 <= base_delay * inject_Z 1)%Q)
      by (apply Qmult_le_0_compat; [exact Hb|discriminate]).
    lra.
  - assert (Hp : (2 ^ (attempt - 1) <= 2 ^ (attempt + 1 - 1))%Q)
      by (apply Qpower_le_compat_l; [lia|discriminate]).
    nra.
  - assert (Hp : ((1618 # 1000) ^ attempt <= (1618 # 1000) ^ (attempt + 1))%Q)
      by (apply Qpower_le_compat_l; [lia|discriminate]).
    nra.
Qed.

(** Without jitter the delay never shrinks from one attempt to the next,
    whatever the strategy, as long as the base delay is not negative and
    both attempts are within the range of a float. *)
Theorem calculate_delay_monotone_without_jitter (h : @RetryHandler.t E)
    (attempt : Z) (r r' : Q) :
  1 <= attempt ->
  RetryHandler.attempt_in_float_range (RetryHandler._backoff_strategy h)
    (attempt + 1) ->
  (0 <= RetryHandler._base_delay h)%Q ->
  (RetryHandler._jitter h == 0)%Q ->
  exists delay delay',
    RetryHandler._calculate_delay h attempt r = Some delay
    /\ RetryHandler._calculate_delay h (attempt + 1) r' = Some delay'
    /\ (delay <= delay')%Q.
Proof.
  intros Ha Hin Hb Hj.
  assert (Hin0 : RetryHandler.attempt_in_float_range
                   (RetryHandler._backoff_strategy h) attempt)
    by (apply (attempt_in_float_range_earlier _ _ (attempt + 1));
        [lia|exact Hin]).
  eexists _, _.
  split; [now apply calculate_delay_in_range|].
  split; [apply calculate_delay_in_range; [lia|exact Hin]|].
  assert (Hnoj : forall raw x,
             (RetryHandler.clamp_and_jitter h raw x
              == Qmax 0 (Qmin raw (RetryHandler._max_delay h)))%Q).
  { intros raw x. unfold RetryHandler.clamp_and_jitter, uniform.
    apply Q.max_compat; [reflexivity|]. rewrite Hj. ring. }
  rewrite !Hnoj.
  apply Q.max_le_compat_l, Q.min_le_compat_r.
  now apply spec_strategy_delay_monotone.
Qed.





(** [RetryHandler(retry_on=())] does not retry nothing: the empty tuple is
    falsy, so line 65 stores [Exception], and every [Exception] the operation
    raises is caught, counted and, on the last attempt, replaced by "Failed
    after ... attempts".  With a non-empty tuple an exception is caught
    exactly when it is an instance of one of the classes. *)
Theorem retry_on_empty_tuple_catches_every_Exception (ev : env V E)
    (w : world) (e : E) (base_delay max_delay : Q)
    (backoff_strategy : RetryHandler.RetryStrategy) (jitter : Q)
    (circuit_failure_threshold : Z) (circuit_reset_timeout : Q) :
  op ev (calls w) = Raises e ->
  is_Exception e = true ->
  1 < circuit_failure_threshold ->
  let h := RetryHandler.__init__ is_Exception 1 base_delay max_delay
             backoff_strategy jitter circuit_failure_threshold
             circuit_reset_timeout
             (RetryHandler.retry_on_or_Exception (RetryHandler.RetryOnTuple [])) in
  let run := RetryHandler.retry str ev h w in
  RetryHandler._retry_on h = is_Exception
  /\ run.1.1 = Err (RetryHandler.failed_after str 1 e)
  /\ RetryHandler._failure_count run.1.2 = 1
  /\ calls run.2 = S (calls w)
  /\ forall (cls : E -> bool) (classes : list (E -> bool)),
       RetryHandler._retry_on
         (RetryHandler.__init__ is_Exception 1 base_delay max_delay
            backoff_strategy jitter circuit_failure_threshold
            circuit_reset_timeout
            (RetryHandler.retry_on_or_Exception
               (RetryHandler.RetryOnTuple (cls :: classes)))) e
       = existsb (fun c => c e) (cls :: classes).
Proof.
  intros Ho He Hth. cbv zeta.
  split; [reflexivity|].
  unfold RetryHandler.retry.
  rewrite check_circuit_not_open by discriminate.
  set (h := RetryHandler.__init__ _ _ _ _ _ _ _ _ _).
  change (range 1 (RetryHandler._max_retries h + 1)) with [1].
  cbn [RetryHandler.retry_loop].
  rewrite (retry_attempt_exhausted str ev 1 h w e Ho)
    by (cbn; first [exact He | lia | reflexivity]).
  cbn. repeat split.
Qed.

(** Calls through [decorator] never share a circuit: each builds a new
    handler with the default threshold of 5 and retries every [Exception],
    whatever [self] was configured with.  So with [m] attempts, [m] below 5,
    an operation that always fails is invoked [m] times by every one of [n]
    calls in a row, each call raises "Failed after m attempts", no call is
    ever rejected by an open circuit, and [self] is left as it was. *)
Theorem decorator_calls_do_not_share_circuit (ev : env V E)
    (self : RetryHandler.t) (max_retries : option Z)
    (backoff_strategy : option RetryHandler.RetryStrategy)
    (e : E) (m n : nat) :
  (forall i, op ev i = Raises e) ->
  is_Exception e = true ->
  RetryHandler._max_retries
    (RetryHandler.temp_handler is_Exception self max_retries backoff_strategy)
  = Z.of_nat (S m) ->
  (S m < 5)%nat ->
  forall w : world,
    let run := repeat_call
                 (RetryHandler.decorator str is_Exception max_retries
                    backoff_strategy ev) n self w in
    run.1.1 = repeat (Err (RetryHandler.failed_after str (Z.of_nat (S m)) e)) n
    /\ run.1.2 = self
    /\ calls run.2 = (calls w + n * S m)%nat.
Proof.
  intros Hop He Hm Hlt.
  set (temp := RetryHandler.temp_handler is_Exception self max_retries
                 backoff_strategy) in *.
  assert (Hone : forall w,
             exists h' w', RetryHandler.retry str ev temp w
                           = (Err (RetryHandler.failed_after str
                                     (Z.of_nat (S m)) e), h', w')
                           /\ calls w' = (calls w + S m)%nat).
  { intros w. unfold RetryHandler.retry.
    rewrite (check_circuit_not_open ev temp w) by discriminate.
    destruct (retry_loop_backoff_run str ev m 1 temp w)
      as (h' & w' & delays & -> & Hcfg & Hc & Hst & Hl & Hcalls & _).
    - intros i _. exists e. split; [apply Hop|exact He].
    - change (RetryHandler._failure_count temp) with 0.
      change (RetryHandler._circuit_failure_threshold temp) with 5. lia.
    - lia.
    - lia.
    - intros i Hi. apply attempt_in_float_range_1024. lia.
    - destruct Hcfg as (Hmr & _ & _ & _ & _ & Hthr & _ & Hro).
      rewrite (range_cons (1 + Z.of_nat m)) by lia.
      cbn [RetryHandler.retry_loop].
      rewrite (retry_attempt_exhausted str ev _ h' w' e);
        [| apply Hop | rewrite Hro; exact He
         | rewrite Hthr, Hc;
           change (RetryHandler._failure_count temp) with 0;
           change (RetryHandler._circuit_failure_threshold temp) with 5; lia
         | lia ].
      eexists _, _. rewrite Hmr, Hm. split; [reflexivity|cbn; lia]. }
  assert (Hdec : forall w,
             exists w', RetryHandler.decorator str is_Exception max_retries
                          backoff_strategy ev self w
                        = (Err (RetryHandler.failed_after str
                                  (Z.of_nat (S m)) e), self, w')
                        /\ calls w' = (calls w + S m)%nat).
  { intros w. unfold RetryHandler.decorator. fold temp.
    destruct (Hone w) as (h' & w' & -> & Hw'). now exists w'. }
  induction n as [|n IH]; intros w; [cbn; repeat split; lia|].
  cbn [repeat_call].
  destruct (Hdec w) as (w' & -> & Hw').
  specialize (IH w'). cbv zeta in IH.
  destruct (repeat_call _ n self w') as [[rs s'] w''].
  cbn in IH |- *. destruct IH as (Hrs & Hs' & Hc).
  split; [now rewrite Hrs|]. split; [exact Hs'|]. lia.
Qed.

(** What the [try] block of [FailoverStrategy]'s wrapper does to the world
    and to everything but the entries of its key. *)
Lemma attempt_world (ev : env V E) (key : string) (ct : Q)
    (s : FailoverStrategy.t) (w : world) :
  let run := FailoverStrategy.attempt str is_Exception ev key ct s w in
  calls run.2 = S (calls w)
  /\ (fb_calls w <= fb_calls run.2 <= S (fb_calls w))%nat
  /\ clock_reads run.2 = clock_reads w.
Proof.
  cbv zeta. unfold FailoverStrategy.attempt. cbn [invoke].
  destruct (op ev (calls w)) as [v|e]; [cbn; lia|].
  destruct (is_Exception e); [|cbn; lia].
  destruct (FailoverStrategy.failures s !! key) as [n|]; [|cbn; lia].
  pose proof (record_failure_world str key ct n e s (snd (invoke ev w))) as Hw.
  destruct (FailoverStrategy.record_failure str key ct n e s _) as [s3 w3].
  cbn in Hw. destruct Hw as (Hc & Hf & Hk).
  destruct (FailoverStrategy.fallback_handlers s3 !! key) as [fb|];
    [|cbn; lia].
  cbn. destruct (fb (fb_calls w3)) as [v|e2]; [cbn; lia|].
  destruct (is_Exception e2); cbn; lia.
Qed.

Lemma attempt_frame (ev : env V E) (key : string) (ct : Q)
    (s : FailoverStrategy.t) (w : world) :
  let s' := (FailoverStrategy.attempt str is_Exception ev key ct s w).1.2 in
  FailoverStrategy.max_failures s' = FailoverStrategy.max_failures s
  /\ FailoverStrategy.reset_timeout s' = FailoverStrategy.reset_timeout s
  /\ FailoverStrategy.backoff_strategy s' = FailoverStrategy.backoff_strategy s
  /\ FailoverStrategy.fallback_handlers s' = FailoverStrategy.fallback_handlers s
  /\ forall k, k <> key ->
       FailoverStrategy.circuit_state s' !! k
       = FailoverStrategy.circuit_state s !! k
       /\ FailoverStrategy.failures s' !! k = FailoverStrategy.failures s !! k
       /\ FailoverStrategy.last_failure_time s' !! k
          = FailoverStrategy.last_failure_time s !! k.
Proof.
  cbv zeta.
  destruct (op ev (calls w)) as [v|e] eqn:Ho.
  - rewrite (attempt_success str is_Exception ev key ct s w v Ho).
    cbn [fst snd].
    destruct (FailoverStrategy.state_is key _ s); cbn;
      repeat split; try reflexivity;
      rewrite ?lookup_insert_ne by congruence; reflexivity.
  - destruct (is_Exception e) eqn:He.
    + destruct (FailoverStrategy.failures s !! key) as [n|] eqn:Hn.
      * destruct (attempt_failure str is_Exception ev key ct s w e n Ho He Hn)
          as (-> & _ & _).
        destruct (record_failure_key str key ct n e s (snd (invoke ev w)))
          as (_ & _ & _ & Hm & Hrt & Hfb).
        split; [exact Hm|]. split; [exact Hrt|].
        split; [|split; [exact Hfb|]].
        -- unfold FailoverStrategy.record_failure. cbn.
           destruct (_ <=? _); reflexivity.
        -- intros k Hk.
           destruct (record_failure_other str key k ct n e s
                       (snd (invoke ev w)) Hk) as (Hf' & Hl' & Hcs').
           repeat split; assumption.
      * unfold FailoverStrategy.attempt. cbn [invoke]. rewrite Ho, He, Hn.
        cbn. repeat split; reflexivity.
    + rewrite (attempt_not_Exception str is_Exception ev key ct s w e Ho He).
      cbn. repeat split; reflexivity.
Qed.

Lemma init_key_frame (s : @FailoverStrategy.t V E) (key : string) :
  let s' := FailoverStrategy.init_key key s in
  FailoverStrategy.max_failures s' = FailoverStrategy.max_failures s
  /\ FailoverStrategy.reset_timeout s' = FailoverStrategy.reset_timeout s
  /\ FailoverStrategy.backoff_strategy s' = FailoverStrategy.backoff_strategy s
  /\ FailoverStrategy.fallback_handlers s' = FailoverStrategy.fallback_handlers s
  /\ FailoverStrategy.last_failure_time s' = FailoverStrategy.last_failure_time s
  /\ forall k, k <> key ->
       FailoverStrategy.circuit_state s' !! k
       = FailoverStrategy.circuit_state s !! k
       /\ FailoverStrategy.failures s' !! k = FailoverStrategy.failures s !! k.
Proof.
  cbv zeta. unfold FailoverStrategy.init_key.
  destruct (FailoverStrategy.circuit_state s !! key); cbn;
    repeat split; try reflexivity;
    rewrite ?lookup_insert_ne by congruence; reflexivity.
Qed.

(** The wrapper as a case distinction: a rejected call, or one pass through
    the [try] block on the strategy with the key created and, when the
    timeout had elapsed, moved to half-open. *)
Lemma wrapper_cases (ev : env V E) (key : string) (s : FailoverStrategy.t)
    (w : world) :
  let s0 := FailoverStrategy.init_key key s in
  let now := time ev (clock_reads w) in
  let w1 := snd (time_time ev w) in
  (FailoverStrategy.circuit_state s0 !! key
     = Some FailoverStrategy.CircuitBreakerState.OPEN
   /\ exists r w', FailoverStrategy.wrapper str is_Exception ev key s w
                   = (r, s0, w')
                   /\ calls w' = calls w
                   /\ (fb_calls w <= fb_calls w' <= S (fb_calls w))%nat
                   /\ clock_reads w' = S (clock_reads w)
                   /\ match FailoverStrategy.fallback_handlers s0 !! key with
                      | None =>
                          r = Err (RuntimeError
                                     ("Circuit breaker open for " ++ key))
                      | Some fb =>
                          r = FailoverStrategy.result_of (fb (fb_calls w))
                      end)
  \/ (FailoverStrategy.circuit_state s0 !! key
        = Some FailoverStrategy.CircuitBreakerState.OPEN
      /\ FailoverStrategy.wrapper str is_Exception ev key s w
         = FailoverStrategy.attempt str is_Exception ev key now
             (FailoverStrategy.put_state key
                FailoverStrategy.CircuitBreakerState.HALF_OPEN s0) w1)
  \/ (FailoverStrategy.circuit_state s0 !! key
        <> Some FailoverStrategy.CircuitBreakerState.OPEN
      /\ FailoverStrategy.wrapper str is_Exception ev key s w
         = FailoverStrategy.attempt str is_Exception ev key now s0 w1).
Proof.
  cbv zeta. unfold FailoverStrategy.wrapper. cbn [time_time].
  set (s0 := FailoverStrategy.init_key key s).
  unfold FailoverStrategy.state_is.
  destruct (FailoverStrategy.circuit_state s0 !! key) as [st|] eqn:Hst.
  - destruct (String.eqb st FailoverStrategy.CircuitBreakerState.OPEN) eqn:Heq.
    + apply String.eqb_eq in Heq. subst st.
      destruct (Qltb _ _).
      * left. split; [reflexivity|].
        destruct (FailoverStrategy.fallback_handlers s0 !! key) as [fb|].
        -- eexists _, _. split; [reflexivity|]. cbn.
           repeat split; lia.
        -- eexists _, _. split; [reflexivity|]. cbn.
           repeat split; lia.
      * right. left. split; reflexivity.
    + right. right. split; [|reflexivity].
      apply String.eqb_neq in Heq. congruence.
  - right. right. split; [discriminate|reflexivity].
Qed.

(** A wrapped call invokes the operation at most once and a fallback at most
    once, reads the clock exactly once, and touches nothing but the three
    entries of its own key: the status of every other key, the registered
    fallbacks and the configuration are as before. *)
Theorem wrapper_touches_only_its_key (ev : env V E) (key : string)
    (s : FailoverStrategy.t) (w : world) :
  let run := FailoverStrategy.wrapper str is_Exception ev key s w in
  (calls w <= calls run.2 <= S (calls w))%nat
  /\ (fb_calls w <= fb_calls run.2 <= S (fb_calls w))%nat
  /\ clock_reads run.2 = S (clock_reads w)
  /\ FailoverStrategy.max_failures run.1.2 = FailoverStrategy.max_failures s
  /\ FailoverStrategy.reset_timeout run.1.2 = FailoverStrategy.reset_timeout s
  /\ FailoverStrategy.fallback_handlers run.1.2
     = FailoverStrategy.fallback_handlers s
  /\ forall k, k <> key ->
       FailoverStrategy.get_circuit_status k run.1.2
       = FailoverStrategy.get_circuit_status k s.
Proof.
  cbv zeta.
  destruct (init_key_frame s key) as (Hm0 & Hr0 & _ & Hf0 & Hl0 & Hk0).
  assert (Hstatus : forall s' : @FailoverStrategy.t V E,
             (forall k, k <> key ->
                FailoverStrategy.circuit_state s' !! k
                = FailoverStrategy.circuit_state
                    (FailoverStrategy.init_key key s) !! k
                /\ FailoverStrategy.failures s' !! k
                   = FailoverStrategy.failures
                       (FailoverStrategy.init_key key s) !! k
                /\ FailoverStrategy.last_failure_time s' !! k
                   = FailoverStrategy.last_failure_time
                       (FailoverStrategy.init_key key s) !! k) ->
             forall k, k <> key ->
               FailoverStrategy.get_circuit_status k s'
               = FailoverStrategy.get_circuit_status k s).
  { intros s' Hs' k Hk. destruct (Hs' k Hk) as (A & B & C).
    destruct (Hk0 k Hk) as (A0 & B0).
    unfold FailoverStrategy.get_circuit_status.
    now rewrite A, B, C, A0, B0, Hl0. }
  destruct (wrapper_cases ev key s w)
    as [(_ & r & w' & -> & Hc & Hf & Hk & _) | [(_ & ->) | (_ & ->)]].
  - cbn [fst snd]. rewrite Hc, Hk. split; [lia|]. split; [exact Hf|].
    split; [reflexivity|]. split; [exact Hm0|]. split; [exact Hr0|].
    split; [exact Hf0|]. apply Hstatus. intros k Hne. repeat split.
  - destruct (attempt_world ev key (time ev (clock_reads w))
                (FailoverStrategy.put_state key
                   FailoverStrategy.CircuitBreakerState.HALF_OPEN
                   (FailoverStrategy.init_key key s))
                (snd (time_time ev w))) as (Hc & Hf & Hk).
    destruct (attempt_frame ev key (time ev (clock_reads w))
                (FailoverStrategy.put_state key
                   FailoverStrategy.CircuitBreakerState.HALF_OPEN
                   (FailoverStrategy.init_key key s))
                (snd (time_time ev w))) as (Hm & Hr & _ & Hfb & Hother).
    rewrite Hc, Hk, Hm, Hr, Hfb.
    change (calls (snd (time_time ev w))) with (calls w).
    change (clock_reads (snd (time_time ev w))) with (S (clock_reads w)).
    change (fb_calls (snd (time_time ev w))) with (fb_calls w) in Hf.
    split; [lia|]. split; [exact Hf|]. split; [reflexivity|].
    split; [exact Hm0|]. split; [exact Hr0|]. split; [exact Hf0|].
    apply Hstatus. intros k Hne. destruct (Hother k Hne) as (A & B & C).
    rewrite A, B, C. cbn. rewrite lookup_insert_ne by congruence.
    repeat split.
  - destruct (attempt_world ev key (time ev (clock_reads w))
                (FailoverStrategy.init_key key s)
                (snd (time_time ev w))) as (Hc & Hf & Hk).
    destruct (attempt_frame ev key (time ev (clock_reads w))
                (FailoverStrategy.init_key key s)
                (snd (time_time ev w))) as (Hm & Hr & _ & Hfb & Hother).
    rewrite Hc, Hk, Hm, Hr, Hfb.
    change (calls (snd (time_time ev w))) with (calls w).
    change (clock_reads (snd (time_time ev w))) with (S (clock_reads w)).
    change (fb_calls (snd (time_time ev w))) with (fb_calls w) in Hf.
    split; [lia|]. split; [exact Hf|]. split; [reflexivity|].
    split; [exact Hm0|]. split; [exact Hr0|]. split; [exact Hf0|].
    apply Hstatus. exact Hother.
Qed.

Lemma key_ok_other (s s' : @FailoverStrategy.t V E) (k : string) :
  FailoverStrategy.circuit_state s' !! k = FailoverStrategy.circuit_state s !! k ->
  FailoverStrategy.failures s' !! k = FailoverStrategy.failures s !! k ->
  FailoverStrategy.last_failure_time s' !! k
    = FailoverStrategy.last_failure_time s !! k ->
  FailoverStrategy.key_ok s k -> FailoverStrategy.key_ok s' k.
Proof. unfold FailoverStrategy.key_ok. now intros -> -> ->. Qed.

Lemma key_ok_init_key (s : @FailoverStrategy.t V E) (key : string) :
  (forall k, FailoverStrategy.key_ok s k) ->
  forall k, FailoverStrategy.key_ok (FailoverStrategy.init_key key s) k.
Proof.
  intros Hok k. unfold FailoverStrategy.init_key.
  destruct (FailoverStrategy.circuit_state s !! key) eqn:Hs; [apply Hok|].
  destruct (decide (k = key)) as [->|Hne].
  - unfold FailoverStrategy.key_ok. cbn. rewrite !lookup_insert_eq.
    split; [now left|]. exists 0. split; [reflexivity|lia].
  - apply (key_ok_other s); cbn; rewrite ?lookup_insert_ne by congruence;
      try reflexivity. apply Hok.
Qed.

(** The [try] block keeps the entries consistent, when entered on a key that
    has its entries. *)
Lemma key_ok_attempt (ev : env V E) (key : string) (ct : Q)
    (s : FailoverStrategy.t) (w : world) :
  (forall k, FailoverStrategy.key_ok s k) ->
  is_Some (FailoverStrategy.circuit_state s !! key) ->
  forall k,
    FailoverStrategy.key_ok
      (FailoverStrategy.attempt str is_Exception ev key ct s w).1.2 k.
Proof.
  intros Hok [st Hst] k.
  destruct (decide (k = key)) as [->|Hne].
  2:{ destruct (attempt_frame ev key ct s w) as (_ & _ & _ & _ & Hother).
      destruct (Hother k Hne) as (A & B & C).
      now apply (key_ok_other s). }
  pose proof (Hok key) as Hkey. unfold FailoverStrategy.key_ok in Hkey.
  rewrite Hst in Hkey. destruct Hkey as (Hst3 & n & Hn & Hn0).
  destruct (op ev (calls w)) as [v|e] eqn:Ho.
  - rewrite (attempt_success str is_Exception ev key ct s w v Ho).
    cbn [fst snd]. unfold FailoverStrategy.key_ok, FailoverStrategy.state_is.
    rewrite Hst.
    destruct (String.eqb st _); cbn; rewrite ?lookup_insert_eq, ?Hst.
    + split; [now left|]. exists 0. split; [reflexivity|lia].
    + split; [exact Hst3|]. exists 0. split; [reflexivity|lia].
  - destruct (is_Exception e) eqn:He.
    + destruct (attempt_failure str is_Exception ev key ct s w e n Ho He Hn)
        as (-> & _ & _).
      destruct (record_failure_key str key ct n e s (snd (invoke ev w)))
        as (Hf & _ & Hcs & _).
      unfold FailoverStrategy.key_ok. rewrite Hcs, Hf, Hst.
      destruct (_ <=? _).
      * split; [right; now left|]. exists (n + 1). split; [reflexivity|lia].
      * split; [exact Hst3|]. exists (n + 1). split; [reflexivity|lia].
    + rewrite (attempt_not_Exception str is_Exception ev key ct s w e Ho He).
      apply Hok.
Qed.

Lemma key_ok_wrapper (ev : env V E) (key : string) (s : FailoverStrategy.t)
    (w : world) :
  (forall k, FailoverStrategy.key_ok s k) ->
  forall k,
    FailoverStrategy.key_ok
      (FailoverStrategy.wrapper str is_Exception ev key s w).1.2 k.
Proof.
  intros Hok. pose proof (key_ok_init_key s key Hok) as Hok0.
  assert (Hpresent : is_Some (FailoverStrategy.circuit_state
                                (FailoverStrategy.init_key key s) !! key)).
  { unfold FailoverStrategy.init_key.
    destruct (FailoverStrategy.circuit_state s !! key) eqn:Hs; [eauto|].
    cbn. rewrite lookup_insert_eq. eauto. }
  destruct (wrapper_cases ev key s w)
    as [(_ & r & w' & -> & _) | [(Hopen & ->) | (_ & ->)]].
  - exact Hok0.
  - apply key_ok_attempt.
    + intros k. destruct (decide (k = key)) as [->|Hne].
      * pose proof (Hok0 key) as Hkey. unfold FailoverStrategy.key_ok in *.
        cbn. rewrite lookup_insert_eq. rewrite Hopen in Hkey.
        destruct Hkey as (_ & Hn). split; [right; now right|exact Hn].
      * apply (key_ok_other (FailoverStrategy.init_key key s)); cbn;
          rewrite ?lookup_insert_ne by congruence; try reflexivity.
        apply Hok0.
    + cbn. rewrite lookup_insert_eq. eauto.
  - now apply key_ok_attempt.
Qed.

Lemma key_ok_reset_circuit (key : option string) (s : @FailoverStrategy.t V E) :
  (forall k, FailoverStrategy.key_ok s k) ->
  forall k, FailoverStrategy.key_ok (FailoverStrategy.reset_circuit key s) k.
Proof.
  intros Hok k. unfold FailoverStrategy.reset_circuit.
  assert (Hclear : FailoverStrategy.key_ok
                     (FailoverStrategy.set_last_failure_time ∅
                        (FailoverStrategy.set_failures ∅
                           (FailoverStrategy.set_circuit_state ∅ s))) k)
    by (unfold FailoverStrategy.key_ok; cbn; now rewrite !lookup_empty).
  destruct key as [key|]; [|exact Hclear].
  destruct (String.eqb key ""); [exact Hclear|].
  destruct (decide (k = key)) as [->|Hne].
  - unfold FailoverStrategy.key_ok. cbn. rewrite !lookup_insert_eq.
    split; [now left|]. exists 0. split; [reflexivity|lia].
  - apply (key_ok_other s); cbn; rewrite ?lookup_insert_ne by congruence;
      try reflexivity. apply Hok.
Qed.

Lemma reachable_key_ok (s : @FailoverStrategy.t V E) :
  FailoverStrategy.reachable str is_Exception s ->
  forall k, FailoverStrategy.key_ok s k.
Proof.
  intros Hr.
  induction Hr as [| ev key s w _ IH | name fb s _ IH | key s _ IH].
  - intros k. unfold FailoverStrategy.key_ok. cbn. now rewrite !lookup_empty.
  - now apply key_ok_wrapper.
  - exact IH.
  - now apply key_ok_reset_circuit.
Qed.

(** On every strategy a program can hold, the status of every key is well
    formed: the state is one of the three constants and the failure counter
    is not negative. *)
Theorem reachable_status_well_formed (s : @FailoverStrategy.t V E)
    (key : string) :
  FailoverStrategy.reachable str is_Exception s ->
  let status := FailoverStrategy.get_circuit_status key s in
  (FailoverStrategy.state status = FailoverStrategy.CircuitBreakerState.CLOSED
   \/ FailoverStrategy.state status = FailoverStrategy.CircuitBreakerState.OPEN
   \/ FailoverStrategy.state status
      = FailoverStrategy.CircuitBreakerState.HALF_OPEN)
  /\ 0 <= FailoverStrategy.status_failures status
  /\ (FailoverStrategy.circuit_state s !! key = None ->
      status = FailoverStrategy.mkStatus
                 FailoverStrategy.CircuitBreakerState.CLOSED 0 None).
Proof.
  intros Hr. pose proof (reachable_key_ok s Hr key) as Hok.
  unfold FailoverStrategy.key_ok in Hok. cbv zeta.
  unfold FailoverStrategy.get_circuit_status. cbn.
  destruct (FailoverStrategy.circuit_state s !! key) as [st|].
  - destruct Hok as (Hst & n & -> & Hn). cbn.
    split; [exact Hst|]. split; [exact Hn|discriminate].
  - destruct Hok as (-> & ->). cbn. split; [now left|]. split; [lia|reflexivity].
Qed.

(** On every strategy a program can hold, a wrapped call raises nothing of
    its own making except the "circuit breaker open" [RuntimeError], and that
    only when the call was rejected with no fallback registered and the
    operation not invoked; every other exception is one the operation or the
    fallback raised.  In particular the dictionary accesses never raise
    [KeyError]. *)
Theorem wrapper_raises_only_callee_errors_or_circuit_open (ev : env V E)
    (key : string) (s : FailoverStrategy.t) (w : world) (x : raised E) :
  FailoverStrategy.reachable str is_Exception s ->
  let run := FailoverStrategy.wrapper str is_Exception ev key s w in
  run.1.1 = Err x ->
  (exists e, x = Propagated e)
  \/ (x = RuntimeError ("Circuit breaker open for " ++ key)
      /\ FailoverStrategy.fallback_handlers s !! key = None
      /\ calls run.2 = calls w).
Proof.
  intros Hr. cbv zeta.
  pose proof (key_ok_init_key s key (reachable_key_ok s Hr)) as Hok0.
  destruct (init_key_frame s key) as (_ & _ & _ & Hfb0 & _).
  assert (Hattempt : forall ct (s' : @FailoverStrategy.t V E) w',
             is_Some (FailoverStrategy.failures s' !! key) ->
             (FailoverStrategy.attempt str is_Exception ev key ct s' w').1.1
             = Err x -> exists e, x = Propagated e).
  { intros ct s' w' [n Hn].
    destruct (op ev (calls w')) as [v|e] eqn:Ho.
    - rewrite (attempt_success str is_Exception ev key ct s' w' v Ho).
      discriminate.
    - destruct (is_Exception e) eqn:He.
      + rewrite (attempt_failure_result str is_Exception ev key ct s' w' e n
                   Ho He Hn).
        destruct (FailoverStrategy.fallback_handlers s' !! key) as [fb|];
          [|intros [= <-]; eauto].
        destruct (fb (fb_calls w')) as [v|e2]; [discriminate|].
        destruct (is_Exception e2); intros [= <-]; eauto.
      + rewrite (attempt_not_Exception str is_Exception ev key ct s' w' e
                   Ho He). intros [= <-]. eauto. }
  destruct (wrapper_cases ev key s w)
    as [(_ & r & w' & -> & Hc & Hf & _ & Hres) | [(Hopen & ->) | (Hne & ->)]].
  - cbn [fst snd]. rewrite Hfb0 in Hres.
    destruct (FailoverStrategy.fallback_handlers s !! key) as [fb|] eqn:Hfb.
    + subst r. destruct (fb (fb_calls w)) as [v|e]; cbn; [discriminate|].
      intros [= <-]. left. eauto.
    + subst r. intros [= <-]. right. repeat split. exact Hc.
  - intros Hx. left. apply (Hattempt _ _ _) in Hx; [exact Hx|].
    pose proof (Hok0 key) as Hkey. unfold FailoverStrategy.key_ok in Hkey.
    rewrite Hopen in Hkey. destruct Hkey as (_ & n & Hn & _).
    cbn. eauto.
  - intros Hx. left. apply (Hattempt _ _ _) in Hx; [exact Hx|].
    pose proof (Hok0 key) as Hkey. unfold FailoverStrategy.key_ok in Hkey.
    destruct (FailoverStrategy.circuit_state _ !! key) as [st|] eqn:Hst.
    + destruct Hkey as (_ & n & Hn & _). eauto.
    + exfalso. revert Hst. unfold FailoverStrategy.init_key.
      destruct (FailoverStrategy.circuit_state s !! key) eqn:Hs;
        [congruence|]. cbn. now rewrite lookup_insert_eq.
Qed.

(** [reset_circuit(key)] for a key that is not the empty string closes that
    circuit and zeroes its failure counter but keeps its last failure time;
    the other keys and the fallbacks are untouched; and the next call for the
    key invokes the operation, whatever the circuit was before. *)
Theorem reset_circuit_of_key (s : @FailoverStrategy.t V E) (key : string) :
  key <> ""%string ->
  let s' := FailoverStrategy.reset_circuit (Some key) s in
  FailoverStrategy.get_circuit_status key s'
  = FailoverStrategy.mkStatus FailoverStrategy.CircuitBreakerState.CLOSED 0
      (FailoverStrategy.last_failure_time s !! key)
  /\ (forall k, k <> key ->
        FailoverStrategy.get_circuit_status k s'
        = FailoverStrategy.get_circuit_status k s)
  /\ FailoverStrategy.fallback_handlers s' = FailoverStrategy.fallback_handlers s
  /\ (forall (ev : env V E) (w : world),
        calls (FailoverStrategy.wrapper str is_Exception ev key s' w).2
        = S (calls w)).
Proof.
  intros Hne. cbv zeta. unfold FailoverStrategy.reset_circuit.
  apply String.eqb_neq in Hne. rewrite Hne.
  set (s' := FailoverStrategy.set_failures _ _).
  assert (Hcs : FailoverStrategy.circuit_state s' !! key
                = Some FailoverStrategy.CircuitBreakerState.CLOSED)
    by (cbn; apply lookup_insert_eq).
  split; [|split; [|split; [reflexivity|]]].
  - unfold FailoverStrategy.get_circuit_status. cbn.
    now rewrite !lookup_insert_eq.
  - intros k Hk. unfold FailoverStrategy.get_circuit_status. cbn.
    now rewrite !lookup_insert_ne by congruence.
  - intros ev w.
    rewrite (wrapper_not_open str is_Exception ev s' key w _ Hcs)
      by discriminate.
    exact (proj1 (attempt_world ev key (time ev (clock_reads w)) s'
                    (snd (time_time ev w)))).
Qed.

(** [reset_circuit()] without a key, and also [reset_circuit("")] since the
    empty string is falsy, forgets every circuit: each key reports the
    default status again; the fallbacks and the configuration stay. *)
Theorem reset_circuit_of_all (s : @FailoverStrategy.t V E)
    (key : option string) :
  key = None \/ key = Some ""%string ->
  let s' := FailoverStrategy.reset_circuit key s in
  (forall k, FailoverStrategy.get_circuit_status k s'
             = FailoverStrategy.mkStatus
                 FailoverStrategy.CircuitBreakerState.CLOSED 0 None)
  /\ FailoverStrategy.fallback_handlers s' = FailoverStrategy.fallback_handlers s
  /\ FailoverStrategy.max_failures s' = FailoverStrategy.max_failures s
  /\ FailoverStrategy.reset_timeout s' = FailoverStrategy.reset_timeout s.
Proof.
  intros [-> | ->]; cbv zeta; cbn; repeat split; intros k;
    unfold FailoverStrategy.get_circuit_status; cbn;
    now rewrite !lookup_empty.
Qed.

(** Resetting twice is resetting once, for every argument of
    [reset_circuit]; and resetting a key that is already closed with zero
    failures leaves the strategy exactly as it was. *)
Theorem reset_circuit_idempotent (s : @FailoverStrategy.t V E) :
  (forall key : option string,
      FailoverStrategy.reset_circuit key (FailoverStrategy.reset_circuit key s)
      = FailoverStrategy.reset_circuit key s)
  /\
  (forall key : string,
      key <> ""%string ->
      FailoverStrategy.circuit_state s !! key
        = Some FailoverStrategy.CircuitBreakerState.CLOSED ->
      FailoverStrategy.failures s !! key = Some 0 ->
      FailoverStrategy.reset_circuit (Some key) s = s).
Proof.
  split.
  - intros [key|]; [|reflexivity].
    unfold FailoverStrategy.reset_circuit.
    destruct (String.eqb key ""); [reflexivity|].
    unfold FailoverStrategy.set_failures, FailoverStrategy.put_state,
      FailoverStrategy.set_circuit_state. cbn.
    now rewrite !insert_insert_eq.
  - intros key Hne Hcs Hf. unfold FailoverStrategy.reset_circuit.
    apply String.eqb_neq in Hne. rewrite Hne.
    destruct s as [mf rt bs fl lft cs fbs]. cbn in Hcs, Hf |- *.
    unfold FailoverStrategy.set_failures, FailoverStrategy.put_state,
      FailoverStrategy.set_circuit_state. cbn.
    now rewrite (insert_id fl key 0 Hf), (insert_id cs key _ Hcs).
Qed.

(** Registering a fallback changes no circuit status, replaces whatever
    fallback the key had, and is what a rejected call then uses: on an open
    circuit within the timeout the call returns or raises what the newly
    registered fallback does, without invoking the operation. *)
Theorem register_fallback_takes_precedence (ev : env V E)
    (s : FailoverStrategy.t) (key : string) (fb : nat -> outcome V E)
    (w : world) :
  FailoverStrategy.circuit_state s !! key
    = Some FailoverStrategy.CircuitBreakerState.OPEN ->
  (time ev (clock_reads w)
     - default 0%Q (FailoverStrategy.last_failure_time s !! key)
     < FailoverStrategy.reset_timeout s)%Q ->
  let s' := FailoverStrategy.register_fallback key fb s in
  let run := FailoverStrategy.wrapper str is_Exception ev key s' w in
  (forall k, FailoverStrategy.get_circuit_status k s'
             = FailoverStrategy.get_circuit_status k s)
  /\ run.1.1 = FailoverStrategy.result_of (fb (fb_calls w))
  /\ run.1.2 = s'
  /\ calls run.2 = calls w
  /\ fb_calls run.2 = S (fb_calls w).
Proof.
  intros Hs Hlt. cbv zeta. split; [reflexivity|].
  rewrite (wrapper_blocked str is_Exception ev
             (FailoverStrategy.register_fallback key fb s) key w Hs Hlt).
  cbn. rewrite lookup_insert_eq. repeat split.
Qed.

(** A fallback that returns hides the failure from the caller but not from
    the circuit: the call returns the fallback's value, and the failure is
    counted, stamped with the time read at the start of the call, and opens
    the circuit when the counter reaches the threshold. *)
Theorem fallback_value_still_counts_failure (ev : env V E)
    (s : FailoverStrategy.t) (key st : string) (w : world) (n : Z) (e : E)
    (fb : nat -> outcome V E) (v : V) :
  FailoverStrategy.circuit_state s !! key = Some st ->
  st <> FailoverStrategy.CircuitBreakerState.OPEN ->
  FailoverStrategy.failures s !! key = Some n ->
  op ev (calls w) = Raises e ->
  is_Exception e = true ->
  FailoverStrategy.fallback_handlers s !! key = Some fb ->
  fb (fb_calls w) = Returns v ->
  let run := FailoverStrategy.wrapper str is_Exception ev key s w in
  run.1.1 = Ok v
  /\ FailoverStrategy.get_circuit_status key run.1.2
     = FailoverStrategy.mkStatus
         (if FailoverStrategy.max_failures s <=? n + 1
          then FailoverStrategy.CircuitBreakerState.OPEN else st)
         (n + 1) (Some (time ev (clock_reads w)))
  /\ calls run.2 = S (calls w).
Proof.
  intros Hst Hne Hn Ho He Hfb Hv. cbv zeta.
  destruct (wrapper_failing_call str is_Exception ev s key w e st n)
    as (Hf & Hl & Hcs & _ & Hc & _);
    rewrite ?(init_key_present s key st Hst); try assumption.
  split; [|split; [|exact Hc]].
  - rewrite (wrapper_not_open str is_Exception ev s key w st Hst Hne).
    rewrite (attempt_failure_result str is_Exception ev key _ s
               (snd (time_time ev w)) e n Ho He Hn), Hfb.
    change (fb_calls (snd (time_time ev w))) with (fb_calls w).
    now rewrite Hv.
  - unfold FailoverStrategy.get_circuit_status. now rewrite Hf, Hl, Hcs.
Qed.

(** A call whose operation returns, on a circuit that is closed, half-open
    or not yet created: the value is returned, the failure counter of the key
    is 0 and its circuit closed whatever was counted before; no fallback is
    invoked and the last failure time stays. *)
Theorem wrapper_success_resets_counter (ev : env V E)
    (s : FailoverStrategy.t) (key : string) (w : world) (v : V) :
  (FailoverStrategy.state (FailoverStrategy.get_circuit_status key s)
     = FailoverStrategy.CircuitBreakerState.CLOSED
   \/ FailoverStrategy.state (FailoverStrategy.get_circuit_status key s)
      = FailoverStrategy.CircuitBreakerState.HALF_OPEN) ->
  op ev (calls w) = Returns v ->
  let run := FailoverStrategy.wrapper str is_Exception ev key s w in
  run.1.1 = Ok v
  /\ FailoverStrategy.get_circuit_status key run.1.2
     = FailoverStrategy.mkStatus FailoverStrategy.CircuitBreakerState.CLOSED 0
         (FailoverStrategy.last_failure_time s !! key)
  /\ calls run.2 = S (calls w)
  /\ fb_calls run.2 = fb_calls w.
Proof.
  intros Hst Ho. cbv zeta.
  set (s0 := FailoverStrategy.init_key key s).
  assert (Hs0 : exists st, FailoverStrategy.circuit_state s0 !! key = Some st
                  /\ (st = FailoverStrategy.CircuitBreakerState.CLOSED
                      \/ st = FailoverStrategy.CircuitBreakerState.HALF_OPEN)
                  /\ FailoverStrategy.last_failure_time s0
                     = FailoverStrategy.last_failure_time s).
  { unfold s0, FailoverStrategy.init_key. cbn in Hst.
    destruct (FailoverStrategy.circuit_state s !! key) as [st|] eqn:Hcs.
    - exists st. rewrite Hcs. cbn in Hst. repeat split; assumption.
    - exists FailoverStrategy.CircuitBreakerState.CLOSED. cbn.
      rewrite lookup_insert_eq. repeat split. now left. }
  destruct Hs0 as (st & Hcs0 & Hst' & Hl0).
  assert (Hw : FailoverStrategy.wrapper str is_Exception ev key s w
               = FailoverStrategy.attempt str is_Exception ev key
                   (time ev (clock_reads w)) s0 (snd (time_time ev w))).
  { unfold FailoverStrategy.wrapper. cbn [time_time]. fold s0.
    unfold FailoverStrategy.state_is. rewrite Hcs0.
    destruct Hst' as [-> | ->]; reflexivity. }
  rewrite Hw, (attempt_success str is_Exception ev key _ s0
                 (snd (time_time ev w)) v Ho).
  cbn [fst snd]. split; [reflexivity|]. split; [|split; reflexivity].
  unfold FailoverStrategy.get_circuit_status, FailoverStrategy.state_is.
  rewrite Hcs0.
  destruct Hst' as [-> | ->]; cbn; rewrite ?lookup_insert_eq, ?Hcs0, Hl0;
    reflexivity.
Qed.

(** [_calculate_backoff] never returns more than the reset timeout enlarged
    by a tenth, whatever the strategy string and the attempt, and nothing
    negative for attempts from 0 on; a strategy string other than
    "exponential" and "linear" gives the reset timeout itself. *)
Theorem calculate_backoff_bounds (s : @FailoverStrategy.t V E) (attempt : Z)
    (r : Q) :
  0 <= attempt ->
  (0 <= FailoverStrategy.reset_timeout s)%Q ->
  (0 <= r)%Q -> (r <= 1)%Q ->
  (0 <= FailoverStrategy._calculate_backoff s attempt r
     <= (11 # 10) * FailoverStrategy.reset_timeout s)%Q
  /\ (FailoverStrategy.backoff_strategy s <> "exponential"%string ->
      FailoverStrategy.backoff_strategy s <> "linear"%string ->
      FailoverStrategy._calculate_backoff s attempt r
      = FailoverStrategy.reset_timeout s).
Proof.
  intros Ha Hrt Hr0 Hr1. unfold FailoverStrategy._calculate_backoff, uniform.
  destruct (String.eqb_spec (FailoverStrategy.backoff_strategy s) "exponential")
    as [Hexp|Hexp].
  - split; [|congruence].
    set (b := Qmin _ _).
    assert (Hb0 : (0 <= b)%Q)
      by (apply Q.min_glb; [exact Hrt|apply Qpower_0_le; discriminate]).
    assert (Hb1 : (b <= FailoverStrategy.reset_timeout s)%Q)
      by apply Q.le_min_l.
    assert (Hbr : (0 <= b * r)%Q) by now apply Qmult_le_0_compat.
    assert (Hbr1 : (b * r <= b)%Q) by nra.
    split; lra.
  - destruct (String.eqb_spec (FailoverStrategy.backoff_strategy s) "linear")
      as [Hlin|Hlin].
    + split; [|congruence]. split.
      * apply Q.min_glb; [exact Hrt|].
        change 0%Q with (inject_Z 0). rewrite <- Zle_Qle. lia.
      * pose proof (Q.le_min_l (FailoverStrategy.reset_timeout s)
                      (inject_Z (attempt * 5))). lra.
    + split; [split; lra|reflexivity].
Qed.

(** [k] failing passes of [ErrorHandler]'s loop, none of them the last
    allowed one, each with a delay [time.sleep] accepts. *)
Lemma backoff_loop_run (ev : env V E) (func_name : string) (max_retries : Z)
    (backoff_factor : Q) (k : nat) :
  forall (fuel : nat) (retries : Z) (delay : Q) (w : world),
    (forall i, (i < k)%nat ->
       exists e, op ev (calls w + i) = Raises e /\ is_Exception e = true) ->
    retries + Z.of_nat k < max_retries ->
    (k <= fuel)%nat ->
    (forall i, (i < k)%nat ->
       sleepable (Nat.iter i (fun d => d * backoff_factor)%Q delay)) ->
    exists w',
      ErrorHandler.retry_loop is_Exception ev func_name max_retries
        backoff_factor fuel retries delay w
      = ErrorHandler.retry_loop is_Exception ev func_name max_retries
          backoff_factor (fuel - k) (retries + Z.of_nat k)
          (Nat.iter k (fun d => d * backoff_factor)%Q delay) w'
      /\ calls w' = (calls w + k)%nat
      /\ slept w'
         = slept w
           ++ map (fun i : nat =>
                     Nat.iter i (fun d => d * backoff_factor)%Q delay)
                (seq 0 k).
Proof.
  induction k as [|k IH]; intros fuel retries delay w Hop Hlt Hfuel Hsleep.
  - exists w. rewrite Nat.sub_0_r, Z.add_0_r. cbn.
    rewrite app_nil_r. repeat split. lia.
  - destruct fuel as [|fuel]; [lia|].
    destruct (Hop 0%nat ltac:(lia)) as (e & Ho & He).
    rewrite Nat.add_0_r in Ho.
    cbn [ErrorHandler.retry_loop invoke].
    replace (retries <? max_retries) with true
      by (symmetry; apply Z.ltb_lt; lia).
    rewrite Ho, He.
    replace (max_retries <=? retries + 1) with false
      by (symmetry; apply Z.leb_gt; lia).
    rewrite (proj2 (time_sleep_error_None delay) (Hsleep 0%nat ltac:(lia))).
    set (w1 := emit (Sleep delay) _).
    destruct (IH fuel (retries + 1) (delay * backoff_factor)%Q w1)
      as (w' & Hrun & Hc & Hsl).
    + intros i Hi. destruct (Hop (S i) ltac:(lia)) as (e' & Ho' & He').
      exists e'. split; [|exact He'].
      change (calls w1) with (S (calls w)). now rewrite Nat.add_succ_comm.
    + lia.
    + lia.
    + intros i Hi. specialize (Hsleep (S i) ltac:(lia)).
      now rewrite Nat.iter_succ_r in Hsleep.
    + exists w'. rewrite Hrun.
      replace (retries + 1 + Z.of_nat k) with (retries + Z.of_nat (S k)) by lia.
      rewrite Nat.iter_succ_r. cbn [Nat.sub].
      split; [reflexivity|].
      split; [change (calls w1) with (S (calls w)) in Hc; lia|].
      rewrite Hsl. unfold w1. rewrite slept_emit_Sleep, slept_emit_LogWarning.
      change (slept (snd (invoke ev w))) with (slept w).
      rewrite <- app_assoc. f_equal. cbn [seq map app Nat.iter]. f_equal.
      rewrite <- seq_shift, map_map. apply map_ext. intros i.
      now rewrite Nat.iter_succ_r.
Qed.

Lemma iter_backoff_power (d f : Q) (i : nat) :
  (Nat.iter i (fun x => x * f) d == d * f ^ Z.of_nat i)%Q.
Proof.
  induction i as [|i IH].
  - change (d == d * 1)%Q. ring.
  - cbn [Nat.iter].
    apply (Qeq_trans _ (d * f ^ Z.of_nat i * f)%Q);
      [apply Qmult_comp; [exact IH|reflexivity]|].
    replace (Z.of_nat (S i)) with (Z.of_nat i + 1) by lia.
    destruct (Qeq_dec f 0) as [Hf|Hf].
    + rewrite Hf. rewrite (Qpower_0 (Z.of_nat i + 1)) by lia. ring.
    + rewrite Qpower_plus by exact Hf. change (f ^ 1)%Q with f. ring.
Qed.

(** [retry_with_backoff] on an operation that keeps raising [Exception]s:
    with [max_retries = m + 1] it is invoked exactly [m + 1] times; the
    wrapper then re-raises the last exception unmodified; between the
    attempts it sleeps [m] times, the delay starting at [base_delay] and
    being multiplied by [backoff_factor] each time, provided each of these
    delays is one [time.sleep] accepts (not negative, below [2^63]
    nanoseconds). *)
Theorem retry_with_backoff_exhausts (ev : env V E) (func_name : string)
    (base_delay backoff_factor : Q) (m : nat) (w : world) :
  (forall i, (i <= m)%nat ->
     exists e, op ev (calls w + i) = Raises e /\ is_Exception e = true) ->
  (forall i, (i < m)%nat ->
     sleepable (Nat.iter i (fun d => d * backoff_factor)%Q base_delay)) ->
  let run := ErrorHandler.retry_with_backoff is_Exception ev func_name
               (Z.of_nat (S m)) base_delay backoff_factor w in
  (exists e, op ev (calls w + m) = Raises e /\ run.1 = Err (Propagated e))
  /\ calls run.2 = (calls w + S m)%nat
  /\ slept run.2
     = slept w
       ++ map (fun i : nat =>
                 Nat.iter i (fun d => d * backoff_factor)%Q base_delay)
            (seq 0 m)
  /\ forall i, (Nat.iter i (fun d => d * backoff_factor) base_delay
                == base_delay * backoff_factor ^ Z.of_nat i)%Q.
Proof.
  intros Hop Hsleep. cbv zeta. unfold ErrorHandler.retry_with_backoff.
  rewrite Nat2Z.id.
  destruct (backoff_loop_run ev func_name (Z.of_nat (S m)) backoff_factor m
              (S m) 0 base_delay w
              ltac:(intros i Hi; apply Hop; lia) ltac:(lia) ltac:(lia) Hsleep)
    as (w' & -> & Hc & Hsl).
  destruct (Hop m ltac:(lia)) as (e & Ho & He).
  replace (S m - m)%nat with 1%nat by lia.
  cbn [ErrorHandler.retry_loop invoke].
  replace (0 + Z.of_nat m <? Z.of_nat (S m)) with true
    by (symmetry; apply Z.ltb_lt; lia).
  rewrite Hc, Ho, He.
  replace (Z.of_nat (S m) <=? 0 + Z.of_nat m + 1) with true
    by (symmetry; apply Z.leb_le; lia).
  cbn [fst snd]. split; [eauto|]. split; [cbn; lia|].
  split; [|intros i; apply iter_backoff_power].
  rewrite slept_emit_LogWarning. exact Hsl.
Qed.

(** [retry_with_backoff] on an operation that raises [k] [Exception]s and
    then returns [v], with [k] below [max_retries] and each of the [k]
    delays one [time.sleep] accepts: the wrapper returns [v] after [k + 1]
    invocations and [k] sleeps. *)
Theorem retry_with_backoff_recovers (ev : env V E) (func_name : string)
    (max_retries : Z) (base_delay backoff_factor : Q) (k : nat) (v : V)
    (w : world) :
  (forall i, (i < k)%nat ->
     exists e, op ev (calls w + i) = Raises e /\ is_Exception e = true) ->
  op ev (calls w + k) = Returns v ->
  Z.of_nat k < max_retries ->
  (forall i, (i < k)%nat ->
     sleepable (Nat.iter i (fun d => d * backoff_factor)%Q base_delay)) ->
  let run := ErrorHandler.retry_with_backoff is_Exception ev func_name
               max_retries base_delay backoff_factor w in
  run.1 = Ok (Some v)
  /\ calls run.2 = (calls w + k + 1)%nat
  /\ slept run.2
     = slept w
       ++ map (fun i : nat =>
                 Nat.iter i (fun d => d * backoff_factor)%Q base_delay)
            (seq 0 k).
Proof.
  intros Hop Hv Hk Hsleep. cbv zeta. unfold ErrorHandler.retry_with_backoff.
  destruct (backoff_loop_run ev func_name max_retries backoff_factor k
              (Z.to_nat max_retries) 0 base_delay w Hop
              ltac:(lia) ltac:(lia) Hsleep)
    as (w' & -> & Hc & Hsl).
  destruct (Z.to_nat max_retries - k)%nat as [|fuel] eqn:Hfuel; [lia|].
  cbn [ErrorHandler.retry_loop invoke].
  replace (0 + Z.of_nat k <? max_retries) with true
    by (symmetry; apply Z.ltb_lt; lia).
  rewrite Hc, Hv. cbn [fst snd]. split; [reflexivity|].
  split; [cbn; lia|exact Hsl].
Qed.

(** [retry_with_backoff] with a negative [base_delay] (not so negative that
    its nanoseconds leave 64 bits) and at least two attempts allowed: the
    first [Exception] of the operation is logged, then [time.sleep] rejects
    the delay, and the caller gets [ValueError] in place of the operation's
    exception, after a single invocation and without any sleep. *)
Theorem retry_with_backoff_negative_delay (ev : env V E) (func_name : string)
    (max_retries : Z) (base_delay backoff_factor : Q) (w : world) (e : E) :
  op ev (calls w) = Raises e ->
  is_Exception e = true ->
  2 <= max_retries ->
  (base_delay < 0)%Q ->
  (inject_Z (- 2 ^ 63) <= base_delay * inject_Z (10 ^ 9))%Q ->
  let run := ErrorHandler.retry_with_backoff is_Exception ev func_name
               max_retries base_delay backoff_factor w in
  run.1 = Err ValueError
  /\ calls run.2 = S (calls w)
  /\ slept run.2 = slept w
  /\ events run.2
     = LogWarning ("Retry attempt 1 for " ++ func_name) :: events w.
Proof.
  intros Ho He Hm Hneg Hlow. cbv zeta.
  unfold ErrorHandler.retry_with_backoff.
  destruct (Z.to_nat max_retries) as [|fuel] eqn:Hfuel; [lia|].
  cbn [ErrorHandler.retry_loop invoke].
  replace (0 <? max_retries) with true by (symmetry; apply Z.ltb_lt; lia).
  rewrite Ho, He.
  replace (max_retries <=? 0 + 1) with false
    by (symmetry; apply Z.leb_gt; lia).
  assert (Hsleep : @time_sleep_error E base_delay = Some ValueError).
  { unfold time_sleep_error.
    rewrite (Qltb_false _ _ Hlow).
    rewrite Qle_bool_false.
    - now rewrite (Qltb_true _ _ Hneg).
    - assert (H9 : (0 <= inject_Z (10 ^ 9))%Q) by discriminate.
      assert (H63 : (0 < inject_Z (2 ^ 63))%Q) by reflexivity.
      set (n := inject_Z (10 ^ 9)) in *. set (b := inject_Z (2 ^ 63)) in *.
      nra. }
  rewrite Hsleep. cbn. repeat split.
Qed.

Lemma backoff_loop_bound (ev : env V E) (func_name : string) (max_retries : Z)
    (backoff_factor : Q) (fuel : nat) :
  forall (retries : Z) (delay : Q) (w : world),
    max_retries - retries <= Z.of_nat fuel ->
    let run := ErrorHandler.retry_loop is_Exception ev func_name max_retries
                 backoff_factor fuel retries delay w in
    (calls w <= calls run.2
     <= calls w + Z.to_nat (max_retries - retries))%nat
    /\ (run.1 = Ok None -> max_retries <= retries /\ run.2 = w).
Proof.
  induction fuel as [|fuel IH]; intros retries delay w Hfuel;
    cbn [ErrorHandler.retry_loop].
  - cbn. split; [lia|]. intros _. split; [lia|reflexivity].
  - destruct (Z.ltb_spec retries max_retries) as [Hlt|Hge].
    2:{ cbn. split; [lia|]. intros _. split; [lia|reflexivity]. }
    cbn [invoke]. destruct (op ev (calls w)) as [v|e].
    + cbn. split; [lia|discriminate].
    + destruct (is_Exception e); [|cbn; split; [lia|discriminate]].
      destruct (Z.leb_spec max_retries (retries + 1)) as [Hlast|Hmore].
      * cbn. split; [lia|discriminate].
      * destruct (time_sleep_error delay) as [x|];
          [cbn; split; [lia|discriminate]|].
        set (w3 := emit (Sleep delay) _).
        specialize (IH (retries + 1) (delay * backoff_factor)%Q w3
                      ltac:(lia)).
        cbv zeta in IH. destruct IH as (Hc & Hnone).
        change (calls w3) with (S (calls w)) in Hc.
        split; [lia|]. intros Hr. destruct (Hnone Hr) as (Habs & _). lia.
Qed.

(** [retry_with_backoff] invokes the operation at most [max_retries] times;
    it falls off its loop and returns [None] exactly when [max_retries] is
    below 1, and then nothing was invoked, logged or slept. *)
Theorem retry_with_backoff_bound (ev : env V E) (func_name : string)
    (max_retries : Z) (base_delay backoff_factor : Q) (w : world) :
  let run := ErrorHandler.retry_with_backoff is_Exception ev func_name
               max_retries base_delay backoff_factor w in
  (calls w <= calls run.2 <= calls w + Z.to_nat max_retries)%nat
  /\ (run.1 = Ok None <-> max_retries < 1)
  /\ (max_retries < 1 -> run.2 = w).
Proof.
  cbv zeta. unfold ErrorHandler.retry_with_backoff.
  destruct (backoff_loop_bound ev func_name max_retries backoff_factor
              (Z.to_nat max_retries) 0 base_delay w ltac:(lia))
    as (Hc & Hnone).
  rewrite Z.sub_0_r in Hc. split; [exact Hc|].
  assert (Hlow : max_retries < 1 ->
                 ErrorHandler.retry_loop is_Exception ev func_name max_retries
                   backoff_factor (Z.to_nat max_retries) 0 base_delay w
                 = (Ok None, w)).
  { intros Hm. replace (Z.to_nat max_retries) with 0%nat by lia. reflexivity. }
  split; [split|].
  - intros Hr. destruct (Hnone Hr) as (Hle & _). lia.
  - intros Hm. now rewrite (Hlow Hm).
  - intros Hm. now rewrite (Hlow Hm).
Qed.

End Further.

(** ** The further properties at concrete runs *)

(** The scenario of the specification: two failures, then success, on
    three attempts with exponential backoff from 1 without jitter. *)
Lemma retry_recovers_after_failures_witness :
  let run := RetryHandler.retry Examples.str Examples.fails_twice
               Examples.scenario_handler world0 in
  run.1.1 = Ok (Some 42)
  /\ calls run.2 = 3%nat
  /\ RetryHandler._failure_count run.1.2 = 0
  /\ RetryHandler._circuit_state run.1.2 = RetryHandler.CLOSED
  /\ map Some (slept run.2)
     = [RetryHandler._calculate_delay Examples.scenario_handler 1 0;
        RetryHandler._calculate_delay Examples.scenario_handler 2 0]
  /\ Forall2 Qeq (slept run.2) [1%Q; 2%Q].
Proof.
  destruct (@retry_recovers_after_failures Z string Examples.str
              Examples.fails_twice Examples.scenario_handler world0 2%nat 42)
    as (Hr & Hc & Hn & Hs & delays & Hsl & Hdl).
  - discriminate.
  - intros i Hi. exists "ConnectionError"%string.
    do 2 (destruct i as [|i]; [split; reflexivity|]). lia.
  - reflexivity.
  - vm_compute. reflexivity.
  - vm_compute. reflexivity.
  - vm_compute. discriminate.
  - split; [exact Hr|]. split; [exact Hc|]. split; [exact Hn|].
    split; [exact Hs|]. rewrite Hsl.
    change (slept world0 ++ delays) with delays.
    split; [exact Hdl|].
    destruct delays as [|d1 [|d2 [|d3 delays]]]; try discriminate Hdl.
    injection Hdl as -> ->.
    repeat constructor; vm_compute; reflexivity.
Defined.

Lemma retry_success_resets_circuit_witness :
  let run := RetryHandler.retry Examples.str Examples.probe_succeeds
               (Examples.tripped 3) world0 in
  run.1.1 = Ok (Some 42)
  /\ RetryHandler._failure_count run.1.2 = 0
  /\ RetryHandler._circuit_state run.1.2 = RetryHandler.CLOSED
  /\ RetryHandler._last_failure_time run.1.2 = Some (inject_Z 1000).
Proof.
  destruct (@retry_success_resets_circuit Z string Examples.str
              Examples.probe_succeeds (Examples.tripped 3) world0 42 eq_refl)
    as (Hn & Hs & Hl & _).
  split; [reflexivity|]. split; [exact Hn|]. split; [exact Hs|exact Hl].
Defined.

Lemma retry_returns_None_only_without_attempts_witness :
  let run := RetryHandler.retry Examples.str Examples.always_succeeds
               (Examples.fresh 0 5 None) world0 in
  run.1.1 = Ok None
  /\ RetryHandler._max_retries (Examples.fresh 0 5 None) < 1
  /\ calls run.2 = 0%nat.
Proof.
  split; [reflexivity|].
  exact (@retry_returns_None_only_without_attempts Z string Examples.str
           Examples.always_succeeds (Examples.fresh 0 5 None) world0 eq_refl).
Defined.

(** The handler of [github_integration.py] on an operation that is down:
    the first call uses its three attempts, the second trips the circuit at
    its second attempt, the fifth failure in all. *)
Lemma retry_exhausts_all_attempts_witness :
  let run := RetryHandler.retry Examples.str Examples.always_fails
               Examples.github_retry_handler world0 in
  run.1.1 = Err (RetryHandler.failed_after Examples.str 3 "ConnectionError")
  /\ calls run.2 = 3%nat
  /\ RetryHandler._failure_count run.1.2 = 3
  /\ RetryHandler._circuit_state run.1.2 = RetryHandler.CLOSED
  /\ length (slept run.2) = 2%nat.
Proof.
  destruct (@retry_exhausts_all_attempts Z string Examples.str
              Examples.always_fails Examples.github_retry_handler world0 2%nat)
    as ((e & He & Hr) & Hc & Hn & Hs & delays & Hsl & Hdl).
  - discriminate.
  - reflexivity.
  - intros i _. exists "ConnectionError"%string. split; reflexivity.
  - vm_compute. reflexivity.
  - vm_compute. discriminate.
  - injection He as <-.
    split; [exact Hr|]. split; [exact Hc|]. split; [exact Hn|].
    split; [exact Hs|]. rewrite Hsl.
    change (slept world0 ++ delays) with delays.
    apply (f_equal (@length _)) in Hdl.
    now rewrite !length_map in Hdl.
Defined.

Lemma retry_trips_at_threshold_witness :
  let h := RetryHandler.set_failure_count 3 Examples.github_retry_handler in
  let run := RetryHandler.retry Examples.str Examples.always_fails h world0 in
  run.1.1 = Err (RetryHandler.circuit_opened Examples.str 5 "ConnectionError")
  /\ calls run.2 = 2%nat
  /\ RetryHandler._failure_count run.1.2 = 5
  /\ RetryHandler._circuit_state run.1.2 = RetryHandler.OPEN
  /\ RetryHandler._last_failure_time run.1.2 = Some (inject_Z 1000).
Proof.
  destruct (@retry_trips_at_threshold Z string Examples.str
              Examples.always_fails
              (RetryHandler.set_failure_count 3 Examples.github_retry_handler)
              world0 1%nat)
    as ((e & He & Hr) & Hc & Hn & Hs & Hl).
  - discriminate.
  - reflexivity.
  - vm_compute. reflexivity.
  - intros i _. exists "ConnectionError"%string. split; reflexivity.
  - vm_compute. discriminate.
  - injection He as <-.
    split; [exact Hr|]. split; [exact Hc|]. split; [exact Hn|].
    split; [exact Hs|exact Hl].
Defined.

(** The handler of [github_integration.py] at its seventh attempt, and at
    attempt 1024, the last one whose exponential delay can be computed. *)
Lemma calculate_delay_within_bounds_witness :
  (exists delay,
      RetryHandler._calculate_delay Examples.github_retry_handler 7 (9 # 10)
      = Some delay
      /\ (0 <= delay <= 60 * (1 + (1 # 10)))%Q)
  /\
  (exists delay,
      RetryHandler._calculate_delay Examples.github_retry_handler 1024 (9 # 10)
      = Some delay
      /\ (0 <= delay <= 60 * (1 + (1 # 10)))%Q).
Proof.
  split.
  - apply (@calculate_delay_within_bounds string Examples.github_retry_handler
             7 (9 # 10)); vm_compute; discriminate.
  - apply (@calculate_delay_within_bounds string Examples.github_retry_handler
             1024 (9 # 10)); vm_compute; discriminate.
Defined.

Lemma calculate_delay_monotone_without_jitter_witness :
  exists delay delay',
    RetryHandler._calculate_delay Examples.scenario_handler 2 0 = Some delay
    /\ RetryHandler._calculate_delay Examples.scenario_handler 3 0
       = Some delay'
    /\ (delay <= delay')%Q.
Proof.
  apply (@calculate_delay_monotone_without_jitter string
           Examples.scenario_handler 2 0 0);
    [vm_compute; discriminate | vm_compute; discriminate
     | vm_compute; discriminate | reflexivity].
Defined.


(** Four calls through the decorator of the handler of
    [github_integration.py]: twelve invocations, no open circuit. *)
Lemma decorator_calls_do_not_share_circuit_witness :
  let run := repeat_call
               (RetryHandler.decorator Examples.str Examples.is_Exception
                  None None Examples.always_fails) 4
               Examples.github_retry_handler world0 in
  run.1.1 = repeat (Err (RetryHandler.failed_after Examples.str 3
                           "ConnectionError")) 4
  /\ run.1.2 = Examples.github_retry_handler
  /\ calls run.2 = 12%nat.
Proof.
  exact (@decorator_calls_do_not_share_circuit Z string Examples.str
           Examples.is_Exception Examples.always_fails
           Examples.github_retry_handler None None "ConnectionError"%string
           2%nat 4%nat (fun _ => eq_refl) eq_refl eq_refl
           ltac:(vm_compute; lia) world0).
Defined.

Lemma wrapper_touches_only_its_key_witness :
  let s := Examples.tripped_strategy ∅ in
  let run := FailoverStrategy.wrapper Examples.str Examples.is_Exception
               Examples.always_fails "g" s world0 in
  "f"%string <> "g"%string
  /\ FailoverStrategy.get_circuit_status "f" run.1.2
     = FailoverStrategy.get_circuit_status "f" s
  /\ calls run.2 = 1%nat.
Proof.
  assert (Hne : "f"%string <> "g"%string) by discriminate.
  split; [exact Hne|]. split; [|reflexivity].
  destruct (@wrapper_touches_only_its_key Z string Examples.str
              Examples.is_Exception Examples.always_fails "g"%string
              (Examples.tripped_strategy ∅) world0)
    as (_ & _ & _ & _ & _ & _ & Hother).
  exact (Hother "f"%string Hne).
Defined.

Lemma reachable_status_well_formed_witness :
  let s := (FailoverStrategy.wrapper Examples.str Examples.is_Exception
              Examples.always_fails "f" Examples.fresh_strategy world0).1.2 in
  let status := FailoverStrategy.get_circuit_status "f" s in
  FailoverStrategy.status_failures status = 1
  /\ (FailoverStrategy.state status
        = FailoverStrategy.CircuitBreakerState.CLOSED
      \/ FailoverStrategy.state status
         = FailoverStrategy.CircuitBreakerState.OPEN
      \/ FailoverStrategy.state status
         = FailoverStrategy.CircuitBreakerState.HALF_OPEN)
  /\ 0 <= FailoverStrategy.status_failures status.
Proof.
  split; [reflexivity|].
  destruct (@reachable_status_well_formed Z string Examples.str
              Examples.is_Exception
              (FailoverStrategy.wrapper Examples.str Examples.is_Exception
                 Examples.always_fails "f" Examples.fresh_strategy world0).1.2
              "f"%string) as (Hst & Hn & _).
  - apply FailoverStrategy.reachable_call, FailoverStrategy.reachable_init.
  - split; [exact Hst|exact Hn].
Defined.

Lemma wrapper_raises_only_callee_errors_or_circuit_open_witness :
  let run := FailoverStrategy.wrapper Examples.str Examples.is_Exception
               Examples.always_fails "f" Examples.fresh_strategy world0 in
  run.1.1 = Err (Propagated "ConnectionError"%string)
  /\ ((exists e : string, Propagated "ConnectionError"%string = Propagated e)
      \/ (@Propagated string "ConnectionError"
          = RuntimeError ("Circuit breaker open for " ++ "f")
          /\ FailoverStrategy.fallback_handlers Examples.fresh_strategy
               !! "f"%string = None
          /\ calls run.2 = calls world0)).
Proof.
  split; [reflexivity|].
  apply (@wrapper_raises_only_callee_errors_or_circuit_open Z string
           Examples.str Examples.is_Exception Examples.always_fails
           "f"%string Examples.fresh_strategy world0);
    [apply FailoverStrategy.reachable_init|reflexivity].
Defined.

Lemma reset_circuit_of_key_witness :
  let s := Examples.tripped_strategy ∅ in
  let s' := FailoverStrategy.reset_circuit (Some "f"%string) s in
  FailoverStrategy.get_circuit_status "f" s'
  = FailoverStrategy.mkStatus FailoverStrategy.CircuitBreakerState.CLOSED 0
      (Some (inject_Z 1000))
  /\ calls (FailoverStrategy.wrapper Examples.str Examples.is_Exception
              Examples.always_fails "f" s' world0).2 = 1%nat.
Proof.
  destruct (@reset_circuit_of_key Z string Examples.str Examples.is_Exception
              (Examples.tripped_strategy ∅) "f"%string ltac:(discriminate))
    as (Hst & _ & _ & Hcall).
  split; [exact Hst|exact (Hcall Examples.always_fails world0)].
Defined.

Lemma reset_circuit_of_all_witness :
  FailoverStrategy.get_circuit_status "f"
    (FailoverStrategy.reset_circuit (Some ""%string)
       (Examples.tripped_strategy ∅))
  = FailoverStrategy.mkStatus FailoverStrategy.CircuitBreakerState.CLOSED 0
      None.
Proof.
  exact (proj1 (@reset_circuit_of_all Z string (Examples.tripped_strategy ∅)
                  (Some ""%string) (or_intror eq_refl)) "f"%string).
Defined.

Lemma reset_circuit_idempotent_witness :
  let s := FailoverStrategy.init_key "f" Examples.fresh_strategy in
  FailoverStrategy.reset_circuit (Some "f"%string) s = s.
Proof.
  exact (proj2 (@reset_circuit_idempotent Z string
                  (FailoverStrategy.init_key "f" Examples.fresh_strategy))
           "f"%string ltac:(discriminate) eq_refl eq_refl).
Defined.

Lemma register_fallback_takes_precedence_witness :
  let s := Examples.tripped_strategy
             {[ "f"%string := Examples.fallback_fails ]} in
  let run := FailoverStrategy.wrapper Examples.str Examples.is_Exception
               Examples.always_fails "f"
               (FailoverStrategy.register_fallback "f" Examples.fallback_ok s)
               world0 in
  run.1.1 = Ok 7 /\ calls run.2 = 0%nat /\ fb_calls run.2 = 1%nat.
Proof.
  destruct (@register_fallback_takes_precedence Z string Examples.str
              Examples.is_Exception Examples.always_fails
              (Examples.tripped_strategy
                 {[ "f"%string := Examples.fallback_fails ]})
              "f"%string Examples.fallback_ok world0 eq_refl
              ltac:(vm_compute; reflexivity))
    as (_ & Hr & _ & Hc & Hf).
  split; [exact Hr|]. split; [exact Hc|exact Hf].
Defined.

Lemma fallback_value_still_counts_failure_witness :
  let s := FailoverStrategy.register_fallback "f" Examples.fallback_ok
             (FailoverStrategy.mk 3 60 "exponential"
                {[ "f"%string := 2 ]} ∅
                {[ "f"%string := FailoverStrategy.CircuitBreakerState.CLOSED ]}
                ∅) in
  let run := FailoverStrategy.wrapper Examples.str Examples.is_Exception
               Examples.always_fails "f" s world0 in
  run.1.1 = Ok 7
  /\ FailoverStrategy.get_circuit_status "f" run.1.2
     = FailoverStrategy.mkStatus FailoverStrategy.CircuitBreakerState.OPEN 3
         (Some (inject_Z 1000))
  /\ calls run.2 = 1%nat.
Proof.
  exact (@fallback_value_still_counts_failure Z string Examples.str
           Examples.is_Exception Examples.always_fails
           (FailoverStrategy.register_fallback "f" Examples.fallback_ok
              (FailoverStrategy.mk 3 60 "exponential"
                 {[ "f"%string := 2 ]} ∅
                 {[ "f"%string := FailoverStrategy.CircuitBreakerState.CLOSED ]}
                 ∅))
           "f"%string FailoverStrategy.CircuitBreakerState.CLOSED world0 2
           "ConnectionError"%string Examples.fallback_ok 7
           eq_refl ltac:(discriminate) eq_refl eq_refl eq_refl eq_refl eq_refl).
Defined.

Lemma wrapper_success_resets_counter_witness :
  let s := FailoverStrategy.mk 3 60 "exponential"
             {[ "f"%string := 2 ]} {[ "f"%string := inject_Z 900 ]}
             {[ "f"%string := FailoverStrategy.CircuitBreakerState.CLOSED ]}
             (∅ : gmap string (nat -> outcome Z string)) in
  let run := FailoverStrategy.wrapper Examples.str Examples.is_Exception
               Examples.always_succeeds "f" s world0 in
  run.1.1 = Ok 42
  /\ FailoverStrategy.get_circuit_status "f" run.1.2
     = FailoverStrategy.mkStatus FailoverStrategy.CircuitBreakerState.CLOSED 0
         (Some (inject_Z 900)).
Proof.
  destruct (@wrapper_success_resets_counter Z string Examples.str
              Examples.is_Exception Examples.always_succeeds
              (FailoverStrategy.mk 3 60 "exponential"
                 {[ "f"%string := 2 ]} {[ "f"%string := inject_Z 900 ]}
                 {[ "f"%string := FailoverStrategy.CircuitBreakerState.CLOSED ]}
                 ∅)
              "f"%string world0 42
              ltac:(left; vm_compute; reflexivity) eq_refl)
    as (Hr & Hst & _).
  split; [exact Hr|exact Hst].
Defined.

Lemma calculate_backoff_bounds_witness :
  (0 <= FailoverStrategy._calculate_backoff Examples.fresh_strategy 4 (1 # 2)
     <= (11 # 10) * 60)%Q.
Proof.
  apply (proj1 (@calculate_backoff_bounds Z string Examples.fresh_strategy 4
                  (1 # 2) ltac:(vm_compute; discriminate)
                  ltac:(vm_compute; discriminate)
                  ltac:(vm_compute; discriminate)
                  ltac:(vm_compute; discriminate))).
Defined.

Lemma retry_with_backoff_exhausts_witness :
  let run := ErrorHandler.retry_with_backoff Examples.is_Exception
               Examples.always_fails "fetch" 3 1 2 world0 in
  run.1 = Err (Propagated "ConnectionError"%string)
  /\ calls run.2 = 3%nat
  /\ slept run.2 = [1%Q; (1 * 2)%Q].
Proof.
  destruct (@retry_with_backoff_exhausts Z string Examples.is_Exception
              Examples.always_fails "fetch"%string 1 2 2%nat world0)
    as ((e & He & Hr) & Hc & Hsl & _).
  - intros i _. exists "ConnectionError"%string. split; reflexivity.
  - intros i Hi.
    do 2 (destruct i as [|i]; [split; vm_compute; [discriminate|reflexivity]|]).
    lia.
  - injection He as <-. split; [exact Hr|]. split; [exact Hc|exact Hsl].
Defined.

Lemma retry_with_backoff_recovers_witness :
  let run := ErrorHandler.retry_with_backoff Examples.is_Exception
               Examples.fails_twice "fetch" 3 1 2 world0 in
  run.1 = Ok (Some 42) /\ calls run.2 = 3%nat /\ length (slept run.2) = 2%nat.
Proof.
  destruct (@retry_with_backoff_recovers Z string Examples.is_Exception
              Examples.fails_twice "fetch"%string 3 1 2 2%nat 42 world0)
    as (Hr & Hc & Hsl).
  - intros i Hi. exists "ConnectionError"%string.
    do 2 (destruct i as [|i]; [split; reflexivity|]). lia.
  - reflexivity.
  - vm_compute. reflexivity.
  - intros i Hi.
    do 2 (destruct i as [|i]; [split; vm_compute; [discriminate|reflexivity]|]).
    lia.
  - split; [exact Hr|]. split; [exact Hc|]. now rewrite Hsl.
Defined.

Lemma retry_with_backoff_bound_witness :
  let run := ErrorHandler.retry_with_backoff Examples.is_Exception
               Examples.always_fails "fetch" 0 1 2 world0 in
  run.1 = Ok None /\ run.2 = world0.
Proof.
  destruct (@retry_with_backoff_bound Z string Examples.is_Exception
              Examples.always_fails "fetch"%string 0 1 2 world0)
    as (_ & Hnone & Hw).
  split; [apply Hnone|apply Hw]; vm_compute; reflexivity.
Defined.

(** [RetryHandler(max_retries=1, retry_on=())] on an operation that raises
    a [ValueError]: the error is caught and replaced. *)
Lemma retry_on_empty_tuple_catches_every_Exception_witness :
  let h := RetryHandler.__init__ Examples.is_Exception 1 1 60
             RetryHandler.EXPONENTIAL (1 # 10) 5 30
             (RetryHandler.retry_on_or_Exception (RetryHandler.RetryOnTuple [])) in
  let run := RetryHandler.retry Examples.str Examples.raises_ValueError
               h world0 in
  run.1.1 = Err (RetryHandler.failed_after Examples.str 1 "ValueError")
  /\ RetryHandler._failure_count run.1.2 = 1
  /\ calls run.2 = 1%nat.
Proof.
  destruct (@retry_on_empty_tuple_catches_every_Exception Z string
              Examples.str Examples.is_Exception Examples.raises_ValueError
              world0 "ValueError"%string 1 60 RetryHandler.EXPONENTIAL
              (1 # 10) 5 30 eq_refl eq_refl ltac:(vm_compute; reflexivity))
    as (_ & Hr & Hn & Hc & _).
  split; [exact Hr|]. split; [exact Hn|exact Hc].
Defined.

(** [retry_with_backoff(fetch, max_retries=3, base_delay=-1)] on an
    operation that is down. *)
Lemma retry_with_backoff_negative_delay_witness :
  let run := ErrorHandler.retry_with_backoff Examples.is_Exception
               Examples.always_fails "fetch" 3 (-1) 2 world0 in
  run.1 = Err ValueError /\ calls run.2 = 1%nat /\ slept run.2 = [].
Proof.
  destruct (@retry_with_backoff_negative_delay Z string Examples.is_Exception
              Examples.always_fails "fetch"%string 3 (-1) 2 world0
              "ConnectionError"%string eq_refl eq_refl
              ltac:(vm_compute; discriminate) ltac:(reflexivity)
              ltac:(vm_compute; discriminate))
    as (Hr & Hc & Hsl & _).
  split; [exact Hr|]. split; [exact Hc|exact Hsl].
Defined.
